(** * mqtt-monitor: the connection-lifecycle and fan-out core

    A shallow embedding of the server class [MQTTMonitor]: the topic matcher
    [topicMatches], the broker session table [mqttClients], the viewer
    registry [wsClients], [broadcast], [handleWebSocketDisconnect], the
    heartbeat tick and the pause route, followed by the properties of the
    specification that are settled against them. *)

From Stdlib Require Import String Ascii ZArith NArith List Bool Lia.
From stdpp Require Import base option list gmap strings.
Import ListNotations.

Local Open Scope N_scope.

(** ** JavaScript strings

    A JavaScript string is a sequence of UTF-16 code units; a regular
    expression without the [u] flag works on code units. *)

Definition codeunit := N.
Definition jsstring := list codeunit.

Definition str (s : string) : jsstring :=
  List.map N_of_ascii (list_ascii_of_string s).

(** [s.replace(/c/g, by)] for a one-character pattern [c] and a replacement
    [by] that holds no substitution pattern: every occurrence of [c] becomes
    [by], every other code unit is kept. *)
Definition replaceAll (c : codeunit) (by_ : jsstring) (s : jsstring) : jsstring :=
  flat_map (fun x => if x =? c then by_ else [x]) s.

(** [s.includes(c)] for a one-character needle. *)
Definition includes (c : codeunit) (s : jsstring) : bool :=
  existsb (N.eqb c) s.

Module Ch.
Definition plus : codeunit := 43.      (* + *)
Definition hash : codeunit := 35.      (* # *)
Definition dollar : codeunit := 36.    (* $ *)
Definition slash : codeunit := 47.     (* / *)
Definition caret : codeunit := 94.     (* ^ *)
Definition backslash : codeunit := 92.
Definition dot : codeunit := 46.       (* . *)
Definition star : codeunit := 42.      (* * *)
Definition quest : codeunit := 63.     (* ? *)
Definition lparen : codeunit := 40.
Definition rparen : codeunit := 41.
Definition lbrack : codeunit := 91.
Definition rbrack : codeunit := 93.
Definition lbrace : codeunit := 123.
Definition rbrace : codeunit := 125.
Definition bar : codeunit := 124.      (* | *)
Definition minus : codeunit := 45.     (* - *)
End Ch.

(** What a call can do: return a value, throw, or leave the fragment of
    JavaScript this development gives a meaning to. *)
Inductive outcome (A : Type) : Type :=
| Returns (a : A)
| Throws
| Unmodelled.
Arguments Returns {A} a.
Arguments Throws {A}.
Arguments Unmodelled {A}.

(** ** The regular expressions of the runtime

    [topicMatches] builds a [RegExp] from a string and calls [test] on it.
    The runtime's pattern language is modelled for the constructs the
    translation of a topic pattern produces and for the metacharacters a
    pattern can carry into the regular expression unescaped: literal
    characters, [.], bracket classes of literal members, identity escapes,
    the quantifiers [*], [+] and [?] (greedy or lazy), alternation and the
    two anchors. Groups, braces, ranges and the other escapes are left
    [Unmodelled]. *)
Module RegExp.

Inductive atom : Type :=
| AChar (c : codeunit)                        (* a pattern character *)
| ADot                                        (* . *)
| AClass (neg : bool) (members : list codeunit). (* [...] and [^...] *)

Inductive quant : Type := QOne | QStar | QPlus | QOpt.

Inductive term : Type :=
| TBol                                        (* ^ *)
| TEol                                        (* $ *)
| TAtom (a : atom) (q : quant).

Definition alternative := list term.
Definition disjunction := list alternative.

(** *** Compiling the pattern text *)

Definition syntaxChars : list codeunit :=
  [Ch.caret; Ch.dollar; Ch.backslash; Ch.dot; Ch.star; Ch.plus; Ch.quest;
   Ch.lparen; Ch.rparen; Ch.lbrack; Ch.rbrack; Ch.lbrace; Ch.rbrace; Ch.bar].

Definition isSyntaxChar (c : codeunit) : bool := existsb (N.eqb c) syntaxChars.

(** What has been read of the term in progress. *)
Inductive pending : Type :=
| PNone                               (* at a term boundary *)
| PAtom (a : atom)                    (* an atom; a quantifier may follow *)
| PQuant (a : atom) (q : quant)       (* a quantifier; a lazy mark may follow *)
| PEscape                             (* a backslash *)
| PClassOpen                          (* an opening bracket *)
| PClass (neg : bool) (members : list codeunit). (* inside a class, members reversed *)

Record pstate : Type := mkP {
  alts : list alternative;            (* finished alternatives, reversed *)
  cur : list term;                    (* terms of the current one, reversed *)
  pend : pending
}.

Definition initial : pstate := mkP [] [] PNone.

Definition push (t : term) (st : pstate) : pstate :=
  mkP (alts st) (t :: cur st) PNone.

Definition withPend (p : pending) (st : pstate) : pstate :=
  mkP (alts st) (cur st) p.

(** A code unit read at a term boundary. *)
Definition startTerm (st : pstate) (c : codeunit) : outcome pstate :=
  if isSyntaxChar c then
    if c =? Ch.bar then Returns (mkP (rev (cur st) :: alts st) [] PNone)
    else if c =? Ch.caret then Returns (push TBol st)
    else if c =? Ch.dollar then Returns (push TEol st)
    else if c =? Ch.dot then Returns (withPend (PAtom ADot) st)
    else if c =? Ch.backslash then Returns (withPend PEscape st)
    else if c =? Ch.lbrack then Returns (withPend PClassOpen st)
    else if (c =? Ch.star) || (c =? Ch.plus) || (c =? Ch.quest)
    then Throws                       (* nothing to repeat *)
    else Unmodelled                   (* ( ) ] { } *)
  else Returns (withPend (PAtom (AChar c)) st).

Definition classMember (neg : bool) (ms : list codeunit) (st : pstate)
    (c : codeunit) : outcome pstate :=
  if c =? Ch.rbrack then Returns (withPend (PAtom (AClass neg (rev ms))) st)
  else if (c =? Ch.backslash) || (c =? Ch.minus) then Unmodelled
  else Returns (withPend (PClass neg (c :: ms)) st).

Definition step (st : pstate) (c : codeunit) : outcome pstate :=
  match pend st with
  | PNone => startTerm st c
  | PAtom a =>
      if c =? Ch.star then Returns (withPend (PQuant a QStar) st)
      else if c =? Ch.plus then Returns (withPend (PQuant a QPlus) st)
      else if c =? Ch.quest then Returns (withPend (PQuant a QOpt) st)
      else if c =? Ch.lbrace then Unmodelled
      else startTerm (push (TAtom a QOne) st) c
  | PQuant a q =>
      if c =? Ch.quest then Returns (push (TAtom a q) st)
      else if c =? Ch.lbrace then Unmodelled
      else startTerm (push (TAtom a q) st) c
  | PEscape =>
      if isSyntaxChar c || (c =? Ch.slash)
      then Returns (withPend (PAtom (AChar c)) st)
      else Unmodelled
  | PClassOpen =>
      if c =? Ch.caret then Returns (withPend (PClass true []) st)
      else classMember false [] st c
  | PClass neg ms => classMember neg ms st c
  end.

Fixpoint parseFrom (st : pstate) (src : jsstring) : outcome pstate :=
  match src with
  | [] => Returns st
  | c :: src' =>
      match step st c with
      | Returns st' => parseFrom st' src'
      | Throws => Throws
      | Unmodelled => Unmodelled
      end
  end.

Definition finish (st : pstate) : outcome disjunction :=
  match pend st with
  | PNone => Returns (rev (rev (cur st) :: alts st))
  | PAtom a => Returns (rev (rev (TAtom a QOne :: cur st) :: alts st))
  | PQuant a q => Returns (rev (rev (TAtom a q :: cur st) :: alts st))
  | PEscape | PClassOpen | PClass _ _ => Throws
  end.

(** [new RegExp(src)] *)
Definition compile (src : jsstring) : outcome disjunction :=
  match parseFrom initial src with
  | Returns st => finish st
  | Throws => Throws
  | Unmodelled => Unmodelled
  end.

(** *** Matching *)

Definition lineTerminators : list codeunit := [10; 13; 8232; 8233].

Definition atomMatches (a : atom) (x : codeunit) : bool :=
  match a with
  | AChar c => x =? c
  | ADot => negb (existsb (N.eqb x) lineTerminators)
  | AClass neg ms => xorb neg (existsb (N.eqb x) ms)
  end.

(** Whether the terms [ts] match some prefix of the rest [s] of the input;
    [atStart] tells that nothing of the input has been consumed yet. *)
Fixpoint matchTerms (ts : list term) (atStart : bool) (s : jsstring) : bool :=
  match ts with
  | [] => true
  | TBol :: ts' => atStart && matchTerms ts' atStart s
  | TEol :: ts' =>
      match s with
      | [] => matchTerms ts' atStart s
      | _ :: _ => false
      end
  | TAtom a q :: ts' =>
      let many :=
        fix many (atStart : bool) (s : jsstring) {struct s} : bool :=
          matchTerms ts' atStart s ||
          match s with
          | [] => false
          | x :: s' => atomMatches a x && many false s'
          end in
      match q with
      | QOne =>
          match s with
          | [] => false
          | x :: s' => atomMatches a x && matchTerms ts' false s'
          end
      | QOpt =>
          matchTerms ts' atStart s ||
          match s with
          | [] => false
          | x :: s' => atomMatches a x && matchTerms ts' false s'
          end
      | QStar => many atStart s
      | QPlus =>
          match s with
          | [] => false
          | x :: s' => atomMatches a x && many false s'
          end
      end
  end.

Definition matchHere (d : disjunction) (atStart : bool) (s : jsstring) : bool :=
  existsb (fun alt => matchTerms alt atStart s) d.

(** The search of [test]: a match is tried at every index from 0 on. *)
Fixpoint searchFrom (d : disjunction) (atStart : bool) (s : jsstring) : bool :=
  matchHere d atStart s ||
  match s with
  | [] => false
  | _ :: s' => searchFrom d false s'
  end.

(** [regex.test(s)] for a regular expression without flags. *)
Definition test (d : disjunction) (s : jsstring) : bool := searchFrom d true s.

End RegExp.

(** ** Topic Matcher *)

(** The text the three [replace] calls of [topicMatches] produce. *)
Definition regexPattern (pattern : jsstring) : jsstring :=
  replaceAll Ch.dollar (str "\$")
    (replaceAll Ch.hash (str ".*")
      (replaceAll Ch.plus (str "[^/]+") pattern)).

Definition topicMatches (topic pattern : jsstring) : outcome bool :=
  match RegExp.compile (str "^" ++ regexPattern pattern ++ str "$") with
  | Returns regex => Returns (RegExp.test regex topic)
  | Throws => Throws
  | Unmodelled => Unmodelled
  end.

Local Close Scope N_scope.
Local Open Scope Z_scope.

(** ** Values that reach the server from a request body *)

Inductive jsval : Type :=
| JUndefined
| JNull
| JBool (b : bool)
| JNum (z : Z)
| JStr (s : string)
| JObject.                               (* any object or array *)

(** The truth value the language gives a value in [!v] and [v ? a : b]. *)
Definition truthy (v : jsval) : bool :=
  match v with
  | JUndefined | JNull => false
  | JBool b => b
  | JNum z => negb (z =? 0)
  | JStr s => negb (String.eqb s EmptyString)
  | JObject => true
  end.

(** ** Data model *)

(** Objects the server shares between its tables and its callbacks live in
    a store and are named by a handle. *)
Definition handle := nat.

(** A row of [mqtt_connections]. *)
Record Connection : Type := mkConnection {
  conn_id : Z;
  conn_name : string;
  conn_host : string;
  conn_port : Z;
  conn_username : option string;
  conn_password : option string;
  conn_client_id : option string;
  conn_keepalive : option Z;
  conn_clean_session : jsval
}.

(** A row of [mqtt_topics]. *)
Record TopicRow : Type := mkTopic {
  topic_id : Z;
  topic_connection_id : Z;
  topic_topic : jsstring;
  topic_qos : Z;
  topic_active : bool
}.

(** The configuration store. [db_topics] holds the rows of [mqtt_topics]
    in the order in which [ORDER BY created_at DESC] returns them.
    [db_failing] tells that its queries currently reject (a locked or
    unreachable database file). *)
Record Database : Type := mkDatabase {
  db_connections : list Connection;
  db_topics : list TopicRow;
  db_failing : bool
}.

Inductive ReadyState : Type := CONNECTING | OPEN | CLOSING | CLOSED.

Definition isOpen (r : ReadyState) : bool :=
  match r with OPEN => true | _ => false end.

Inductive connStatus : Type := StatusConnected | StatusDisconnected.

Record messageData : Type := mkMessageData {
  md_connection_id : Z;
  md_topic : jsstring;
  md_message : jsstring;
  md_qos : Z;
  md_retained : bool;
  md_timestamp : Z
}.

(** The JSON documents the server writes to a viewer channel. *)
Inductive wsMessage : Type :=
| ConnectionEstablished (wsClientId : string)
    (* type connectionStatus, status connected, wsClientId *)
| ConnectionStatus (connectionId : Z) (status : connStatus)
| MessageEvent (data : messageData)
| Ping (timestamp : Z).

(** The requests of a viewer channel that touch the registry. *)
Inductive wsRequest : Type :=
| ReqPong
| ReqRegister (wsClientId : option string)
| ReqCleanup (wsClientId : option string).

Inductive brokerUrl : Type :=
| UrlOf (host : string)                              (* the host is a ws:// or wss:// URL *)
| UrlBuilt (protocol : string) (host : string) (port : Z).  (* protocol://host:port *)

Inductive clientIdent : Type :=
| ClientIdOf (s : string)
| ClientIdGenerated (now : Z).                       (* mqtt_monitor_<now> *)

Record mqttOptions : Type := mkOptions {
  opt_clientId : clientIdent;
  opt_keepalive : Z;
  opt_clean : bool;
  opt_reconnectPeriod : Z;
  opt_connectTimeout : Z;
  opt_protocol : option string;
  opt_rejectUnauthorized : option bool;
  opt_secureProtocol : option string;
  opt_username : option string;
  opt_password : option string
}.

(** A socket of the [ws] server. [ws_sendThrows] is the behaviour of the
    library at this socket: whether [send] raises instead of accepting the
    data. [ws_ownId] is the [wsClientId] its handlers were created with. *)
Record WebSocket : Type := mkWebSocket {
  ws_readyState : ReadyState;
  ws_sendThrows : bool;
  ws_ownId : string
}.

(** A client of the [mqtt] library with what its callbacks closed over. *)
Record MqttClient : Type := mkMqttClient {
  mc_connection : Connection;
  mc_wsClientId : option string;
  mc_connected : bool;
  mc_pauseMonitoring : jsval
}.

(** A value of the [wsClients] map. *)
Record ClientInfo : Type := mkClientInfo {
  ci_ws : handle;
  ci_mqttConnections : list Z;           (* a Set, in insertion order *)
  ci_connectedAt : Z;
  ci_lastPong : Z
}.

(** Calls that leave the server, in the order they are made, together with
    every entry into [broadcast]. *)
Inductive effect : Type :=
| MqttConnect (client : handle) (url : brokerUrl) (options : mqttOptions)
| MqttEnd (client : handle)
| MqttSubscribe (client : handle) (topic : jsstring) (qos : Z)
| WsSend (socket : handle) (data : wsMessage)
| Broadcast (data : wsMessage).

Record Monitor : Type := mkMonitor {
  mqttClients : gmap Z handle;           (* connection id to client *)
  wsClients : list (string * ClientInfo);(* a Map, in insertion order *)
  wssClients : list handle;              (* wss.clients *)
  sockets : gmap handle WebSocket;
  clients : gmap handle MqttClient;
  db : Database;
  trace : list effect;
  nextHandle : handle
}.

Definition initialDb : Database := mkDatabase [] [] false.

Definition initialMonitor : Monitor :=
  mkMonitor ∅ [] [] ∅ ∅ initialDb [] 0%nat.

Definition setMqttClients (m : gmap Z handle) (s : Monitor) : Monitor :=
  mkMonitor m (wsClients s) (wssClients s) (sockets s) (clients s) (db s)
    (trace s) (nextHandle s).
Definition setWsClients (w : list (string * ClientInfo)) (s : Monitor) : Monitor :=
  mkMonitor (mqttClients s) w (wssClients s) (sockets s) (clients s) (db s)
    (trace s) (nextHandle s).
Definition setWssClients (w : list handle) (s : Monitor) : Monitor :=
  mkMonitor (mqttClients s) (wsClients s) w (sockets s) (clients s) (db s)
    (trace s) (nextHandle s).
Definition setSockets (k : gmap handle WebSocket) (s : Monitor) : Monitor :=
  mkMonitor (mqttClients s) (wsClients s) (wssClients s) k (clients s) (db s)
    (trace s) (nextHandle s).
Definition setClients (c : gmap handle MqttClient) (s : Monitor) : Monitor :=
  mkMonitor (mqttClients s) (wsClients s) (wssClients s) (sockets s) c (db s)
    (trace s) (nextHandle s).
Definition setDb (d : Database) (s : Monitor) : Monitor :=
  mkMonitor (mqttClients s) (wsClients s) (wssClients s) (sockets s) (clients s) d
    (trace s) (nextHandle s).
Definition setTrace (t : list effect) (s : Monitor) : Monitor :=
  mkMonitor (mqttClients s) (wsClients s) (wssClients s) (sockets s) (clients s)
    (db s) t (nextHandle s).
Definition setNextHandle (n : handle) (s : Monitor) : Monitor :=
  mkMonitor (mqttClients s) (wsClients s) (wssClients s) (sockets s) (clients s)
    (db s) (trace s) n.

(** ** Insertion-ordered maps and sets *)

Section OrderedMap.
Context {V : Type}.

Fixpoint omap_get (k : string) (m : list (string * V)) : option V :=
  match m with
  | [] => None
  | (k', v) :: m' => if String.eqb k k' then Some v else omap_get k m'
  end.

(** [set] keeps the position of a key that is present and appends a new one. *)
Fixpoint omap_set (k : string) (v : V) (m : list (string * V)) : list (string * V) :=
  match m with
  | [] => [(k, v)]
  | (k', v') :: m' =>
      if String.eqb k k' then (k, v) :: m' else (k', v') :: omap_set k v m'
  end.

Definition omap_delete (k : string) (m : list (string * V)) : list (string * V) :=
  List.filter (fun e => negb (String.eqb k (fst e))) m.
End OrderedMap.

Definition oset_has (x : Z) (l : list Z) : bool := existsb (Z.eqb x) l.
Definition oset_add (x : Z) (l : list Z) : list Z :=
  if oset_has x l then l else l ++ [x].
Definition oset_delete (x : Z) (l : list Z) : list Z :=
  List.filter (fun y => negb (Z.eqb x y)) l.

(** ** Computations of the server

    A handler runs on the current [Monitor], changes it in place and
    returns or throws; what it changed before throwing stays changed. *)

Definition M (A : Type) : Type := Monitor -> outcome A * Monitor.

Definition ret {A} (a : A) : M A := fun s => (Returns a, s).
Definition throw {A} : M A := fun s => (Throws, s).

Definition bind {A B} (c : M A) (k : A -> M B) : M B := fun s =>
  match c s with
  | (Returns a, s') => k a s'
  | (Throws, s') => (Throws, s')
  | (Unmodelled, s') => (Unmodelled, s')
  end.

(** [try { c } catch (error) { h }] *)
Definition tryCatch {A} (c : M A) (h : M A) : M A := fun s =>
  match c s with
  | (Throws, s') => h s'
  | r => r
  end.

Definition gets {A} (f : Monitor -> A) : M A := fun s => (Returns (f s), s).
Definition modify (f : Monitor -> Monitor) : M unit := fun s => (Returns tt, f s).

#[global] Instance M_ret : MRet M := @ret.
#[global] Instance M_bind : MBind M := fun A B k c => bind c k.

Notation "'let*' x ':=' c 'in' k" := (bind c (fun x => k))
  (at level 10, x name, c at level 100, k at level 200, only parsing).

Definition when (b : bool) (c : M unit) : M unit := if b then c else ret tt.

Fixpoint forEach {A} (f : A -> M unit) (l : list A) : M unit :=
  match l with
  | [] => ret tt
  | x :: l' => f x;; forEach f l'
  end.

Definition emit (e : effect) : M unit :=
  modify (fun s => setTrace (trace s ++ [e]) s).

Definition run {A} (c : M A) (s : Monitor) : Monitor := snd (c s).
Definition result {A} (c : M A) (s : Monitor) : outcome A := fst (c s).

(** The effects a computation adds to the trace of [s]. *)
Definition emitted {A} (c : M A) (s : Monitor) : list effect :=
  drop (length (trace s)) (trace (run c s)).

Definition liftOutcome {A} (o : outcome A) : M A := fun s => (o, s).

(** [array.filter(f)] for a callback that may throw. *)
Fixpoint filterM {A} (f : A -> M bool) (l : list A) : M (list A) :=
  match l with
  | [] => ret []
  | x :: l' =>
      let* keep := f x in
      let* rest := filterM f l' in
      ret (if keep then x :: rest else rest)
  end.

(** ** The store of shared objects

    A reference the server holds is always to an object that exists; a
    handle without an object has no counterpart in the program, and reading
    it is [Unmodelled]. *)

Definition getSocket (sock : handle) : M WebSocket := fun s =>
  match sockets s !! sock with
  | Some w => (Returns w, s)
  | None => (Unmodelled, s)
  end.

Definition getClient (h : handle) : M MqttClient := fun s =>
  match clients s !! h with
  | Some c => (Returns c, s)
  | None => (Unmodelled, s)
  end.

Definition updateClient (h : handle) (f : MqttClient -> MqttClient) : M unit :=
  let* c := getClient h in
  modify (fun s => setClients (<[h := f c]> (clients s)) s).

Definition withConnected (b : bool) (c : MqttClient) : MqttClient :=
  mkMqttClient (mc_connection c) (mc_wsClientId c) b (mc_pauseMonitoring c).

Definition withPauseMonitoring (v : jsval) (c : MqttClient) : MqttClient :=
  mkMqttClient (mc_connection c) (mc_wsClientId c) (mc_connected c) v.

Definition withWs (sock : handle) (i : ClientInfo) : ClientInfo :=
  mkClientInfo sock (ci_mqttConnections i) (ci_connectedAt i) (ci_lastPong i).

Definition withMqttConnections (l : list Z) (i : ClientInfo) : ClientInfo :=
  mkClientInfo (ci_ws i) l (ci_connectedAt i) (ci_lastPong i).

Definition withLastPong (t : Z) (i : ClientInfo) : ClientInfo :=
  mkClientInfo (ci_ws i) (ci_mqttConnections i) (ci_connectedAt i) t.

(** The network changes a socket: its ready state, or whether the library
    still accepts data for it. *)
Definition socketChanges (sock : handle) (r : ReadyState) (throws : bool) : M unit :=
  let* w := getSocket sock in
  modify (fun s => setSockets (<[sock := mkWebSocket r throws (ws_ownId w)]> (sockets s)) s).

(** The store starts or stops rejecting its queries. *)
Definition databaseFails (b : bool) : M unit :=
  modify (fun s =>
    setDb (mkDatabase (db_connections (db s)) (db_topics (db s)) b) s).

(** [db.getTopics(connectionId)], awaited. *)
Definition db_getTopics (connectionId : Z) : M (list TopicRow) := fun s =>
  if db_failing (db s) then (Throws, s)
  else (Returns (List.filter (fun t => topic_connection_id t =? connectionId)
                   (db_topics (db s))), s).

(** [db.addTopic(topicData)], awaited, with the row as the store completes
    it. [db_topics] lists the rows the way [ORDER BY created_at DESC] gives
    them, and [created_at] counts seconds: the new row comes before the rows
    of earlier seconds and after the [sameSecond] rows that were stored in
    the second it is stored in. *)
Definition db_addTopic (t : TopicRow) (sameSecond : nat) : M unit := fun s =>
  if db_failing (db s) then (Throws, s)
  else (Returns tt,
        setDb (mkDatabase (db_connections (db s))
                 (take sameSecond (db_topics (db s)) ++
                  t :: drop sameSecond (db_topics (db s)))
                 (db_failing (db s))) s).

(** ** Fan-out Broadcaster *)

(** [socket.send(JSON.stringify(data))] *)
Definition wsSend (sock : handle) (data : wsMessage) : M unit :=
  let* w := getSocket sock in
  if ws_sendThrows w then throw else emit (WsSend sock data).

Definition broadcast (data : wsMessage) : M unit :=
  emit (Broadcast data);;
  let* cs := gets wssClients in
  forEach (fun client =>
    let* w := getSocket client in
    when (isOpen (ws_readyState w)) (wsSend client data)) cs.

(** ** Broker Session Manager and Lifecycle Coordinator *)

Definition disconnectMQTT (connectionId : Z) : M unit :=
  let* client := gets (fun s => mqttClients s !! connectionId) in
  match client with
  | Some h =>
      emit (MqttEnd h);;
      modify (fun s => setMqttClients (delete connectionId (mqttClients s)) s)
  | None => ret tt
  end.

Definition handleWebSocketDisconnect (wsClientId : string) : M unit :=
  let* clientInfo := gets (fun s => omap_get wsClientId (wsClients s)) in
  match clientInfo with
  | Some info =>
      forEach disconnectMQTT (ci_mqttConnections info);;
      modify (fun s => setWsClients (omap_delete wsClientId (wsClients s)) s)
  | None => ret tt
  end.

Definition nonEmpty (o : option string) : option string :=
  match o with
  | Some s => if String.eqb s EmptyString then None else Some s
  | None => None
  end.

Definition isFalse (v : jsval) : bool :=
  match v with JBool false => true | _ => false end.

(** The broker URL and the options [connectMQTT] computes. *)
Definition connectOptions (connection : Connection) (now : Z) : brokerUrl * mqttOptions :=
  let clientId :=
    match nonEmpty (conn_client_id connection) with
    | Some c => ClientIdOf c
    | None => ClientIdGenerated now
    end in
  let keepalive :=
    match conn_keepalive connection with
    | Some k => if k =? 0 then 60 else k
    | None => 60
    end in
  let clean := negb (isFalse (conn_clean_session connection)) in
  let host := conn_host connection in
  let wss := String.prefix "wss://" host in
  let mqtts := (conn_port connection =? 8883) || (conn_port connection =? 443) in
  let isUrl := wss || String.prefix "ws://" host in
  let secure := if isUrl then wss else mqtts in
  (if isUrl then UrlOf host
   else UrlBuilt (if mqtts then "mqtts" else "mqtt") host (conn_port connection),
   mkOptions clientId keepalive clean 5000 30000
     (if isUrl && wss then Some "wss"%string else None)
     (if secure then Some false else None)
     (if secure then Some "TLSv1_2_method"%string else None)
     (nonEmpty (conn_username connection))
     (nonEmpty (conn_password connection))).

(** [mqtt.connect(brokerUrl, options)] returns a client or throws. Which
    URLs and options make it throw is the library's affair (a port above
    65535 is one case); a [library] tells it, [true] standing for a throw. *)
Definition library : Type := brokerUrl -> mqttOptions -> bool.

(** A library that takes the descriptors of the scenarios below. *)
Definition noThrow : library := fun _ _ => false.

(** [connectMQTT(connection, wsClientId)]: computes the options, has the
    library create a client and registers the four callbacks on it. The call
    of [mqtt.connect] is in no [try]: when it throws, [connectMQTT] rejects
    and has written nothing. *)
Definition connectMQTT (connectThrows : library) (connection : Connection)
    (wsClientId : option string) (now : Z) : M unit :=
  let '(url, options) := connectOptions connection now in
  if connectThrows url options then throw
  else
    let* h := gets nextHandle in
    modify (fun s =>
      setNextHandle (S h)
        (setClients (<[h := mkMqttClient connection wsClientId false JUndefined]>
                       (clients s)) s));;
    emit (MqttConnect h url options).

(** The part of [subscribeToTopics] that runs once the store has answered. *)
Definition subscribeToTopics (connectionId : Z) : M unit :=
  tryCatch
    (let* topics := db_getTopics connectionId in
     let* client := gets (fun s => mqttClients s !! connectionId) in
     match client with
     | Some h =>
         let* c := getClient h in
         when (mc_connected c)
           (forEach (fun t => emit (MqttSubscribe h (topic_topic t) (topic_qos t)))
              (List.filter topic_active topics))
     | None => ret tt
     end)
    (ret tt).

(** The [connect] callback of client [h]. The [subscribeToTopics] it starts
    goes on in a later turn, as [subscribeToTopics] above. *)
Definition onMqttConnect (h : handle) : M unit :=
  updateClient h (withConnected true);;
  let* c := getClient h in
  let connection := mc_connection c in
  modify (fun s => setMqttClients (<[conn_id connection := h]> (mqttClients s)) s);;
  match nonEmpty (mc_wsClientId c) with
  | Some wsClientId =>
      let* info := gets (fun s => omap_get wsClientId (wsClients s)) in
      match info with
      | Some i =>
          modify (fun s =>
            setWsClients
              (omap_set wsClientId
                 (withMqttConnections
                    (oset_add (conn_id connection) (ci_mqttConnections i)) i)
                 (wsClients s)) s)
      | None => ret tt
      end
  | None => ret tt
  end;;
  broadcast (ConnectionStatus (conn_id connection) StatusConnected).

(** The [close] callback of client [h]. *)
Definition onMqttClose (h : handle) : M unit :=
  updateClient h (withConnected false);;
  let* c := getClient h in
  let connection := mc_connection c in
  modify (fun s => setMqttClients (delete (conn_id connection) (mqttClients s)) s);;
  modify (fun s =>
    setWsClients
      (List.map (fun e =>
         (fst e, withMqttConnections
                   (oset_delete (conn_id connection) (ci_mqttConnections (snd e)))
                   (snd e)))
         (wsClients s)) s);;
  broadcast (ConnectionStatus (conn_id connection) StatusDisconnected).

Definition isWildcard (t : TopicRow) : bool :=
  includes Ch.hash (topic_topic t) || includes Ch.plus (topic_topic t).

(** [topicMatches] above gives a meaning to the patterns of the fragment
    of [RegExp] that is modelled. For a pattern outside it the runtime
    answers all the same: the constructor throws, or [test] returns a
    boolean. A [runtime] stands for that answer ([None] for a throw). *)
Definition runtime : Type := jsstring -> jsstring -> option bool.

(** [this.topicMatches(topic, pattern)] as a handler calls it: the model's
    answer where it has one, the runtime's elsewhere. *)
Definition topicMatchesAt (rt : runtime) (topic pattern : jsstring) : outcome bool :=
  match topicMatches topic pattern with
  | Unmodelled =>
      match rt topic pattern with
      | Some b => Returns b
      | None => Throws
      end
  | r => r
  end.

(** The [message] callback of client [h], from the point where the store
    has answered its [getTopics]; what comes before only writes to the
    console. The pause flag is read at the end, as in the source. *)
Definition onMqttMessage (rt : runtime) (h : handle) (topic message : jsstring) (qos : Z)
    (retain : bool) (now : Z) : M unit :=
  let* c := getClient h in
  let connection := mc_connection c in
  tryCatch
    (let* topics := db_getTopics (conn_id connection) in
     let activeTopics := List.filter topic_active topics in
     let* matchingWildcards :=
       filterM (fun t =>
         if isWildcard t then liftOutcome (topicMatchesAt rt topic (topic_topic t))
         else ret false) activeTopics in
     (if (0 <? Z.of_nat (length matchingWildcards)) then ret tt
      else
        forEach (fun sub =>
          liftOutcome (topicMatchesAt rt topic (topic_topic sub));; ret tt)
          (List.filter isWildcard activeTopics));;
     let messageData :=
       mkMessageData (conn_id connection) topic message qos retain now in
     let* c' := getClient h in
     if negb (truthy (mc_pauseMonitoring c'))
     then broadcast (MessageEvent messageData)
     else ret tt)
    (ret tt).

(** ** The pause route *)

Inductive responseBody : Type :=
| BodySuccess (message : string)
| BodyError (error : string).

Record response : Type := mkResponse {
  res_status : Z;
  res_body : responseBody
}.

(** [this.mqttClients.get(connectionId)] for a value of a request body. The
    keys of [mqttClients] are numbers, so only a number finds an entry. *)
Definition sessionOf (s : Monitor) (connectionId : jsval) : option handle :=
  match connectionId with
  | JNum z => mqttClients s !! z
  | _ => None
  end.

(** [POST /api/pause-monitoring] with body [{connectionId, paused}]. *)
Definition pauseMonitoring (connectionId paused : jsval) : M response :=
  let* client := gets (fun s => sessionOf s connectionId) in
  match client with
  | Some h =>
      updateClient h (withPauseMonitoring paused);;
      ret (mkResponse 200
             (BodySuccess (if truthy paused then "Message monitoring paused"
                           else "Message monitoring resumed")))
  | None => ret (mkResponse 404 (BodyError "Connection not found"))
  end.

(** ** Viewer Session Registry *)

(** The [connection] callback of the socket server for a new socket that
    the library has opened and put into [wss.clients]. *)
Definition onWsConnection (wsClientId : string) (now : Z) : M handle :=
  let* sock := gets nextHandle in
  modify (fun s =>
    setNextHandle (S sock)
      (setWssClients (wssClients s ++ [sock])
         (setSockets (<[sock := mkWebSocket OPEN false wsClientId]> (sockets s)) s)));;
  modify (fun s =>
    setWsClients (omap_set wsClientId (mkClientInfo sock [] now now) (wsClients s)) s);;
  wsSend sock (ConnectionEstablished wsClientId);;
  ret sock.

(** The [message] callback of socket [sock] for the registry's requests. *)
Definition onWsMessage (sock : handle) (req : wsRequest) (now : Z) : M unit :=
  let* w := getSocket sock in
  let wsClientId := ws_ownId w in
  match req with
  | ReqPong =>
      let* info := gets (fun s => omap_get wsClientId (wsClients s)) in
      match info with
      | Some i =>
          modify (fun s =>
            setWsClients (omap_set wsClientId (withLastPong now i) (wsClients s)) s)
      | None => ret tt
      end
  | ReqRegister prior =>
      match nonEmpty prior with
      | Some priorId =>
          let* info := gets (fun s => omap_get priorId (wsClients s)) in
          match info with
          | Some i =>
              modify (fun s =>
                setWsClients (omap_set priorId (withWs sock i) (wsClients s)) s);;
              modify (fun s =>
                setWsClients (omap_delete wsClientId (wsClients s)) s)
          | None => ret tt
          end
      | None => ret tt
      end
  | ReqCleanup target =>
      handleWebSocketDisconnect
        (match nonEmpty target with Some t => t | None => wsClientId end)
  end.

(** The [close] and [error] callbacks of socket [sock]; the library has
    closed the socket and taken it out of [wss.clients]. *)
Definition onWsClose (sock : handle) : M unit :=
  let* w := getSocket sock in
  modify (fun s =>
    setWssClients (List.filter (fun c => negb (Nat.eqb c sock)) (wssClients s))
      (setSockets (<[sock := mkWebSocket CLOSED (ws_sendThrows w) (ws_ownId w)]>
                     (sockets s)) s));;
  handleWebSocketDisconnect (ws_ownId w).

(** What the heartbeat does for one entry of [wsClients]. An entry that
    was deleted from the map before its turn is not visited. *)
Definition heartbeatVisit (now : Z) (wsClientId : string) : M unit :=
  let* cur := gets (fun s => omap_get wsClientId (wsClients s)) in
  match cur with
  | Some clientInfo =>
      let* w := getSocket (ci_ws clientInfo) in
      if isOpen (ws_readyState w)
      then tryCatch (wsSend (ci_ws clientInfo) (Ping now))
                    (handleWebSocketDisconnect wsClientId)
      else handleWebSocketDisconnect wsClientId
  | None => ret tt
  end.

(** The callback [startHeartbeat] hands to [setInterval]. *)
Definition heartbeatTick (now : Z) : M unit :=
  let* entries := gets wsClients in
  forEach (fun e => heartbeatVisit now (fst e)) entries.

(** ** Vocabulary of the properties *)

(** The term of the regular expression that one character of a topic
    pattern turns into, for the characters that turn into exactly one. *)
Definition termOf (c : codeunit) : option RegExp.term :=
  if (c =? Ch.plus)%N then
    Some (RegExp.TAtom (RegExp.AClass true [Ch.slash]) RegExp.QPlus)
  else if (c =? Ch.hash)%N then Some (RegExp.TAtom RegExp.ADot RegExp.QStar)
  else if (c =? Ch.dollar)%N then Some (RegExp.TAtom (RegExp.AChar c) RegExp.QOne)
  else if (c =? Ch.dot)%N then Some (RegExp.TAtom RegExp.ADot RegExp.QOne)
  else if RegExp.isSyntaxChar c then None
  else Some (RegExp.TAtom (RegExp.AChar c) RegExp.QOne).

Fixpoint termsOf (p : jsstring) : option (list RegExp.term) :=
  match p with
  | [] => Some []
  | c :: p' =>
      match termOf c, termsOf p' with
      | Some t, Some ts => Some (t :: ts)
      | _, _ => None
      end
  end.

(** The terms a parser state holds once the term in progress is closed. *)
Definition curTerms (st : RegExp.pstate) : option (list RegExp.term) :=
  match RegExp.pend st with
  | RegExp.PNone => Some (rev (RegExp.cur st))
  | RegExp.PAtom a => Some (rev (RegExp.TAtom a RegExp.QOne :: RegExp.cur st))
  | RegExp.PQuant a q => Some (rev (RegExp.TAtom a q :: RegExp.cur st))
  | _ => None
  end.

Definition noBol (ts : list RegExp.term) : Prop :=
  Forall (fun t => t <> RegExp.TBol) ts.

(** A run of literal characters as terms. *)
Definition lits (p : jsstring) : list RegExp.term :=
  List.map (fun c => RegExp.TAtom (RegExp.AChar c) RegExp.QOne) p.

(** The characters of a pattern that the regular expression takes as
    themselves: all but [+], [#], [.] and the metacharacters the translation
    leaves unescaped. *)
Definition literalChar (c : codeunit) : bool :=
  match termOf c with
  | Some (RegExp.TAtom (RegExp.AChar _) RegExp.QOne) => true
  | _ => false
  end.

(** The characters that turn into one term: all but
    [^ \ * ? ( ) [ ] { } |]. *)
Definition oneTerm (c : codeunit) : bool :=
  match termOf c with Some _ => true | None => false end.

Definition noLineTerminator (s : jsstring) : Prop :=
  Forall (fun x => RegExp.atomMatches RegExp.ADot x = true) s.

(** The levels of a topic or of a pattern. *)
Fixpoint segments (s : jsstring) : list jsstring :=
  match s with
  | [] => [[]]
  | c :: s' =>
      if (c =? Ch.slash)%N then [] :: segments s'
      else match segments s' with
           | seg :: segs => (c :: seg) :: segs
           | [] => [[c]]
           end
  end.

(** A level equal to [#] stands before the last level. *)
Definition hashBeforeLast (p : jsstring) : Prop :=
  In [Ch.hash] (removelast (segments p)).

Definition slashes (s : jsstring) : nat :=
  length (List.filter (fun x => (x =? Ch.slash)%N) s).

Definition isSlashTerm (t : RegExp.term) : bool :=
  match t with
  | RegExp.TAtom (RegExp.AChar c) RegExp.QOne => (c =? Ch.slash)%N
  | _ => false
  end.

Definition minSlashes (ts : list RegExp.term) : nat :=
  length (List.filter isSlashTerm ts).

(** What the loop of [broadcast] does over the sockets [cs]: how it ends
    and the sends it makes before that. *)
Fixpoint deliveries (data : wsMessage) (sk : gmap handle WebSocket)
    (cs : list handle) : outcome unit * list effect :=
  match cs with
  | [] => (Returns tt, [])
  | c :: cs' =>
      match sk !! c with
      | None => (Unmodelled, [])
      | Some w =>
          if isOpen (ws_readyState w) then
            if ws_sendThrows w then (Throws, [])
            else (fst (deliveries data sk cs'),
                  WsSend c data :: snd (deliveries data sk cs'))
          else deliveries data sk cs'
      end
  end.

(** The sockets of [cs] that are open. *)
Definition openSockets (sk : gmap handle WebSocket) (cs : list handle) : list handle :=
  List.filter (fun c =>
    match sk !! c with
    | Some w => isOpen (ws_readyState w)
    | None => false
    end) cs.

(** No open socket of [cs] refuses data, and every socket of [cs] exists. *)
Definition allAccept (sk : gmap handle WebSocket) (cs : list handle) : Prop :=
  Forall (fun c =>
    exists w, sk !! c = Some w /\
              (isOpen (ws_readyState w) = true -> ws_sendThrows w = false)) cs.

(** The [end] calls of [forEach disconnectMQTT l] on the table [m]. *)
Fixpoint endsOf (l : list Z) (m : gmap Z handle) : list effect :=
  match l with
  | [] => []
  | c :: l' =>
      match m !! c with
      | Some h => MqttEnd h :: endsOf l' (delete c m)
      | None => endsOf l' m
      end
  end.

Definition deleteAll (l : list Z) (m : gmap Z handle) : gmap Z handle :=
  fold_left (fun m c => delete c m) l m.




(** The entries of a trace that are [end] calls on a broker client. *)
Definition isEnd (e : effect) : bool :=
  match e with
  | MqttEnd _ => true
  | _ => false
  end.

(** The connection ids the viewers of [l] are bound to, viewer by viewer. *)
Definition bindingsOf (l : list (string * ClientInfo)) : list Z :=
  List.flat_map (fun e => ci_mqttConnections (snd e)) l.

(** A viewer the heartbeat keeps: its socket is open and takes the probe. *)
Definition keptByHeartbeat (s : Monitor) (info : ClientInfo) : bool :=
  match sockets s !! ci_ws info with
  | Some w => isOpen (ws_readyState w) && negb (ws_sendThrows w)
  | None => false
  end.

(** The registry names every viewer once and every viewer's socket exists. *)
Definition registryOk (s : Monitor) : Prop :=
  NoDup (fst <$> wsClients s) /\
  Forall (fun e => is_Some (sockets s !! ci_ws (snd e))) (wsClients s).

(** ** Runs of the server used below *)

Definition conn1 : Connection :=
  mkConnection 1 "broker" "localhost" 1883 None None None None JUndefined.

(** One viewer [A] (socket 0) with one broker session for connection 1
    (client 1). *)
Definition oneSession : Monitor :=
  run (onWsConnection "A" 0;;
       connectMQTT noThrow conn1 (Some "A"%string) 1;;
       onMqttConnect 1%nat) initialMonitor.

(** [oneSession] with the active subscription [sensors/#] stored for
    connection 1. *)
Definition monitored : Monitor :=
  run (db_addTopic (mkTopic 1 1 (str "sensors/#") 0 true) 0) oneSession.

(** Two viewers [A] and [B] (sockets 0 and 1) that both asked for
    connection 1 (clients 2 and 3). *)
Definition twoViewers : Monitor :=
  run (onWsConnection "A" 0;;
       onWsConnection "B" 1;;
       connectMQTT noThrow conn1 (Some "A"%string) 2;;
       onMqttConnect 2%nat;;
       connectMQTT noThrow conn1 (Some "B"%string) 3;;
       onMqttConnect 3%nat) initialMonitor.

(** Two open viewer channels of which the first refuses data. *)
Definition firstRefuses : Monitor :=
  run (onWsConnection "A" 0;;
       onWsConnection "B" 1;;
       socketChanges 0%nat OPEN true) initialMonitor.


(** [oneSession] with the channel of viewer [A] closing: the viewer is
    bound to connection 1, whose session is in the table. *)
Definition closingViewer : Monitor :=
  run (socketChanges 0%nat CLOSING false) oneSession.

(** [oneSession] with the active subscription [a{b/#] stored for
    connection 1: a pattern that [RegExp] takes and that is outside the
    fragment modelled here. *)
Definition bracePattern : Monitor :=
  run (db_addTopic (mkTopic 2 1 (str "a{b/#") 0 true) 0) oneSession.

(** A library that throws for a built URL whose port is above 65535. *)
Definition portChecked : library := fun url _ =>
  match url with
  | UrlBuilt _ _ port => 65535 <? port
  | UrlOf _ => false
  end.

(** A store that holds one connection, with the port 99999. *)
Definition badPortStored : Monitor :=
  setDb (mkDatabase
           [mkConnection 7 "far" "localhost" 99999 None None None None JUndefined]
           [] false) initialMonitor.


Definition pausedSession : Monitor :=
  run (pauseMonitoring (JNum 1) (JBool true)) monitored.


(** The message of the scenarios: [21] published on [sensors/room1/temp]. *)
Definition reading : messageData :=
  mkMessageData 1 (str "sensors/room1/temp") (str "21") 0 false 5.

(** A viewer that never answers, after two heartbeat ticks. *)
Definition silentViewer : Monitor :=
  run (onWsConnection "A" 0;;
       heartbeatTick 30000;;
       heartbeatTick 60000) initialMonitor.

(** The registry after the [connect] callback has bound connection [id] to
    the viewer the client was created for. *)
Definition bindViewer (wsClientId : option string) (id : Z)
    (w : list (string * ClientInfo)) : list (string * ClientInfo) :=
  match nonEmpty wsClientId with
  | Some v =>
      match omap_get v w with
      | Some i => omap_set v (withMqttConnections (oset_add id (ci_mqttConnections i)) i) w
      | None => w
      end
  | None => w
  end.

(** The characters of [s] are all different from the level separator. *)
Definition noSlash (s : jsstring) : Prop :=
  Forall (fun x => RegExp.atomMatches (RegExp.AClass true [Ch.slash]) x = true) s.

(** Viewer [v] is bound to connection [k]. *)
Definition bound (s : Monitor) (v : string) (k : Z) : Prop :=
  exists info, omap_get v (wsClients s) = Some info /\ k ∈ ci_mqttConnections info.

(** A message sent by [broadcast]: [data], to an open socket of
    [wss.clients] that takes it. *)
Definition sentToOpen (s : Monitor) (data : wsMessage) (e : effect) : Prop :=
  exists sock w, e = WsSend sock data /\ sock ∈ wssClients s /\
                 sockets s !! sock = Some w /\ ws_readyState w = OPEN /\
                 ws_sendThrows w = false.

(** ** Routes and store operations beside the claims *)

(** What a route hands to [res]: a status with a JSON body, or, from its
    [catch], the status 500 with the message of what was thrown. *)
Inductive reply : Type :=
| Reply (r : response)
| ServerError.

(** [c.id == connectionId] for the number [id] of a stored row. The
    conversion of a string or an object to a number is not modelled. *)
Definition looseEqId (id : Z) (v : jsval) : outcome bool :=
  match v with
  | JNum z => Returns (id =? z)
  | JUndefined | JNull => Returns false
  | JBool b => Returns (id =? (if b then 1 else 0))
  | JStr _ | JObject => Unmodelled
  end.

(** [array.find(f)] for a callback that may throw. *)
Fixpoint findM {A} (f : A -> M bool) (l : list A) : M (option A) :=
  match l with
  | [] => ret None
  | x :: l' =>
      let* hit := f x in
      if hit then ret (Some x) else findM f l'
  end.

(** [db.getConnections()], awaited. *)
Definition db_getConnections : M (list Connection) := fun s =>
  if db_failing (db s) then (Throws, s) else (Returns (db_connections (db s)), s).

(** The [wsClientId] of a request body as [connectMQTT] uses it: only a
    string can name an entry of [wsClients]. *)
Definition asViewerId (v : jsval) : option string :=
  match v with
  | JStr s => Some s
  | _ => None
  end.

(** [POST /api/connect] with body [{connectionId, wsClientId}]. *)
Definition connectRoute (connectThrows : library) (connectionId wsClientId : jsval)
    (now : Z) : M reply :=
  tryCatch
    (let* connections := db_getConnections in
     let* connection :=
       findM (fun c => liftOutcome (looseEqId (conn_id c) connectionId)) connections in
     match connection with
     | None => ret (Reply (mkResponse 404 (BodyError "Connection not found")))
     | Some c =>
         connectMQTT connectThrows c (asViewerId wsClientId) now;;
         ret (Reply (mkResponse 200 (BodySuccess "Connected to MQTT broker")))
     end)
    (ret ServerError).

(** [disconnectMQTT(connectionId)] for a value that need not be a number:
    the keys of [mqttClients] are numbers, so another value finds no client. *)
Definition disconnectMQTTValue (connectionId : jsval) : M unit :=
  match connectionId with
  | JNum z => disconnectMQTT z
  | _ => ret tt
  end.

(** [db.deleteConnection(connectionId)] for the text of a path parameter.
    Which stored ids the store takes as equal to the text is the store's
    affair and is given by [sameId]. Only [mqtt_connections] is written. *)
Definition db_deleteConnection (sameId : string -> Z -> bool) (id : string) : M unit :=
  fun s =>
    if db_failing (db s) then (Throws, s)
    else (Returns tt,
          setDb (mkDatabase
                   (List.filter (fun c => negb (sameId id (conn_id c)))
                      (db_connections (db s)))
                   (db_topics (db s)) (db_failing (db s))) s).

(** [DELETE /api/connections/:id]; the path parameter is a string. *)
Definition deleteConnectionRoute (sameId : string -> Z -> bool) (id : string) : M reply :=
  tryCatch
    (disconnectMQTTValue (JStr id);;
     db_deleteConnection sameId id;;
     ret (Reply (mkResponse 200 (BodySuccess "Connection deleted"))))
    (ret ServerError).

(** The disconnects of the shutdown handler, over the keys of
    [mqttClients] in the order of the map, which the caller gives. *)
Definition shutdownSessions (keys : list Z) : M unit := forEach disconnectMQTT keys.

Definition withActive (b : bool) (t : TopicRow) : TopicRow :=
  mkTopic (topic_id t) (topic_connection_id t) (topic_topic t) (topic_qos t) b.

(** [db.updateTopicStatus(topicId, active)]: stores 1 or 0 by the truth
    value of [active]. *)
Definition db_updateTopicStatus (topicId : Z) (active : jsval) : M unit := fun s =>
  if db_failing (db s) then (Throws, s)
  else (Returns tt,
        setDb (mkDatabase (db_connections (db s))
                 (List.map (fun t => if topic_id t =? topicId
                                     then withActive (truthy active) t else t)
                    (db_topics (db s)))
                 (db_failing (db s))) s).

(** [db.getTopicById(topicId)]: the row, or [undefined]. *)
Definition db_getTopicById (topicId : Z) : M (option TopicRow) := fun s =>
  if db_failing (db s) then (Throws, s)
  else (Returns (List.find (fun t => topic_id t =? topicId) (db_topics (db s))), s).

(** ** Reachable states *)

(** What the tables of a running server always satisfy: the registry names
    every viewer once, every reference is to an object of the store, a set
    of bindings holds no connection id twice, an entry of the session table
    holds a client that was created for that connection id, and the handle
    the next object gets is not in use. *)
Record consistent (s : Monitor) : Prop := mkConsistent {
  cons_keys : NoDup (fst <$> wsClients s);
  cons_viewer_sockets :
    Forall (fun e => is_Some (sockets s !! ci_ws (snd e))) (wsClients s);
  cons_bindings : Forall (fun e => NoDup (ci_mqttConnections (snd e))) (wsClients s);
  cons_table : forall c h, mqttClients s !! c = Some h ->
    exists cl, clients s !! h = Some cl /\ conn_id (mc_connection cl) = c;
  cons_server_sockets : Forall (fun k => is_Some (sockets s !! k)) (wssClients s);
  cons_server_once : NoDup (wssClients s);
  cons_fresh : forall h, is_Some (sockets s !! h) \/ is_Some (clients s !! h) ->
    (h < nextHandle s)%nat
}.

(** The events of a run: callbacks of the two libraries, requests, timer
    ticks and changes of the network and of the store. *)
Inductive action : Type :=
| AOpen (wsClientId : string) (now : Z)
| ARequest (sock : handle) (req : wsRequest) (now : Z)
| AClose (sock : handle)
| ASocket (sock : handle) (r : ReadyState) (throws : bool)
| AConnectMQTT (connectThrows : library) (connection : Connection)
    (wsClientId : option string) (now : Z)
| AConnectRoute (connectThrows : library) (connectionId wsClientId : jsval) (now : Z)
| AMqttConnect (h : handle)
| AMqttClose (h : handle)
| AMqttMessage (rt : runtime) (h : handle) (topic message : jsstring) (qos : Z)
    (retain : bool) (now : Z)
| ASubscribe (connectionId : Z)
| ADisconnect (connectionId : jsval)
| ADeleteConnection (sameId : string -> Z -> bool) (id : string)
| APause (connectionId paused : jsval)
| ATick (now : Z)
| AShutdown (keys : list Z)
| AStore (failing : bool)
| AAddTopic (t : TopicRow) (sameSecond : nat)
| AUpdateTopic (topicId : Z) (active : jsval).

(** The monitor after an event. *)
Definition after (a : action) (s : Monitor) : Monitor :=
  match a with
  | AOpen wsClientId now => run (onWsConnection wsClientId now) s
  | ARequest sock req now => run (onWsMessage sock req now) s
  | AClose sock => run (onWsClose sock) s
  | ASocket sock r throws => run (socketChanges sock r throws) s
  | AConnectMQTT connectThrows connection wsClientId now =>
      run (connectMQTT connectThrows connection wsClientId now) s
  | AConnectRoute connectThrows connectionId wsClientId now =>
      run (connectRoute connectThrows connectionId wsClientId now) s
  | AMqttConnect h => run (onMqttConnect h) s
  | AMqttClose h => run (onMqttClose h) s
  | AMqttMessage rt h topic message qos retain now =>
      run (onMqttMessage rt h topic message qos retain now) s
  | ASubscribe connectionId => run (subscribeToTopics connectionId) s
  | ADisconnect connectionId => run (disconnectMQTTValue connectionId) s
  | ADeleteConnection sameId id => run (deleteConnectionRoute sameId id) s
  | APause connectionId paused => run (pauseMonitoring connectionId paused) s
  | ATick now => run (heartbeatTick now) s
  | AShutdown keys => run (shutdownSessions keys) s
  | AStore failing => run (databaseFails failing) s
  | AAddTopic t sameSecond => run (db_addTopic t sameSecond) s
  | AUpdateTopic topicId active => run (db_updateTopicStatus topicId active) s
  end.

Definition afterAll (l : list action) (s : Monitor) : Monitor :=
  fold_left (fun s a => after a s) l s.


(** A computation that leaves the tables consistent, however it ends. *)
Definition keeps {A} (c : M A) : Prop :=
  forall s, consistent s -> consistent (run c s).


(** The entries of a trace that are messages sent to a viewer socket. *)
Definition isSend (e : effect) : bool :=
  match e with
  | WsSend _ _ => true
  | _ => false
  end.

(** * Properties *)

Section Matcher.
Import RegExp.
Local Open Scope N_scope.

Lemma replaceAll_app c b x y :
  replaceAll c b (x ++ y) = replaceAll c b x ++ replaceAll c b y.
Proof. unfold replaceAll. apply flat_map_app. Qed.

Lemma regexPattern_app x y :
  regexPattern (x ++ y) = regexPattern x ++ regexPattern y.
Proof. unfold regexPattern. by rewrite !replaceAll_app. Qed.

Lemma regexPattern_cons c p :
  regexPattern (c :: p) = regexPattern [c] ++ regexPattern p.
Proof. apply (regexPattern_app [c] p). Qed.

Lemma not_syntax_neq c :
  isSyntaxChar c = false ->
  (c =? Ch.star) = false /\ (c =? Ch.plus) = false /\ (c =? Ch.quest) = false /\
  (c =? Ch.lbrace) = false /\ (c =? Ch.dollar) = false.
Proof.
  unfold isSyntaxChar, syntaxChars. cbn [existsb]. intros H.
  repeat (apply orb_false_elim in H as [? H]). auto.
Qed.

(** One pattern character read at a term boundary adds its term. *)
Lemma parse_char c t st ts0 rest :
  alts st = [] -> curTerms st = Some ts0 -> termOf c = Some t ->
  exists st', parseFrom st (regexPattern [c] ++ rest) = parseFrom st' rest /\
              alts st' = [] /\ curTerms st' = Some (ts0 ++ [t]).
Proof.
  destruct st as [al cu pe]. cbn [alts]. intros -> Hcur Ht.
  unfold termOf in Ht. unfold regexPattern, replaceAll. cbn [flat_map].
  destruct (N.eqb_spec c Ch.plus) as [->|Hplus].
  { injection Ht as <-. unfold curTerms in Hcur. cbn in Hcur.
    destruct pe; try discriminate; injection Hcur as <-; eexists; (split; [reflexivity|]); done. }
  rewrite app_nil_r. cbn [flat_map].
  destruct (N.eqb_spec c Ch.hash) as [->|Hhash].
  { injection Ht as <-. unfold curTerms in Hcur. cbn in Hcur.
    destruct pe; try discriminate; injection Hcur as <-; eexists; (split; [reflexivity|]); done. }
  rewrite app_nil_r. cbn [flat_map].
  destruct (N.eqb_spec c Ch.dollar) as [->|Hdollar].
  { injection Ht as <-. unfold curTerms in Hcur. cbn in Hcur.
    destruct pe; try discriminate; injection Hcur as <-; eexists; (split; [reflexivity|]); done. }
  rewrite app_nil_r.
  destruct (N.eqb_spec c Ch.dot) as [->|Hdot].
  { injection Ht as <-. unfold curTerms in Hcur. cbn in Hcur.
    destruct pe; try discriminate; injection Hcur as <-; eexists; (split; [reflexivity|]); done. }
  destruct (isSyntaxChar c) eqn:Hsyn; [discriminate|]. injection Ht as <-.
  destruct (not_syntax_neq c Hsyn) as (Hs & Hp & Hq & Hb & Hd).
  unfold curTerms in Hcur. cbn in Hcur. cbn [app parseFrom].
  destruct pe; try discriminate; injection Hcur as <-;
    unfold step; cbn [pend]; rewrite ?Hs, ?Hp, ?Hq, ?Hb; unfold startTerm; rewrite Hsyn;
    eexists; (split; [reflexivity|]); done.
Qed.

Lemma parse_pattern p : forall ts st ts0 rest,
  alts st = [] -> curTerms st = Some ts0 -> termsOf p = Some ts ->
  exists st', parseFrom st (regexPattern p ++ rest) = parseFrom st' rest /\
              alts st' = [] /\ curTerms st' = Some (ts0 ++ ts).
Proof.
  induction p as [|c p IH]; intros ts st ts0 rest Ha Hc Ht.
  - injection Ht as <-. exists st. by rewrite app_nil_r.
  - cbn [termsOf] in Ht. destruct (termOf c) as [t|] eqn:Hc1; [|discriminate].
    destruct (termsOf p) as [ts'|] eqn:Hp; [|discriminate]. injection Ht as <-.
    rewrite regexPattern_cons, <- app_assoc.
    destruct (parse_char c t st ts0 (regexPattern p ++ rest) Ha Hc Hc1)
      as (st1 & -> & Ha1 & Hc1').
    destruct (IH ts' st1 (ts0 ++ [t]) rest Ha1 Hc1' eq_refl) as (st2 & -> & Ha2 & Hc2).
    exists st2. by rewrite <- app_assoc in Hc2.
Qed.

(** The regular expression [topicMatches] compiles for a pattern whose
    characters all turn into one term. *)
Lemma compile_pattern p ts :
  termsOf p = Some ts ->
  compile (str "^" ++ regexPattern p ++ str "$") = Returns [TBol :: ts ++ [TEol]].
Proof.
  intros Ht. unfold compile. change (str "^") with [Ch.caret].
  cbn [app parseFrom]. change (step initial Ch.caret) with (Returns (push TBol initial)).
  destruct (parse_pattern p ts (push TBol initial) [TBol] (str "$") eq_refl eq_refl Ht)
    as (st & -> & Ha & Hc).
  destruct st as [al cu pe]. cbn [alts] in Ha. subst al.
  unfold curTerms in Hc. cbn [pend cur] in Hc. change (str "$") with [Ch.dollar].
  destruct pe; try discriminate; injection Hc as Hc; cbn; rewrite Hc; reflexivity.
Qed.

(** *** The matcher, term by term *)

Lemma matchTerms_star a ts b s :
  matchTerms (TAtom a QStar :: ts) b s =
  matchTerms ts b s ||
  match s with
  | [] => false
  | x :: s' => atomMatches a x && matchTerms (TAtom a QStar :: ts) false s'
  end.
Proof. destruct s; reflexivity. Qed.

Lemma matchTerms_plus a ts b s :
  matchTerms (TAtom a QPlus :: ts) b s =
  match s with
  | [] => false
  | x :: s' => atomMatches a x && matchTerms (TAtom a QStar :: ts) false s'
  end.
Proof. destruct s; reflexivity. Qed.

(** Without a [^] among the terms the start flag is not looked at. *)
Lemma matchTerms_noBol ts : noBol ts -> forall b s,
  matchTerms ts b s = matchTerms ts false s.
Proof.
  induction 1 as [|t ts Ht Hts IH]; intros b s; [done|].
  destruct t as [| |a q]; [done| |].
  - cbn [matchTerms]. destruct s; [apply IH|done].
  - destruct q.
    + reflexivity.
    + revert b. induction s as [|x s IHs]; intros b.
      * rewrite !(matchTerms_star a ts _ []). by rewrite IH.
      * rewrite !(matchTerms_star a ts _ (x :: s)). by rewrite IH.
    + by rewrite !matchTerms_plus.
    + cbn [matchTerms]. by rewrite IH.
Qed.

(** With the anchor in front, only the attempt at index 0 can succeed. *)
Lemma searchFrom_bol ts s b :
  searchFrom [TBol :: ts] b s = b && matchTerms ts b s.
Proof.
  assert (Hf : forall s, searchFrom [TBol :: ts] false s = false).
  { induction s0 as [|x s0 IHs]; [done|]. cbn [searchFrom]. by rewrite IHs. }
  destruct s; cbn [searchFrom matchHere existsb matchTerms]; rewrite ?Hf;
    by rewrite !orb_false_r.
Qed.

Lemma test_anchored ts s :
  test [TBol :: ts] s = matchTerms ts true s.
Proof. unfold test. by rewrite searchFrom_bol. Qed.

Lemma matchTerms_eol b s : matchTerms [TEol] b s = true <-> s = [].
Proof. destruct s; cbn; split; done. Qed.

Lemma matchTerms_lits p : forall ts b s, noBol ts ->
  matchTerms (lits p ++ ts) b s = true <->
  exists rest, s = p ++ rest /\ matchTerms ts false rest = true.
Proof.
  induction p as [|c p IH]; intros ts b s Hts.
  - cbn [lits List.map app]. rewrite (matchTerms_noBol ts Hts b). split.
    + intros H. by exists s.
    + by intros (rest & -> & H).
  - cbn [lits List.map app matchTerms]. fold (lits p). destruct s as [|x s].
    + split; [done|]. by intros (rest & ? & _).
    + cbn [atomMatches]. rewrite andb_true_iff, (IH ts false s Hts), N.eqb_eq. split.
      * intros (-> & rest & -> & H). by exists rest.
      * intros (rest & [= -> ->] & H). split; [done|]. by exists rest.
Qed.

Lemma matchTerms_dotstar ts : noBol ts -> forall b s,
  matchTerms (TAtom ADot QStar :: ts) b s = true <->
  exists mid rest, s = mid ++ rest /\ noLineTerminator mid /\
                   matchTerms ts false rest = true.
Proof.
  intros Hts b s. revert b. induction s as [|x s IH]; intros b.
  - rewrite matchTerms_star, orb_false_r, (matchTerms_noBol ts Hts b). split.
    + intros H. exists [], []. repeat split; [constructor|done].
    + intros (mid & rest & Heq & _ & H). symmetry in Heq.
      apply app_eq_nil in Heq as [-> ->]. done.
  - rewrite matchTerms_star, (matchTerms_noBol ts Hts b), orb_true_iff,
      andb_true_iff, (IH false). split.
    + intros [H|(Hx & mid & rest & -> & Hmid & H)].
      * exists [], (x :: s). repeat split; [constructor|done].
      * exists (x :: mid), rest. repeat split; [by constructor|done].
    + intros (mid & rest & Heq & Hmid & H). destruct mid as [|y mid].
      * left. cbn in Heq. by subst rest.
      * right. injection Heq as -> ->. inversion Hmid; subst.
        split; [done|]. by exists mid, rest.
Qed.

Lemma termsOf_app x y tx ty :
  termsOf x = Some tx -> termsOf y = Some ty -> termsOf (x ++ y) = Some (tx ++ ty).
Proof.
  revert tx. induction x as [|c x IH]; intros tx Hx Hy.
  - injection Hx as <-. done.
  - cbn [termsOf app] in *. destruct (termOf c); [|discriminate].
    destruct (termsOf x) as [tx'|]; [|discriminate]. injection Hx as <-.
    by rewrite (IH tx' eq_refl Hy).
Qed.

Lemma termsOf_literal p :
  forallb literalChar p = true -> termsOf p = Some (lits p).
Proof.
  induction p as [|c p IH]; [done|]. cbn [forallb termsOf lits List.map].
  intros [Hc Hp]%andb_true_iff. rewrite (IH Hp). unfold literalChar in Hc.
  unfold termOf in *.
  repeat match type of Hc with
         | context [if ?b then _ else _] => destruct b eqn:?
         end; try discriminate; done.
Qed.

Lemma noBol_lits p ts : noBol ts -> noBol (lits p ++ ts).
Proof.
  intros H. induction p as [|c p IH]; [done|].
  cbn [lits List.map app]. by constructor.
Qed.

Lemma termsOf_oneTerm p :
  forallb oneTerm p = true -> exists ts, termsOf p = Some ts.
Proof.
  induction p as [|c p IH]; [by exists []|]. cbn [forallb termsOf].
  intros [Hc Hp]%andb_true_iff. destruct (IH Hp) as [ts ->].
  unfold oneTerm in Hc. destruct (termOf c) as [t|]; [|discriminate]. by eexists.
Qed.

Lemma slashes_cons x s :
  slashes (x :: s) = if x =? Ch.slash then S (slashes s) else slashes s.
Proof. unfold slashes. cbn [List.filter]. by destruct (x =? Ch.slash). Qed.

Lemma slashes_cons_le x s : (slashes s <= slashes (x :: s))%nat.
Proof. rewrite slashes_cons. destruct (x =? Ch.slash); lia. Qed.

Lemma minSlashes_cons t ts :
  minSlashes (t :: ts) = if isSlashTerm t then S (minSlashes ts) else minSlashes ts.
Proof. unfold minSlashes. cbn [List.filter]. by destruct (isSlashTerm t). Qed.

Lemma slashes_app x y : slashes (x ++ y) = (slashes x + slashes y)%nat.
Proof. unfold slashes. by rewrite List.filter_app, length_app. Qed.

(** What a sequence of terms matches holds at least the slashes the
    sequence asks for one by one. *)
Lemma matchTerms_slashes ts : forall b s,
  matchTerms ts b s = true -> (minSlashes ts <= slashes s)%nat.
Proof.
  induction ts as [|t ts IH]; intros b s H; [unfold minSlashes; cbn; lia|].
  assert (Hstar : forall a s b, matchTerms (TAtom a QStar :: ts) b s = true ->
            (minSlashes ts <= slashes s)%nat).
  { intros a s0. induction s0 as [|x s0 IHs]; intros b0 H0;
      rewrite matchTerms_star in H0; apply orb_true_iff in H0 as [H0|H0];
      try (by apply (IH b0)); try done.
    apply andb_true_iff in H0 as [_ H0]. apply (IHs false) in H0.
    pose proof (slashes_cons_le x s0). lia. }
  rewrite minSlashes_cons. destruct t as [| |a q].
  - cbn [matchTerms isSlashTerm] in *. apply andb_true_iff in H as [_ H]. by apply (IH b).
  - cbn [matchTerms isSlashTerm] in *. destruct s; [|done]. by apply (IH b).
  - destruct q.
    + cbn [matchTerms] in H. destruct s as [|x s]; [done|].
      apply andb_true_iff in H as [Hx H]. apply IH in H.
      pose proof (slashes_cons_le x s).
      destruct a as [c| |]; cbn [atomMatches isSlashTerm] in *; try lia.
      apply N.eqb_eq in Hx as ->. rewrite slashes_cons.
      destruct (c =? Ch.slash); lia.
    + apply Hstar in H. destruct a; cbn [isSlashTerm]; lia.
    + rewrite matchTerms_plus in H. destruct s as [|x s]; [done|].
      apply andb_true_iff in H as [_ H]. apply Hstar in H.
      pose proof (slashes_cons_le x s). destruct a; cbn [isSlashTerm]; lia.
    + cbn [matchTerms] in H.
      assert (minSlashes ts <= slashes s)%nat.
      { apply orb_true_iff in H as [H|H]; [by apply (IH b)|].
        destruct s as [|x s]; [done|]. apply andb_true_iff in H as [_ H].
        apply IH in H. pose proof (slashes_cons_le x s). lia. }
      destruct a; cbn [isSlashTerm]; lia.
Qed.

(** The terms of a pattern ask for as many slashes as the pattern has. *)
Lemma minSlashes_termsOf p : forall ts,
  termsOf p = Some ts -> minSlashes ts = slashes p.
Proof.
  induction p as [|c p IH]; intros ts H.
  - by injection H as <-.
  - cbn [termsOf] in H. destruct (termOf c) as [t|] eqn:Hc; [|discriminate].
    destruct (termsOf p) as [ts'|]; [|discriminate]. injection H as <-.
    rewrite minSlashes_cons, slashes_cons, (IH ts' eq_refl).
    assert (isSlashTerm t = (c =? Ch.slash)) as ->; [|done].
    unfold termOf in Hc.
    repeat match type of Hc with
           | context [if ?b then _ else _] => destruct b eqn:?
           end; try discriminate; injection Hc as <-; cbn [isSlashTerm];
      try done;
      match goal with
      | H : (c =? _) = true |- _ => apply N.eqb_eq in H; by subst c
      end.
Qed.

(** The two classes of characters, spelled out. *)
Lemma oneTerm_spec c :
  oneTerm c =
  negb (existsb (N.eqb c)
          [Ch.caret; Ch.backslash; Ch.star; Ch.quest; Ch.lparen; Ch.rparen;
           Ch.lbrack; Ch.rbrack; Ch.lbrace; Ch.rbrace; Ch.bar]).
Proof.
  unfold oneTerm, termOf, isSyntaxChar, syntaxChars. cbn [existsb].
  repeat match goal with
         | |- context [N.eqb c ?k] =>
             destruct (N.eqb_spec c k) as [->|?]; [vm_compute; reflexivity|]
         end.
  reflexivity.
Qed.

Lemma literalChar_spec c :
  literalChar c =
  negb (existsb (N.eqb c)
          [Ch.plus; Ch.hash; Ch.dot; Ch.caret; Ch.backslash; Ch.star; Ch.quest;
           Ch.lparen; Ch.rparen; Ch.lbrack; Ch.rbrack; Ch.lbrace; Ch.rbrace; Ch.bar]).
Proof.
  unfold literalChar, termOf, isSyntaxChar, syntaxChars. cbn [existsb].
  repeat match goal with
         | |- context [N.eqb c ?k] =>
             destruct (N.eqb_spec c k) as [->|?]; [vm_compute; reflexivity|]
         end.
  reflexivity.
Qed.

(** A pattern of literal characters is matched by itself alone. *)
Lemma topicMatches_literal T P :
  forallb literalChar P = true ->
  exists b, topicMatches T P = Returns b /\ (b = true <-> T = P).
Proof.
  intros HP. unfold topicMatches.
  rewrite (compile_pattern P (lits P) (termsOf_literal P HP)).
  eexists. split; [reflexivity|].
  assert (Hn : noBol [TEol]) by (by repeat constructor).
  rewrite test_anchored, (matchTerms_lits P [TEol] true T Hn). split.
  - intros (rest & -> & ->%matchTerms_eol). by rewrite app_nil_r.
  - intros ->. exists []. by rewrite app_nil_r.
Qed.

(** C4, at the input where the code leaves it: the pattern [a.b] holds
    neither [+] nor [#], the topic [axb] is a different string, and
    [topicMatches] answers true, because the dot reaches the regular
    expression unescaped. *)
Theorem topicMatches_dot_pattern :
  includes Ch.plus (str "a.b") = false /\
  includes Ch.hash (str "a.b") = false /\
  str "axb" <> str "a.b" /\
  topicMatches (str "axb") (str "a.b") = Returns true.
Proof.
  split; [reflexivity|]. split; [reflexivity|]. split.
  - intros H. vm_compute in H. discriminate H.
  - vm_compute. reflexivity.
Qed.

(** C5 as stated fails: the pattern [a/#/c] has the level [#] before its
    last level and matches the topic [a/b/c]. *)
Lemma hash_before_last_matches :
  ~ (forall p T, hashBeforeLast p -> topicMatches T p = Returns false).
Proof.
  intros H. specialize (H (str "a/#/c") (str "a/b/c")).
  assert (Hh : hashBeforeLast (str "a/#/c")) by (vm_compute; tauto).
  apply H in Hh. vm_compute in Hh. discriminate.
Qed.

(** C5, amended: a [#] is a wildcard wherever it stands. For a pattern
    made of literal characters [pre], a [#] and literal characters [post],
    [topicMatches] returns (it never throws), and it returns true exactly
    for the topics that are [pre], then any characters without a line
    terminator, then [post]. *)
Theorem hash_anywhere_wildcard (pre post T : jsstring) :
  forallb literalChar pre = true ->
  forallb literalChar post = true ->
  exists b, topicMatches T (pre ++ [Ch.hash] ++ post) = Returns b /\
    (b = true <->
     exists mid, T = pre ++ mid ++ post /\ noLineTerminator mid).
Proof.
  intros Hpre Hpost. unfold topicMatches.
  assert (Ht : termsOf (pre ++ [Ch.hash] ++ post) =
               Some (lits pre ++ [TAtom ADot QStar] ++ lits post)).
  { apply termsOf_app; [by apply termsOf_literal|].
    apply (termsOf_app [Ch.hash] post [TAtom ADot QStar]); [done|].
    by apply termsOf_literal. }
  rewrite (compile_pattern _ _ Ht). eexists. split; [reflexivity|].
  assert (Hn : noBol [TEol]) by (by repeat constructor).
  pose proof (noBol_lits post [TEol] Hn) as Hn2.
  rewrite test_anchored, <- !app_assoc.
  rewrite (matchTerms_lits pre _ true T); [|by constructor].
  cbn [app]. split.
  - intros (rest & -> & (mid & rest' & -> & Hmid & H)%(matchTerms_dotstar _ Hn2)).
    apply (matchTerms_lits post [TEol] false rest' Hn) in H
      as (e & -> & ->%matchTerms_eol).
    exists mid. by rewrite app_nil_r.
  - intros (mid & -> & Hmid). exists (mid ++ post). split; [done|].
    apply (matchTerms_dotstar _ Hn2). exists mid, post. repeat split; [done|].
    apply (matchTerms_lits post [TEol] false post Hn). exists [].
    by rewrite app_nil_r.
Qed.

Lemma hash_anywhere_wildcard_witness :
  forallb literalChar (str "a/") = true /\
  forallb literalChar (str "/c") = true /\
  exists b, topicMatches (str "a/b/c") (str "a/" ++ [Ch.hash] ++ str "/c") = Returns b /\
    (b = true <->
     exists mid, str "a/b/c" = str "a/" ++ mid ++ str "/c" /\ noLineTerminator mid).
Proof.
  split; [reflexivity|]. split; [reflexivity|].
  apply (hash_anywhere_wildcard (str "a/") (str "/c") (str "a/b/c")); reflexivity.
Defined.

(** C9, at the input where the code leaves it: for the topic [a/?] the
    pattern [a/?/#] becomes the regular expression [^a/?/.*$]. The question
    mark reaches it unescaped and makes the slash before it optional, so
    the topic itself is matched: [topicMatches] returns true for the parent
    topic and its own multi-level wildcard pattern. *)
Theorem parent_matched_through_quantifier :
  regexPattern (str "a/?" ++ str "/#") = str "a/?/.*" /\
  topicMatches (str "a/?") (str "a/?" ++ str "/#") = Returns true.
Proof. vm_compute. split; reflexivity. Qed.

(** The behaviour the translation is written for: for every topic [T]
    without the characters [^ \ * ? ( ) [ ] { } |],
    [topicMatches T (T + "/#")] returns false, because the pattern asks for
    one more slash than the topic has. *)
Theorem parent_not_matched (T : jsstring) :
  forallb oneTerm T = true ->
  topicMatches T (T ++ str "/#") = Returns false.
Proof.
  intros HT. destruct (termsOf_oneTerm T HT) as [ts Hts].
  assert (Ht : termsOf (T ++ str "/#") =
               Some (ts ++ [TAtom (AChar Ch.slash) QOne; TAtom ADot QStar])).
  { by apply termsOf_app. }
  unfold topicMatches. rewrite (compile_pattern _ _ Ht). f_equal.
  rewrite test_anchored. apply not_true_is_false. intros Hm.
  apply matchTerms_slashes in Hm.
  unfold minSlashes in Hm. rewrite !List.filter_app, !length_app in Hm.
  fold (minSlashes ts) in Hm. rewrite (minSlashes_termsOf T ts Hts) in Hm.
  cbn in Hm. lia.
Qed.

Lemma parent_not_matched_witness :
  forallb oneTerm (str "sensors/room1") = true /\
  topicMatches (str "sensors/room1") (str "sensors/room1" ++ str "/#") = Returns false.
Proof.
  split; [reflexivity|].
  apply (parent_not_matched (str "sensors/room1")). reflexivity.
Defined.

(** The character constants and the replacement texts are the ones of the
    source. *)
Example characters_of_the_source :
  str "+#$/^\.*?()[]{}|-" =
    [Ch.plus; Ch.hash; Ch.dollar; Ch.slash; Ch.caret; Ch.backslash; Ch.dot;
     Ch.star; Ch.quest; Ch.lparen; Ch.rparen; Ch.lbrack; Ch.rbrack; Ch.lbrace;
     Ch.rbrace; Ch.bar; Ch.minus] /\
  regexPattern (str "$SYS/+/#") = str "\$SYS/[^/]+/.*".
Proof. split; reflexivity. Qed.

(** Patterns outside the claims: a pattern that starts with a star makes the
    [RegExp] constructor throw, and an alternation bar splits the anchors. *)
Example pattern_star_throws : topicMatches (str "x") (str "*/#") = Throws.
Proof. vm_compute. reflexivity. Qed.
Example pattern_bar_splits : topicMatches (str "a|b") (str "a|b/#") = Returns true.
Proof. vm_compute. reflexivity. Qed.

Example spec_match_plus : topicMatches (str "a/b/c") (str "a/+/c") = Returns true.
Proof. vm_compute. reflexivity. Qed.
Example spec_match_plus_short : topicMatches (str "a/b/c") (str "a/+") = Returns false.
Proof. vm_compute. reflexivity. Qed.
Example spec_match_hash : topicMatches (str "a/b/c") (str "a/#") = Returns true.
Proof. vm_compute. reflexivity. Qed.
Example spec_match_hash_long : topicMatches (str "a/b/c") (str "a/b/c/d/#") = Returns false.
Proof. vm_compute. reflexivity. Qed.

(** *** Further properties of the matcher *)

Lemma matchTerms_atomstar a ts : noBol ts -> forall b s,
  matchTerms (TAtom a QStar :: ts) b s = true <->
  exists mid rest, s = mid ++ rest /\ Forall (fun x => atomMatches a x = true) mid /\
                   matchTerms ts false rest = true.
Proof.
  intros Hts b s. revert b. induction s as [|x s IH]; intros b.
  - rewrite matchTerms_star, orb_false_r, (matchTerms_noBol ts Hts b). split.
    + intros H. exists [], []. repeat split; [constructor|done].
    + intros (mid & rest & Heq & _ & H). symmetry in Heq.
      apply app_eq_nil in Heq as [-> ->]. done.
  - rewrite matchTerms_star, (matchTerms_noBol ts Hts b), orb_true_iff,
      andb_true_iff, (IH false). split.
    + intros [H|(Hx & mid & rest & -> & Hmid & H)].
      * exists [], (x :: s). repeat split; [constructor|done].
      * exists (x :: mid), rest. repeat split; [by constructor|done].
    + intros (mid & rest & Heq & Hmid & H). destruct mid as [|y mid].
      * left. cbn in Heq. by subst rest.
      * right. injection Heq as -> ->. inversion Hmid; subst.
        split; [done|]. by exists mid, rest.
Qed.

Lemma matchTerms_atomplus a ts : noBol ts -> forall b s,
  matchTerms (TAtom a QPlus :: ts) b s = true <->
  exists mid rest, s = mid ++ rest /\ mid <> [] /\
                   Forall (fun x => atomMatches a x = true) mid /\
                   matchTerms ts false rest = true.
Proof.
  intros Hts b s. rewrite matchTerms_plus. destruct s as [|x s].
  - split; [done|]. intros (mid & rest & Heq & Hne & _). symmetry in Heq.
    apply app_eq_nil in Heq as [-> _]. done.
  - rewrite andb_true_iff, (matchTerms_atomstar a ts Hts false s). split.
    + intros (Hx & mid & rest & -> & Hmid & H).
      exists (x :: mid), rest. repeat split; [done|by constructor|done].
    + intros (mid & rest & Heq & Hne & Hmid & H). destruct mid as [|y mid]; [done|].
      injection Heq as -> ->. inversion Hmid; subst. split; [done|].
      by exists mid, rest.
Qed.

(** X1: for a pattern of literal characters (no [+], [#], [.] and none of
    [^ \ * ? ( ) [ ] { } |]), [topicMatches] returns, and returns true for
    the topic equal to the pattern and for no other. *)
Theorem literal_pattern_matches_itself (T P : jsstring) :
  forallb literalChar P = true ->
  exists b, topicMatches T P = Returns b /\ (b = true <-> T = P).
Proof.
  intros HP. unfold topicMatches.
  rewrite (compile_pattern P (lits P) (termsOf_literal P HP)).
  eexists. split; [reflexivity|].
  assert (Hn : noBol [TEol]) by (by repeat constructor).
  rewrite test_anchored, (matchTerms_lits P [TEol] true T Hn). split.
  - intros (rest & -> & ->%matchTerms_eol). by rewrite app_nil_r.
  - intros ->. exists []. by rewrite app_nil_r.
Qed.

Lemma literal_pattern_matches_itself_witness :
  forallb literalChar (str "$SYS/broker/load") = true /\
  exists b, topicMatches (str "$SYS/broker/load") (str "$SYS/broker/load") = Returns b /\
            (b = true <-> str "$SYS/broker/load" = str "$SYS/broker/load").
Proof.
  split; [reflexivity|].
  apply (literal_pattern_matches_itself (str "$SYS/broker/load") (str "$SYS/broker/load")).
  reflexivity.
Defined.

(** X2: the single-level wildcard stands for one or more characters other
    than the level separator. For literal [pre] and [post], [topicMatches]
    returns true for [pre + "+" + post] exactly on the topics that are
    [pre], then a non-empty run without a slash, then [post]; an empty
    level is not matched. *)
Theorem plus_matches_nonempty_level (pre post T : jsstring) :
  forallb literalChar pre = true ->
  forallb literalChar post = true ->
  exists b, topicMatches T (pre ++ [Ch.plus] ++ post) = Returns b /\
    (b = true <->
     exists mid, T = pre ++ mid ++ post /\ mid <> [] /\ noSlash mid).
Proof.
  intros Hpre Hpost. unfold topicMatches.
  assert (Ht : termsOf (pre ++ [Ch.plus] ++ post) =
               Some (lits pre ++ [TAtom (AClass true [Ch.slash]) QPlus] ++ lits post)).
  { apply termsOf_app; [by apply termsOf_literal|].
    apply (termsOf_app [Ch.plus] post [TAtom (AClass true [Ch.slash]) QPlus]); [done|].
    by apply termsOf_literal. }
  rewrite (compile_pattern _ _ Ht). eexists. split; [reflexivity|].
  assert (Hn : noBol [TEol]) by (by repeat constructor).
  pose proof (noBol_lits post [TEol] Hn) as Hn2.
  rewrite test_anchored, <- !app_assoc.
  rewrite (matchTerms_lits pre _ true T); [|by constructor].
  cbn [app]. split.
  - intros (rest & -> & (mid & rest' & -> & Hne & Hmid & H)%(matchTerms_atomplus _ _ Hn2)).
    apply (matchTerms_lits post [TEol] false rest' Hn) in H
      as (e & -> & ->%matchTerms_eol).
    exists mid. by rewrite app_nil_r.
  - intros (mid & -> & Hne & Hmid). exists (mid ++ post). split; [done|].
    apply (matchTerms_atomplus _ _ Hn2). exists mid, post. repeat split; [done..|].
    apply (matchTerms_lits post [TEol] false post Hn). exists [].
    by rewrite app_nil_r.
Qed.

Lemma plus_matches_nonempty_level_witness :
  forallb literalChar (str "a/") = true /\
  forallb literalChar (str "/c") = true /\
  exists b, topicMatches (str "a//c") (str "a/" ++ [Ch.plus] ++ str "/c") = Returns b /\
    (b = true <->
     exists mid, str "a//c" = str "a/" ++ mid ++ str "/c" /\ mid <> [] /\ noSlash mid).
Proof.
  split; [reflexivity|]. split; [reflexivity|].
  apply (plus_matches_nonempty_level (str "a/") (str "/c") (str "a//c")); reflexivity.
Defined.

(** An empty level: [a//c] is not matched by [a/+/c]. *)
Example plus_rejects_empty_level :
  topicMatches (str "a//c") (str "a/+/c") = Returns false.
Proof. vm_compute. reflexivity. Qed.

(** X3: a pattern without the characters [^ \ * ? ( ) [ ] { } |] never
    makes [topicMatches] throw: for every topic it returns a boolean. *)
Theorem plain_pattern_never_throws (T P : jsstring) :
  forallb oneTerm P = true ->
  exists b, topicMatches T P = Returns b.
Proof.
  intros HP. destruct (termsOf_oneTerm P HP) as [ts Hts].
  unfold topicMatches. rewrite (compile_pattern P ts Hts). by eexists.
Qed.

Lemma plain_pattern_never_throws_witness :
  forallb oneTerm (str "sensors/+/temp/#") = true /\
  exists b, topicMatches (str "sensors/room1/temp") (str "sensors/+/temp/#") = Returns b.
Proof.
  split; [reflexivity|].
  apply (plain_pattern_never_throws (str "sensors/room1/temp") (str "sensors/+/temp/#")).
  reflexivity.
Defined.

(** X4: a pattern that starts with a star or a question mark makes
    [topicMatches] throw for every topic: the character reaches the
    regular expression as a quantifier with nothing to repeat. *)
Theorem leading_quantifier_throws (T p : jsstring) (c : codeunit) :
  c = Ch.star \/ c = Ch.quest ->
  topicMatches T (c :: p) = Throws.
Proof.
  intros [-> | ->]; unfold topicMatches, compile; rewrite regexPattern_cons;
    reflexivity.
Qed.

Lemma leading_quantifier_throws_witness :
  topicMatches (str "a/b") (Ch.star :: str "/b") = Throws.
Proof.
  apply (leading_quantifier_throws (str "a/b") (str "/b") Ch.star). left. reflexivity.
Defined.
End Matcher.

Section Server.

Lemma setTrace_nil s : setTrace (trace s ++ []) s = s.
Proof. destruct s. unfold setTrace. cbn. by rewrite app_nil_r. Qed.

Lemma emitted_trace {A} (c : M A) s es :
  trace (run c s) = trace s ++ es -> emitted c s = es.
Proof. intros H. unfold emitted. rewrite H. by rewrite drop_app_length. Qed.

(** *** Fan-out *)

Lemma sendLoop_eq data cs : forall s,
  forEach (fun client =>
    let* w := getSocket client in
    when (isOpen (ws_readyState w)) (wsSend client data)) cs s =
  (fst (deliveries data (sockets s) cs),
   setTrace (trace s ++ snd (deliveries data (sockets s) cs)) s).
Proof.
  induction cs as [|c cs IH]; intros s.
  - cbn. by rewrite setTrace_nil.
  - cbn [forEach deliveries]. unfold mbind, M_bind, bind at 1, bind at 1, getSocket.
    destruct (sockets s !! c) as [w|] eqn:Hc; [|by rewrite setTrace_nil].
    destruct (isOpen (ws_readyState w)); cbn [when].
    + unfold wsSend, bind, getSocket. rewrite Hc.
      destruct (ws_sendThrows w); [by rewrite setTrace_nil|].
      cbn. rewrite IH. cbn. by rewrite <- app_assoc.
    + cbn. apply IH.
Qed.

Lemma broadcast_eq data s :
  broadcast data s =
  (fst (deliveries data (sockets s) (wssClients s)),
   setTrace (trace s ++ Broadcast data :: snd (deliveries data (sockets s) (wssClients s))) s).
Proof.
  unfold broadcast, mbind, M_bind, bind at 1, emit, modify. cbn.
  rewrite sendLoop_eq. cbn. by rewrite <- app_assoc.
Qed.

Lemma deliveries_allAccept data sk cs :
  allAccept sk cs ->
  deliveries data sk cs = (Returns tt, List.map (fun c => WsSend c data) (openSockets sk cs)).
Proof.
  induction 1 as [|c cs (w & Hw & Hacc) _ IH]; [done|].
  cbn [deliveries openSockets List.filter]. rewrite Hw.
  destruct (isOpen (ws_readyState w)).
  - rewrite Hacc by done. fold (openSockets sk cs). by rewrite IH.
  - apply IH.
Qed.

Lemma deliveries_sends data sk cs :
  Forall (fun e => exists c, e = WsSend c data) (snd (deliveries data sk cs)).
Proof.
  induction cs as [|c cs IH]; [constructor|]. cbn [deliveries].
  destruct (sk !! c) as [w|]; [|constructor].
  destruct (isOpen (ws_readyState w)); [|done].
  destruct (ws_sendThrows w); [constructor|]. cbn. constructor; [by eexists|done].
Qed.

(** *** Disconnecting broker sessions *)

Lemma disconnectAll_eq l : forall s,
  forEach disconnectMQTT l s =
  (Returns tt,
   setMqttClients (deleteAll l (mqttClients s))
     (setTrace (trace s ++ endsOf l (mqttClients s)) s)).
Proof.
  induction l as [|c l IH]; intros s.
  - cbn. destruct s. unfold setMqttClients, setTrace. cbn. by rewrite app_nil_r.
  - cbn [forEach endsOf deleteAll fold_left].
    unfold mbind, M_bind, bind at 1, disconnectMQTT, bind at 1, gets.
    destruct (mqttClients s !! c) as [h|] eqn:Hc.
    + unfold mbind, M_bind, bind, emit, modify. rewrite IH. cbn.
      by rewrite <- app_assoc.
    + cbn. rewrite IH. unfold deleteAll.
      by rewrite (delete_id (mqttClients s) c Hc).
Qed.

Lemma lookup_deleteAll l : forall (m : gmap Z handle) c,
  deleteAll l m !! c = if decide (c ∈ l) then None else m !! c.
Proof.
  induction l as [|x l IH]; intros m c; cbn [deleteAll fold_left].
  - by rewrite decide_False by apply not_elem_of_nil.
  - fold (deleteAll l (delete x m)). rewrite IH.
    destruct (decide (c ∈ l)) as [Hin|Hin].
    + rewrite decide_True; [done|]. by apply elem_of_cons; right.
    + destruct (decide (c = x)) as [->|Hne].
      * rewrite decide_True; [|by apply elem_of_cons; left].
        apply lookup_delete_eq.
      * rewrite decide_False; [by apply lookup_delete_ne|].
        intros [?|?]%elem_of_cons; done.
Qed.

Lemma endsOf_ext l : forall (m1 m2 : gmap Z handle),
  (forall c, c ∈ l -> m1 !! c = m2 !! c) -> endsOf l m1 = endsOf l m2.
Proof.
  induction l as [|x l IH]; intros m1 m2 H; [done|]. cbn [endsOf].
  rewrite <- (H x) by (by apply elem_of_cons; left).
  destruct (m1 !! x).
  - f_equal. apply IH. intros c Hc.
    destruct (decide (x = c)) as [->|Hne].
    + by rewrite !lookup_delete_eq.
    + rewrite !lookup_delete_ne by done. apply H. by apply elem_of_cons; right.
  - apply IH. intros c Hc. apply H. by apply elem_of_cons; right.
Qed.

(** Every bound connection is looked up once: with a live entry it gets
    one [end], without one it gets none. *)
Lemma endsOf_NoDup l : forall (m : gmap Z handle),
  NoDup l -> endsOf l m = List.map MqttEnd (omap (fun c => m !! c) l).
Proof.
  induction l as [|x l IH]; intros m Hnd; [done|].
  apply NoDup_cons in Hnd as [Hx Hl]. cbn [endsOf omap list_omap].
  destruct (m !! x) as [h|] eqn:Hmx; [|by apply IH].
  cbn [List.map]. f_equal. rewrite <- (IH m Hl). apply endsOf_ext.
  intros c Hc. apply lookup_delete_ne. by intros ->.
Qed.

Lemma omap_get_delete {V} k k' (m : list (string * V)) :
  omap_get k' (omap_delete k m) = if String.eqb k k' then None else omap_get k' m.
Proof.
  induction m as [|[k0 v] m IH]; cbn [omap_delete List.filter omap_get fst].
  - by destruct (String.eqb k k').
  - fold (omap_delete k m).
    destruct (String.eqb_spec k k0) as [->|Hne]; cbn [negb omap_get].
    + rewrite IH. rewrite (String.eqb_sym k' k0).
      by destruct (String.eqb k0 k').
    + destruct (String.eqb_spec k' k0) as [->|Hne'].
      * destruct (String.eqb_spec k k0); done.
      * apply IH.
Qed.

Lemma handleWebSocketDisconnect_eq v info s :
  omap_get v (wsClients s) = Some info ->
  handleWebSocketDisconnect v s =
  (Returns tt,
   setWsClients (omap_delete v (wsClients s))
     (setMqttClients (deleteAll (ci_mqttConnections info) (mqttClients s))
        (setTrace (trace s ++ endsOf (ci_mqttConnections info) (mqttClients s)) s))).
Proof.
  intros Hv. unfold handleWebSocketDisconnect, bind at 1, gets. rewrite Hv.
  unfold mbind, M_bind, bind. by rewrite disconnectAll_eq.
Qed.

Lemma handleWebSocketDisconnect_absent v s :
  omap_get v (wsClients s) = None -> handleWebSocketDisconnect v s = (Returns tt, s).
Proof.
  intros Hv. unfold handleWebSocketDisconnect, bind, gets. by rewrite Hv.
Qed.

(** C3 as stated fails: in [twoViewers] the viewers [A] and [B] are both
    bound to connection 1, whose session is client 3. Closing [A] calls
    [end] on client 3 and drops the table entry, while [B] is still
    registered and still bound to connection 1. *)
Lemma shared_session_is_disconnected :
  ci_mqttConnections <$> omap_get "A" (wsClients twoViewers) = Some [1] /\
  ci_mqttConnections <$> omap_get "B" (wsClients twoViewers) = Some [1] /\
  mqttClients twoViewers !! 1 = Some 3%nat /\
  emitted (handleWebSocketDisconnect "A") twoViewers = [MqttEnd 3%nat] /\
  mqttClients (run (handleWebSocketDisconnect "A") twoViewers) !! 1 = None /\
  ci_mqttConnections <$>
    omap_get "B" (wsClients (run (handleWebSocketDisconnect "A") twoViewers)) = Some [1].
Proof. vm_compute. repeat split; reflexivity. Qed.

(** C3, amended: when a viewer session is closed, every broker session it
    was bound to is disconnected, whether or not another viewer is bound
    to it: each bound connection with an entry in the session table gets
    exactly one [end] call, in the order of the bindings, and loses its
    entry; a bound connection without an entry gets no call. The other
    entries of the table and the other viewers are left as they were. *)
Theorem viewer_close_disconnects_bound (s : Monitor) (v : string) (info : ClientInfo) :
  omap_get v (wsClients s) = Some info ->
  NoDup (ci_mqttConnections info) ->
  let s' := run (handleWebSocketDisconnect v) s in
  result (handleWebSocketDisconnect v) s = Returns tt /\
  emitted (handleWebSocketDisconnect v) s =
    List.map MqttEnd (omap (fun c => mqttClients s !! c) (ci_mqttConnections info)) /\
  (forall c, c ∈ ci_mqttConnections info -> mqttClients s' !! c = None) /\
  (forall c, c ∉ ci_mqttConnections info -> mqttClients s' !! c = mqttClients s !! c) /\
  omap_get v (wsClients s') = None /\
  (forall v', v' <> v -> omap_get v' (wsClients s') = omap_get v' (wsClients s)).
Proof.
  intros Hv Hnd s'. subst s'. unfold run, result.
  pose proof (handleWebSocketDisconnect_eq v info s Hv) as Heq.
  rewrite Heq. cbn. split; [done|]. split.
  { apply emitted_trace. unfold run. rewrite Heq. cbn. f_equal.
    by apply endsOf_NoDup. }
  split; [|split; [|split]].
  - intros c Hc. rewrite lookup_deleteAll. by rewrite decide_True.
  - intros c Hc. rewrite lookup_deleteAll. by rewrite decide_False.
  - rewrite omap_get_delete. by rewrite String.eqb_refl.
  - intros v' Hne. rewrite omap_get_delete.
    destruct (String.eqb_spec v v'); [congruence|done].
Qed.

Lemma viewer_close_disconnects_bound_witness :
  omap_get "A" (wsClients twoViewers) = Some (mkClientInfo 0%nat [1] 0 0) /\
  emitted (handleWebSocketDisconnect "A") twoViewers =
    List.map MqttEnd (omap (fun c => mqttClients twoViewers !! c) [1]) /\
  mqttClients (run (handleWebSocketDisconnect "A") twoViewers) !! 1 = None.
Proof.
  split; [reflexivity|].
  pose proof (viewer_close_disconnects_bound twoViewers "A"
                (mkClientInfo 0%nat [1] 0 0) eq_refl (NoDup_singleton 1)) as H.
  cbv zeta in H. destruct H as (_ & He & Hin & _).
  split; [exact He|]. apply Hin. apply list_elem_of_singleton. reflexivity.
Defined.

(** *** Connecting *)

(** C2 as stated fails: in [oneSession] the session table maps connection 1
    to client 1. Connecting connection 1 again has the library create
    client 2, a second transport for the same connection id, and once that
    client reports its connect the table maps connection 1 to client 2. *)
Lemma connect_again_opens_second_transport :
  mqttClients oneSession !! 1 = Some 1%nat /\
  emitted (connectMQTT noThrow conn1 (Some "A"%string) 2) oneSession =
    [MqttConnect 2%nat (fst (connectOptions conn1 2)) (snd (connectOptions conn1 2))] /\
  mqttClients (run (connectMQTT noThrow conn1 (Some "A"%string) 2;; onMqttConnect 2%nat)
                 oneSession)
    !! 1 = Some 2%nat.
Proof. vm_compute. repeat split; reflexivity. Qed.

Lemma onMqttConnect_eq h c s :
  clients s !! h = Some c ->
  let id := conn_id (mc_connection c) in
  let data := ConnectionStatus id StatusConnected in
  onMqttConnect h s =
    (fst (deliveries data (sockets s) (wssClients s)),
     setTrace (trace s ++ Broadcast data :: snd (deliveries data (sockets s) (wssClients s)))
       (setWsClients (bindViewer (mc_wsClientId c) id (wsClients s))
          (setMqttClients (<[id := h]> (mqttClients s))
             (setClients (<[h := withConnected true c]> (clients s)) s)))).
Proof.
  intros Hc id data. unfold onMqttConnect, mbind, M_bind, updateClient, bind at 1,
    bind at 1, getClient. rewrite Hc. cbn [modify].
  unfold bind at 1, getClient. cbn [clients setClients]. rewrite lookup_insert_eq.
  unfold bind at 1, modify. unfold bind at 1.
  cbn [withConnected mc_connection mc_wsClientId]. unfold bindViewer.
  destruct (nonEmpty (mc_wsClientId c)) as [v|].
  - unfold bind at 1, gets. cbn [wsClients setMqttClients setClients].
    destruct (omap_get v (wsClients s)); unfold ret; rewrite broadcast_eq; reflexivity.
  - unfold ret. rewrite broadcast_eq. reflexivity.
Qed.

Lemma connectMQTT_eq connectThrows connection w n s :
  connectThrows (fst (connectOptions connection n)) (snd (connectOptions connection n))
    = false ->
  connectMQTT connectThrows connection w n s =
    (Returns tt,
     setTrace (trace s ++ [MqttConnect (nextHandle s) (fst (connectOptions connection n))
                             (snd (connectOptions connection n))])
       (setNextHandle (S (nextHandle s))
          (setClients (<[nextHandle s := mkMqttClient connection w false JUndefined]>
                         (clients s)) s))).
Proof.
  unfold connectMQTT. destruct (connectOptions connection n) as [url options].
  cbn [fst snd]. by intros ->.
Qed.

Lemma connectMQTT_throws connectThrows connection w n s :
  connectThrows (fst (connectOptions connection n)) (snd (connectOptions connection n))
    = true ->
  connectMQTT connectThrows connection w n s = (Throws, s).
Proof.
  unfold connectMQTT. destruct (connectOptions connection n) as [url options].
  cbn [fst snd]. by intros ->.
Qed.

(** C2, amended: [connectMQTT] has no look at the session table. For every
    descriptor the library takes, also one whose connection id has a live
    session, it has the library open one new transport, on a fresh client,
    and leaves the table as it is; when that client reports its connect,
    the table entry of the connection id is set to the new client. A client
    the entry held before is replaced and not closed: no [end] is called
    and every other client object is left as it was. When [mqtt.connect]
    throws, [connectMQTT] rejects and the monitor is unchanged. *)
Theorem connectMQTT_always_opens (connectThrows : library) (s : Monitor)
    (connection : Connection) (wsClientId : option string) (now : Z) :
  let h := nextHandle s in
  let url := fst (connectOptions connection now) in
  let options := snd (connectOptions connection now) in
  let connect := connectMQTT connectThrows connection wsClientId now in
  let s1 := run connect s in
  let s2 := run (onMqttConnect h) s1 in
  (connectThrows url options = true -> connect s = (Throws, s)) /\
  (connectThrows url options = false ->
   result connect s = Returns tt /\
   emitted connect s = [MqttConnect h url options] /\
   mqttClients s1 = mqttClients s /\
   clients s1 !! h = Some (mkMqttClient connection wsClientId false JUndefined) /\
   mqttClients s2 !! conn_id connection = Some h /\
   (forall h0, h0 <> h -> clients s2 !! h0 = clients s !! h0) /\
   Forall (fun e => isEnd e = false) (emitted (onMqttConnect h) s1)).
Proof.
  intros h url options connect s1 s2. split.
  { intros Ht. by apply connectMQTT_throws. }
  intros Ht.
  pose proof (connectMQTT_eq connectThrows connection wsClientId now s Ht) as Heq.
  fold h url options connect in Heq.
  assert (Hc : clients s1 !! h =
               Some (mkMqttClient connection wsClientId false JUndefined)).
  { subst s1. unfold run. rewrite Heq. cbn. apply lookup_insert_eq. }
  pose proof (onMqttConnect_eq h _ s1 Hc) as Hon. cbv zeta in Hon.
  split; [by unfold result; rewrite Heq|]. split.
  { apply emitted_trace. unfold run. by rewrite Heq. }
  split; [by subst s1; unfold run; rewrite Heq|]. split; [done|]. split.
  { subst s2. unfold run at 1. rewrite Hon. cbn. apply lookup_insert_eq. }
  split.
  { intros h0 Hne. subst s2. unfold run at 1. rewrite Hon.
    cbn [snd clients setTrace setWsClients setMqttClients setClients].
    rewrite lookup_insert_ne by done. subst s1. unfold run. rewrite Heq.
    cbn [snd clients setTrace setNextHandle setClients].
    by rewrite lookup_insert_ne. }
  erewrite emitted_trace; [|unfold run; rewrite Hon; reflexivity].
  constructor; [done|].
  eapply Forall_impl; [apply deliveries_sends|]. by intros e [sock ->].
Qed.

(** With a library that throws for the port 99999, [connectMQTT] rejects
    for the stored connection 7 and the connect route answers 500; nothing
    is created. *)
Example connect_bad_port :
  connectMQTT portChecked
    (mkConnection 7 "far" "localhost" 99999 None None None None JUndefined) None 0
    badPortStored = (Throws, badPortStored) /\
  connectRoute portChecked (JNum 7) JUndefined 0 badPortStored =
    (Returns ServerError, badPortStored).
Proof. vm_compute. split; reflexivity. Qed.

(** *** The pause route *)

(** C10: a pause request for a connection id without an entry in the
    session table is answered at once with status 404 and the error
    [Connection not found], and the monitor, with the pause flag of every
    broker session in it, is left as it was. *)
Theorem pause_unknown_session (s : Monitor) (connectionId paused : jsval) :
  sessionOf s connectionId = None ->
  pauseMonitoring connectionId paused s =
    (Returns (mkResponse 404 (BodyError "Connection not found")), s) /\
  (forall h, mc_pauseMonitoring <$>
               clients (run (pauseMonitoring connectionId paused) s) !! h =
             mc_pauseMonitoring <$> clients s !! h).
Proof.
  intros Hs.
  assert (Heq : pauseMonitoring connectionId paused s =
                (Returns (mkResponse 404 (BodyError "Connection not found")), s)).
  { unfold pauseMonitoring, bind, gets. by rewrite Hs. }
  split; [done|]. intros h. unfold run. by rewrite Heq.
Qed.

Lemma pause_unknown_session_witness :
  sessionOf oneSession (JNum 2) = None /\
  pauseMonitoring (JNum 2) (JBool true) oneSession =
    (Returns (mkResponse 404 (BodyError "Connection not found")), oneSession).
Proof.
  split; [reflexivity|].
  apply (pause_unknown_session oneSession (JNum 2) (JBool true)). reflexivity.
Defined.

Lemma pauseMonitoring_known s connectionId paused h c :
  sessionOf s connectionId = Some h -> clients s !! h = Some c ->
  pauseMonitoring connectionId paused s =
    (Returns (mkResponse 200
                (BodySuccess (if truthy paused then "Message monitoring paused"
                              else "Message monitoring resumed"))),
     setClients (<[h := withPauseMonitoring paused c]> (clients s)) s).
Proof.
  intros Hs Hc. unfold pauseMonitoring, bind at 1, gets. rewrite Hs.
  unfold mbind, M_bind, updateClient, bind, getClient. by rewrite Hc.
Qed.

(** *** Close of a broker session *)

Lemma onMqttClose_eq h c s :
  clients s !! h = Some c ->
  let id := conn_id (mc_connection c) in
  let data := ConnectionStatus id StatusDisconnected in
  onMqttClose h s =
    (fst (deliveries data (sockets s) (wssClients s)),
     setTrace (trace s ++ Broadcast data :: snd (deliveries data (sockets s) (wssClients s)))
       (setWsClients
          (List.map (fun e =>
             (fst e, withMqttConnections
                       (oset_delete id (ci_mqttConnections (snd e))) (snd e)))
             (wsClients s))
          (setMqttClients (delete id (mqttClients s))
             (setClients (<[h := withConnected false c]> (clients s)) s)))).
Proof.
  intros Hc id data. unfold onMqttClose, mbind, M_bind, updateClient, bind at 1,
    bind at 1, getClient. rewrite Hc. cbn [modify].
  unfold bind at 1, getClient. cbn [clients setClients]. rewrite lookup_insert_eq.
  unfold bind at 1, modify. unfold bind at 1.
  cbn [withConnected mc_connection]. by rewrite broadcast_eq.
Qed.

(** C8: when the transport of a broker session reports close, the entry of
    its connection id is gone from the session table (the other entries are
    kept), the status [disconnected] of that connection id is handed to
    [broadcast], which sends it to viewer channels and, when no open channel
    refuses data, to every open one, and the stored topic records of the
    configuration store are exactly what they were. *)
Theorem broker_close_keeps_subscriptions (s : Monitor) (h : handle) (c : MqttClient) :
  clients s !! h = Some c ->
  let id := conn_id (mc_connection c) in
  let data := ConnectionStatus id StatusDisconnected in
  let s' := run (onMqttClose h) s in
  mqttClients s' !! id = None /\
  (forall k, k <> id -> mqttClients s' !! k = mqttClients s !! k) /\
  (exists sends, emitted (onMqttClose h) s = Broadcast data :: sends /\
                 Forall (fun e => exists sock, e = WsSend sock data) sends) /\
  (allAccept (sockets s) (wssClients s) ->
   result (onMqttClose h) s = Returns tt /\
   emitted (onMqttClose h) s =
     Broadcast data ::
       List.map (fun sock => WsSend sock data) (openSockets (sockets s) (wssClients s))) /\
  db s' = db s.
Proof.
  intros Hc id data s'. pose proof (onMqttClose_eq h c s Hc) as Heq.
  cbv zeta in Heq. fold id in Heq. fold data in Heq.
  subst s'. unfold run, result. rewrite Heq. cbn.
  split; [apply lookup_delete_eq|]. split; [by intros k Hk; apply lookup_delete_ne|].
  split; [|split; [|done]].
  - eexists. split; [|apply deliveries_sends].
    apply emitted_trace. unfold run. by rewrite Heq.
  - intros Hacc. rewrite (deliveries_allAccept data _ _ Hacc). split; [done|].
    apply emitted_trace. unfold run. rewrite Heq. cbn.
    by rewrite (deliveries_allAccept data _ _ Hacc).
Qed.

Lemma broker_close_keeps_subscriptions_witness :
  clients monitored !! 1%nat =
    Some (mkMqttClient conn1 (Some "A"%string) true JUndefined) /\
  mqttClients (run (onMqttClose 1%nat) monitored) !! 1 = None /\
  db_topics (db (run (onMqttClose 1%nat) monitored)) =
    [mkTopic 1 1 (str "sensors/#") 0 true].
Proof.
  split; [reflexivity|].
  pose proof (broker_close_keeps_subscriptions monitored 1%nat
                (mkMqttClient conn1 (Some "A"%string) true JUndefined) eq_refl) as H.
  cbv zeta in H. destruct H as (Ht & _ & _ & _ & Hdb).
  split; [exact Ht|]. rewrite Hdb. reflexivity.
Defined.

(** *** Fan-out to viewer channels *)




(** The heartbeat wraps its send in [try]: in [firstRefuses], where the
    open channel 0 refuses data, it goes on to channel 1. *)
Lemma heartbeat_passes_refusing_channel :
  result (heartbeatTick 9) firstRefuses = Returns tt /\
  emitted (heartbeatTick 9) firstRefuses = [WsSend 1%nat (Ping 9)].
Proof. vm_compute. split; reflexivity. Qed.

(** *** Pausing *)

















(** The scenario of the specification: with the subscription [sensors/#]
    on connection 1, a message on [sensors/room1/temp] is handed to
    [broadcast] and sent once to the open viewer channel, tagged with the
    connection id. *)
Example scenario_sensors :
  emitted (onMqttMessage (fun _ _ => None) 1%nat (str "sensors/room1/temp") (str "21")
             0 false 5) monitored =
    [Broadcast (MessageEvent reading); WsSend 0%nat (MessageEvent reading)].
Proof. vm_compute. reflexivity. Qed.

(** A pattern outside the modelled fragment: with the active subscription
    [a{b/#], for which the runtime answers false on the topic, the message
    is forwarded all the same. *)
Example brace_pattern_is_forwarded :
  topicMatches (str "sensors/room1/temp") (str "a{b/#") = Unmodelled /\
  emitted (onMqttMessage (fun _ _ => Some false) 1%nat (str "sensors/room1/temp")
             (str "21") 0 false 5) bracePattern =
    [Broadcast (MessageEvent reading); WsSend 0%nat (MessageEvent reading)].
Proof. vm_compute. split; reflexivity. Qed.

(** *** Heartbeat *)

Lemma omap_get_app_notin {V} k (pre m : list (string * V)) :
  k ∉ fst <$> pre -> omap_get k (pre ++ m) = omap_get k m.
Proof.
  induction pre as [|[k0 v] pre IH]; [done|]. cbn [fmap list_fmap fst app omap_get].
  intros Hk. apply not_elem_of_cons in Hk as [Hne Hk].
  destruct (String.eqb_spec k k0); [done|]. by apply IH.
Qed.

Lemma omap_delete_notin {V} k (m : list (string * V)) :
  k ∉ fst <$> m -> omap_delete k m = m.
Proof.
  induction m as [|[k0 v] m IH]; [done|].
  cbn [fmap list_fmap fst omap_delete List.filter].
  intros Hk. apply not_elem_of_cons in Hk as [Hne Hk].
  destruct (String.eqb_spec k k0); [done|]. cbn [negb]. f_equal. by apply IH.
Qed.

Lemma omap_delete_middle {V} k v (pre m : list (string * V)) :
  NoDup (fst <$> pre ++ (k, v) :: m) -> omap_delete k (pre ++ (k, v) :: m) = pre ++ m.
Proof.
  rewrite fmap_app. cbn [fmap list_fmap fst]. intros Hnd.
  apply NoDup_app in Hnd as (Hpre & Hdisj & Hm).
  apply NoDup_cons in Hm as [Hk Hm].
  unfold omap_delete. rewrite List.filter_app. cbn [List.filter fst].
  rewrite String.eqb_refl. cbn [negb].
  fold (omap_delete k pre). fold (omap_delete k m).
  rewrite (omap_delete_notin k m Hk), (omap_delete_notin k pre); [done|].
  intros Hin. apply (Hdisj k Hin). by apply elem_of_cons; left.
Qed.

Lemma heartbeat_loop now (s : Monitor) (l : list (string * ClientInfo)) :
  forall pre s0,
  sockets s0 = sockets s ->
  wsClients s0 = pre ++ l ->
  NoDup (fst <$> pre ++ l) ->
  Forall (fun e => is_Some (sockets s !! ci_ws (snd e))) l ->
  exists s1,
    forEach (fun e => heartbeatVisit now (fst e)) l s0 = (Returns tt, s1) /\
    wsClients s1 = pre ++ List.filter (fun e => keptByHeartbeat s (snd e)) l /\
    sockets s1 = sockets s /\
    (forall c, mqttClients s0 !! c = None -> mqttClients s1 !! c = None) /\
    (forall e c, e ∈ l -> keptByHeartbeat s (snd e) = false ->
                 c ∈ ci_mqttConnections (snd e) -> mqttClients s1 !! c = None).
Proof.
  induction l as [|[k info] l IH]; intros pre s0 Hsk Hws Hnd Hex.
  - exists s0. cbn. repeat split; try done. intros e c He. by apply elem_of_nil in He.
  - apply Forall_cons in Hex as [[w Hw] Hex]. cbn [snd] in Hw.
    assert (Hk : k ∉ fst <$> pre).
    { rewrite fmap_app in Hnd. apply NoDup_app in Hnd as (_ & Hdisj & _).
      intros Hin. apply (Hdisj k Hin). cbn. by apply elem_of_cons; left. }
    assert (Hget : omap_get k (wsClients s0) = Some info).
    { rewrite Hws, (omap_get_app_notin k pre _ Hk). cbn. by rewrite String.eqb_refl. }
    assert (Hdead : keptByHeartbeat s info = false ->
              exists s1,
                forEach (fun e => heartbeatVisit now (fst e)) l
                  (run (handleWebSocketDisconnect k) s0) = (Returns tt, s1) /\
                handleWebSocketDisconnect k s0 =
                  (Returns tt, run (handleWebSocketDisconnect k) s0) /\
                wsClients s1 =
                  pre ++ List.filter (fun e => keptByHeartbeat s (snd e)) ((k, info) :: l) /\
                sockets s1 = sockets s /\
                (forall c, mqttClients s0 !! c = None -> mqttClients s1 !! c = None) /\
                (forall e c, e ∈ (k, info) :: l -> keptByHeartbeat s (snd e) = false ->
                   c ∈ ci_mqttConnections (snd e) -> mqttClients s1 !! c = None)).
    { intros Hkept. pose proof (handleWebSocketDisconnect_eq k info s0 Hget) as Heq.
      unfold run. rewrite Heq. cbn [snd].
      match goal with |- context [forEach _ l ?sx] => set (s0' := sx) end.
      destruct (IH pre s0') as (s1 & Hrun & Hw1 & Hs1 & Hmono & Hcasc).
      - done.
      - subst s0'. cbn. rewrite Hws. by apply omap_delete_middle.
      - rewrite fmap_app in Hnd |- *. cbn [fmap list_fmap] in Hnd.
        apply NoDup_app in Hnd as (Hpre & Hdisj & Hm).
        apply NoDup_cons in Hm as [_ Hm]. apply NoDup_app. repeat split; try done.
        intros x Hx Hx'. apply (Hdisj x Hx). by apply elem_of_cons; right.
      - done.
      - exists s1. split; [done|]. split; [done|].
        split; [cbn [List.filter snd]; by rewrite Hkept|]. split; [done|]. split.
        + intros c Hc. apply Hmono. subst s0'. cbn. rewrite lookup_deleteAll.
          by destruct (decide _).
        + intros e c [->|He]%elem_of_cons Hke Hc; [|by apply (Hcasc e c)].
          apply Hmono. subst s0'. cbn in Hc |- *. rewrite lookup_deleteAll.
          by rewrite decide_True. }
    cbn [forEach]. unfold mbind, M_bind, bind at 1. cbn [fst].
    unfold heartbeatVisit at 1, bind at 1, gets. rewrite Hget.
    unfold bind at 1, getSocket. rewrite Hsk, Hw.
    assert (Hkept : keptByHeartbeat s info =
                    isOpen (ws_readyState w) && negb (ws_sendThrows w)).
    { unfold keptByHeartbeat. by rewrite Hw. }
    destruct (isOpen (ws_readyState w)) eqn:Hopen.
    + unfold tryCatch, wsSend, bind at 1, getSocket. rewrite Hsk, Hw.
      destruct (ws_sendThrows w) eqn:Hthrows.
      * cbn in Hkept. destruct (Hdead Hkept) as (s1 & Hrun & Hh & Hrest).
        unfold throw. rewrite Hh. exists s1. by split.
      * cbn in Hkept. unfold emit, modify.
        match goal with |- context [forEach _ l ?sx] => set (s0' := sx) end.
        destruct (IH (pre ++ [(k, info)]) s0') as (s1 & Hrun & Hw1 & Hs1 & Hmono & Hcasc).
        -- done.
        -- subst s0'. cbn. rewrite Hws. by rewrite <- app_assoc.
        -- by rewrite <- app_assoc.
        -- done.
        -- exists s1. split; [done|]. split.
           { cbn [List.filter snd]. rewrite Hkept, Hw1. by rewrite <- app_assoc. }
           split; [done|]. split; [by apply Hmono|].
           intros e c [->|He]%elem_of_cons Hke Hc; [|by apply (Hcasc e c)].
           cbn in Hke. congruence.
    + cbn in Hkept. destruct (Hdead Hkept) as (s1 & Hrun & Hh & Hrest).
      rewrite Hh. exists s1. by split.
Qed.

(** C1 as stated fails: [silentViewer] is a viewer that opened its channel
    at time 0 and has been probed at the ticks 30000 and 60000 without ever
    answering. Its last recorded pong, 0, is before the previous tick, and
    it is still registered after the second tick. *)
Lemma silent_viewer_stays_registered :
  trace silentViewer =
    [WsSend 0%nat (ConnectionEstablished "A"); WsSend 0%nat (Ping 30000);
     WsSend 0%nat (Ping 60000)] /\
  omap_get "A" (wsClients silentViewer) = Some (mkClientInfo 0%nat [] 0 0) /\
  (ci_lastPong (mkClientInfo 0%nat [] 0 0) <? 30000) = true.
Proof. vm_compute. repeat split; reflexivity. Qed.

Lemma endsOf_app l1 : forall l2 (m : gmap Z handle),
  endsOf (l1 ++ l2) m = endsOf l1 m ++ endsOf l2 (deleteAll l1 m).
Proof.
  induction l1 as [|c l1 IH]; intros l2 m; [done|]. cbn [app endsOf deleteAll fold_left].
  destruct (m !! c) as [h|] eqn:Hc.
  - cbn [app]. f_equal. apply IH.
  - rewrite IH. do 2 f_equal. unfold deleteAll. f_equal.
    symmetry. by apply delete_id.
Qed.

Lemma deleteAll_app l1 l2 (m : gmap Z handle) :
  deleteAll (l1 ++ l2) m = deleteAll l2 (deleteAll l1 m).
Proof. unfold deleteAll. apply fold_left_app. Qed.

Lemma endsOf_all_ends l : forall m : gmap Z handle,
  List.filter isEnd (endsOf l m) = endsOf l m.
Proof.
  induction l as [|c l IH]; intros m; [done|]. cbn [endsOf].
  destruct (m !! c); [cbn; f_equal; apply IH|apply IH].
Qed.

Lemma endsOf_elem l : forall (m : gmap Z handle) c h,
  c ∈ l -> m !! c = Some h -> MqttEnd h ∈ endsOf l m.
Proof.
  induction l as [|k l IH]; intros m c h Hin Hc; [by apply elem_of_nil in Hin|].
  cbn [endsOf]. destruct (decide (k = c)) as [->|Hne].
  - rewrite Hc. by apply elem_of_cons; left.
  - apply elem_of_cons in Hin as [->|Hin]; [done|].
    destruct (m !! k) as [hk|].
    + apply elem_of_cons; right. apply (IH _ c); [done|]. by rewrite lookup_delete_ne.
    + by apply (IH _ c).
Qed.

(** One visit of the heartbeat to a registered viewer whose socket exists. *)
Lemma heartbeatVisit_eq now k info w s0 :
  omap_get k (wsClients s0) = Some info ->
  sockets s0 !! ci_ws info = Some w ->
  heartbeatVisit now k s0 =
    (Returns tt,
     if isOpen (ws_readyState w) && negb (ws_sendThrows w)
     then setTrace (trace s0 ++ [WsSend (ci_ws info) (Ping now)]) s0
     else run (handleWebSocketDisconnect k) s0).
Proof.
  intros Hget Hw.
  assert (Hh : handleWebSocketDisconnect k s0 =
               (Returns tt, run (handleWebSocketDisconnect k) s0)).
  { unfold run. by rewrite (handleWebSocketDisconnect_eq k info s0 Hget). }
  unfold heartbeatVisit, bind at 1, gets. rewrite Hget.
  unfold bind at 1, getSocket. rewrite Hw.
  destruct (isOpen (ws_readyState w)); [|done].
  unfold tryCatch, wsSend, bind at 1, getSocket. rewrite Hw.
  destruct (ws_sendThrows w); [|done]. unfold throw. exact Hh.
Qed.

(** The [end] calls of a tick and the session table after it. *)
Lemma heartbeat_loop_ends now (s : Monitor) (l : list (string * ClientInfo)) :
  forall pre s0,
  sockets s0 = sockets s ->
  wsClients s0 = pre ++ l ->
  NoDup (fst <$> pre ++ l) ->
  Forall (fun e => is_Some (sockets s !! ci_ws (snd e))) l ->
  let dead := List.filter (fun e => negb (keptByHeartbeat s (snd e))) l in
  let s1 := snd (forEach (fun e => heartbeatVisit now (fst e)) l s0) in
  exists es,
    trace s1 = trace s0 ++ es /\
    List.filter isEnd es = endsOf (bindingsOf dead) (mqttClients s0) /\
    mqttClients s1 = deleteAll (bindingsOf dead) (mqttClients s0).
Proof.
  induction l as [|[k info] l IH]; intros pre s0 Hsk Hws Hnd Hex; cbv zeta.
  - exists []. cbn. by rewrite app_nil_r.
  - apply Forall_cons in Hex as [[w Hw] Hex]. cbn [snd] in Hw.
    assert (Hk : k ∉ fst <$> pre).
    { rewrite fmap_app in Hnd. apply NoDup_app in Hnd as (_ & Hdisj & _).
      intros Hin. apply (Hdisj k Hin). cbn. by apply elem_of_cons; left. }
    assert (Hget : omap_get k (wsClients s0) = Some info).
    { rewrite Hws, (omap_get_app_notin k pre _ Hk). cbn. by rewrite String.eqb_refl. }
    assert (Hkept : keptByHeartbeat s info =
                    isOpen (ws_readyState w) && negb (ws_sendThrows w)).
    { unfold keptByHeartbeat. by rewrite Hw. }
    assert (Hstep : forEach (fun e => heartbeatVisit now (fst e)) ((k, info) :: l) s0 =
                    forEach (fun e => heartbeatVisit now (fst e)) l
                      (if keptByHeartbeat s info
                       then setTrace (trace s0 ++ [WsSend (ci_ws info) (Ping now)]) s0
                       else run (handleWebSocketDisconnect k) s0)).
    { cbn [forEach]. unfold mbind, M_bind, bind at 1. cbn [fst].
      rewrite (heartbeatVisit_eq now k info w s0 Hget) by (by rewrite Hsk).
      by rewrite Hkept. }
    rewrite Hstep. cbn [List.filter snd].
    destruct (keptByHeartbeat s info) eqn:Hkeep; cbn [negb].
    + match goal with |- context [forEach _ l ?sx] => set (s0' := sx) end.
      destruct (IH (pre ++ [(k, info)]) s0') as (es & Htr & Hes & Hm).
      * done.
      * subst s0'. cbn. rewrite Hws. by rewrite <- app_assoc.
      * by rewrite <- app_assoc.
      * done.
      * exists (WsSend (ci_ws info) (Ping now) :: es). cbn [List.filter isEnd].
        split; [|split].
        -- rewrite Htr. subst s0'. cbn. by rewrite <- app_assoc.
        -- by rewrite Hes.
        -- by rewrite Hm.
    + unfold run. rewrite (handleWebSocketDisconnect_eq k info s0 Hget). cbn [snd].
      match goal with |- context [forEach _ l ?sx] => set (s0' := sx) end.
      destruct (IH pre s0') as (es & Htr & Hes & Hm).
      * done.
      * subst s0'. cbn. rewrite Hws. by apply omap_delete_middle.
      * rewrite fmap_app in Hnd |- *. cbn [fmap list_fmap] in Hnd.
        apply NoDup_app in Hnd as (Hpre & Hdisj & Hm).
        apply NoDup_cons in Hm as [_ Hm]. apply NoDup_app. repeat split; try done.
        intros x Hx Hx'. apply (Hdisj x Hx). by apply elem_of_cons; right.
      * done.
      * exists (endsOf (ci_mqttConnections info) (mqttClients s0) ++ es).
        unfold bindingsOf. cbn [List.flat_map snd].
        fold (bindingsOf (List.filter (fun e => negb (keptByHeartbeat s (snd e))) l)).
        split; [|split].
        -- rewrite Htr. subst s0'. cbn. by rewrite <- app_assoc.
        -- rewrite List.filter_app, endsOf_all_ends, Hes, endsOf_app. by subst s0'.
        -- rewrite Hm, deleteAll_app. by subst s0'.
Qed.

(** C1, amended: on every heartbeat tick, each registered viewer whose
    channel is not open, or whose channel refuses the probe, is treated as
    dead: it is removed from the registry and its cleanup is run, which
    calls [end] once on the session of every connection it was bound to
    that has an entry in the session table and deletes that entry; no other
    entry is deleted and no other [end] is called. Every other viewer stays
    registered with its bindings, whatever its last recorded pong is. *)
Theorem heartbeat_closes_dead_channels (s : Monitor) (now : Z) :
  registryOk s ->
  let s' := run (heartbeatTick now) s in
  let dead := List.filter (fun e => negb (keptByHeartbeat s (snd e))) (wsClients s) in
  result (heartbeatTick now) s = Returns tt /\
  wsClients s' = List.filter (fun e => keptByHeartbeat s (snd e)) (wsClients s) /\
  (forall e c, e ∈ wsClients s -> keptByHeartbeat s (snd e) = false ->
               c ∈ ci_mqttConnections (snd e) -> mqttClients s' !! c = None) /\
  List.filter isEnd (emitted (heartbeatTick now) s) =
    endsOf (bindingsOf dead) (mqttClients s) /\
  mqttClients s' = deleteAll (bindingsOf dead) (mqttClients s) /\
  (forall e c h, e ∈ wsClients s -> keptByHeartbeat s (snd e) = false ->
                 c ∈ ci_mqttConnections (snd e) -> mqttClients s !! c = Some h ->
                 MqttEnd h ∈ emitted (heartbeatTick now) s).
Proof.
  intros [Hnd Hex] s' dead.
  destruct (heartbeat_loop now s (wsClients s) [] s eq_refl eq_refl Hnd Hex)
    as (s1 & Hrun & Hw & _ & _ & Hcasc).
  destruct (heartbeat_loop_ends now s (wsClients s) [] s eq_refl eq_refl Hnd Hex)
    as (es & Htr & Hes & Hm).
  fold dead in Hes, Hm.
  assert (Heq : heartbeatTick now s = (Returns tt, s1)).
  { unfold heartbeatTick, bind, gets. exact Hrun. }
  assert (Hem : emitted (heartbeatTick now) s = es).
  { apply emitted_trace. unfold run, heartbeatTick, bind, gets. exact Htr. }
  rewrite Hem.
  split; [by unfold result; rewrite Heq|].
  split; [by subst s'; unfold run; rewrite Heq|].
  split; [subst s'; unfold run; rewrite Heq; exact Hcasc|].
  split; [done|].
  split; [subst s'; unfold run, heartbeatTick, bind, gets; exact Hm|].
  intros e c h He Hk Hc Hh.
  assert (Hin : MqttEnd h ∈ List.filter isEnd es).
  { rewrite Hes. apply (endsOf_elem _ _ c); [|done].
    apply list_elem_of_In, List.in_flat_map. exists e. split.
    - apply List.filter_In. split; [by apply list_elem_of_In|]. by rewrite Hk.
    - by apply list_elem_of_In. }
  apply list_elem_of_In, List.filter_In in Hin as [Hin _]. by apply list_elem_of_In.
Qed.

Lemma registryOk_firstRefuses : registryOk firstRefuses.
Proof.
  split.
  - vm_compute. apply NoDup_cons. split.
    + intros H. apply list_elem_of_singleton in H. discriminate H.
    + apply NoDup_singleton.
  - vm_compute. repeat constructor; eexists; reflexivity.
Defined.

Lemma registryOk_closingViewer : registryOk closingViewer.
Proof.
  split.
  - vm_compute. apply NoDup_singleton.
  - vm_compute. repeat constructor; eexists; reflexivity.
Defined.

Lemma heartbeat_closes_dead_channels_witness :
  registryOk closingViewer /\
  bound closingViewer "A" 1 /\ mqttClients closingViewer !! 1 = Some 1%nat /\
  wsClients (run (heartbeatTick 9) closingViewer) = [] /\
  emitted (heartbeatTick 9) closingViewer = [MqttEnd 1%nat] /\
  mqttClients (run (heartbeatTick 9) closingViewer) !! 1 = None.
Proof.
  split; [exact registryOk_closingViewer|].
  split; [eexists; split; [reflexivity|]; apply list_elem_of_singleton; reflexivity|].
  split; [reflexivity|].
  pose proof (heartbeat_closes_dead_channels closingViewer 9 registryOk_closingViewer) as H.
  cbv zeta in H. destruct H as (_ & Hw & _ & He & Hm & _).
  split; [exact Hw|]. split; [|by rewrite Hm].
  vm_compute in He. vm_compute. exact He.
Defined.

(** *** Further runs *)

(** The reply to a probe is recorded and changes nothing for the next tick:
    the viewer that answered and the viewer that did not are both kept. *)
Example pong_recorded_not_read :
  ci_lastPong <$>
    omap_get "A" (wsClients (run (onWsMessage 0%nat ReqPong 45000) silentViewer)) =
    Some 45000 /\
  fst <$> wsClients (run (onWsMessage 0%nat ReqPong 45000;; heartbeatTick 90000) silentViewer) =
    fst <$> wsClients (run (heartbeatTick 90000) silentViewer).
Proof. vm_compute. split; reflexivity. Qed.

(** The close of the channel of viewer [A] is what calls the cleanup. *)
Example channel_close_cleans_up :
  emitted (onWsClose 0%nat) twoViewers = [MqttEnd 3%nat] /\
  fst <$> wsClients (run (onWsClose 0%nat) twoViewers) = ["B"%string].
Proof. vm_compute. split; reflexivity. Qed.

(** After a reconnect the stored subscriptions are subscribed again. *)
Example resubscribe_after_reconnect :
  emitted (onMqttClose 1%nat;; onMqttConnect 1%nat;; subscribeToTopics 1) monitored =
    [Broadcast (ConnectionStatus 1 StatusDisconnected);
     WsSend 0%nat (ConnectionStatus 1 StatusDisconnected);
     Broadcast (ConnectionStatus 1 StatusConnected);
     WsSend 0%nat (ConnectionStatus 1 StatusConnected);
     MqttSubscribe 1%nat (str "sensors/#") 0].
Proof. vm_compute. reflexivity. Qed.

(** *** More on fan-out *)

Lemma deliveries_refused data sk pre c w post :
  allAccept sk pre ->
  sk !! c = Some w -> isOpen (ws_readyState w) = true -> ws_sendThrows w = true ->
  deliveries data sk (pre ++ c :: post) =
    (Throws, List.map (fun k => WsSend k data) (openSockets sk pre)).
Proof.
  intros Hpre Hw Ho Ht. induction Hpre as [|k pre (wk & Hk & Hacc) _ IH].
  - cbn [app deliveries]. by rewrite Hw, Ho, Ht.
  - cbn [app deliveries openSockets List.filter]. rewrite Hk.
    fold (openSockets sk pre). destruct (isOpen (ws_readyState wk)).
    + rewrite Hacc by done. by rewrite IH.
    + apply IH.
Qed.

(** X5: a broadcast ends at the first open socket that refuses data. When
    the sockets of [wss.clients] before socket [c] accept data and [c] is
    open and its [send] throws, [broadcast] throws; the open sockets before
    [c] have been sent the message, in order, and no socket after [c] is
    sent anything, open or not. *)
Theorem broadcast_ends_at_first_refusal (data : wsMessage) (s : Monitor)
    (pre post : list handle) (c : handle) (w : WebSocket) :
  wssClients s = pre ++ c :: post ->
  allAccept (sockets s) pre ->
  sockets s !! c = Some w -> ws_readyState w = OPEN -> ws_sendThrows w = true ->
  result (broadcast data) s = Throws /\
  emitted (broadcast data) s =
    Broadcast data :: List.map (fun k => WsSend k data) (openSockets (sockets s) pre).
Proof.
  intros Hcs Hpre Hw Ho Ht.
  assert (Hd : deliveries data (sockets s) (wssClients s) =
               (Throws, List.map (fun k => WsSend k data) (openSockets (sockets s) pre))).
  { rewrite Hcs. apply (deliveries_refused data _ pre c w post Hpre Hw); [|done].
    by rewrite Ho. }
  unfold result. rewrite broadcast_eq, Hd. split; [done|].
  apply emitted_trace. unfold run. by rewrite broadcast_eq, Hd.
Qed.

Lemma broadcast_ends_at_first_refusal_witness :
  result (broadcast (Ping 7)) firstRefuses = Throws /\
  emitted (broadcast (Ping 7)) firstRefuses = [Broadcast (Ping 7)].
Proof.
  apply (broadcast_ends_at_first_refusal (Ping 7) firstRefuses [] [1%nat] 0%nat
           (mkWebSocket OPEN true "A"%string)).
  - reflexivity.
  - constructor.
  - reflexivity.
  - reflexivity.
  - reflexivity.
Defined.

Lemma deliveries_sentToOpen data s cs :
  (forall c, c ∈ cs -> c ∈ wssClients s) ->
  Forall (sentToOpen s data) (snd (deliveries data (sockets s) cs)).
Proof.
  induction cs as [|c cs IH]; intros Hin; [constructor|]. cbn [deliveries].
  assert (Hcs : forall c', c' ∈ cs -> c' ∈ wssClients s).
  { intros c' Hc'. apply Hin. by apply elem_of_cons; right. }
  destruct (sockets s !! c) as [w|] eqn:Hw; [|constructor].
  destruct (isOpen (ws_readyState w)) eqn:Ho; [|by apply IH].
  destruct (ws_sendThrows w) eqn:Ht; [constructor|]. cbn. constructor; [|by apply IH].
  exists c, w. repeat split; try done.
  - apply Hin. by apply elem_of_cons; left.
  - by destruct (ws_readyState w).
Qed.

(** X6: [broadcast] changes nothing of the monitor but the trace, and what
    it sends is the message itself, to sockets of [wss.clients] that are
    open; a socket in any other state is never sent to. *)
Theorem broadcast_only_to_open (data : wsMessage) (s : Monitor) :
  exists sends,
    run (broadcast data) s = setTrace (trace s ++ Broadcast data :: sends) s /\
    Forall (sentToOpen s data) sends.
Proof.
  eexists. split.
  - unfold run. by rewrite broadcast_eq.
  - by apply deliveries_sentToOpen.
Qed.

(** *** More on broker sessions *)

(** X7: [disconnectMQTT] on a connection id without an entry in the session
    table does nothing and returns; so a second call after a first one does
    nothing: a session is ended at most once. *)
Theorem disconnectMQTT_twice (c : Z) (s : Monitor) :
  (mqttClients s !! c = None -> disconnectMQTT c s = (Returns tt, s)) /\
  disconnectMQTT c (run (disconnectMQTT c) s) = (Returns tt, run (disconnectMQTT c) s) /\
  (length (emitted (disconnectMQTT c;; disconnectMQTT c) s) <= 1)%nat.
Proof.
  assert (Hnone : forall s0, mqttClients s0 !! c = None ->
                             disconnectMQTT c s0 = (Returns tt, s0)).
  { intros s0 H0. unfold disconnectMQTT, bind, gets. by rewrite H0. }
  assert (Hrun : mqttClients (run (disconnectMQTT c) s) !! c = None).
  { unfold run, disconnectMQTT, bind at 1, gets.
    destruct (mqttClients s !! c) eqn:Hc; [|done]. cbn. apply lookup_delete_eq. }
  split; [apply Hnone|]. split; [by apply Hnone|].
  pose proof (disconnectAll_eq [c; c] s) as Heq. cbn [forEach] in Heq.
  assert (Hseq : (disconnectMQTT c;; disconnectMQTT c) s =
                 (disconnectMQTT c;; disconnectMQTT c;; ret tt) s).
  { unfold mbind, M_bind, bind.
    destruct (disconnectMQTT c s) as [[[]| |] s1]; [|done|done].
    by destruct (disconnectMQTT c s1) as [[[]| |] s2]. }
  rewrite (emitted_trace _ s (endsOf [c; c] (mqttClients s))).
  - cbn [endsOf]. destruct (mqttClients s !! c) eqn:Hc;
      rewrite ?lookup_delete_eq; cbn; lia.
  - unfold run. rewrite Hseq, Heq. done.
Qed.

Lemma oset_delete_spec x l k : k ∈ oset_delete x l <-> k ∈ l /\ k <> x.
Proof.
  unfold oset_delete. rewrite !list_elem_of_In, List.filter_In.
  rewrite negb_true_iff, Z.eqb_neq. split; intros [H1 H2]; split; congruence.
Qed.

Lemma omap_get_map {V} (f : V -> V) k (m : list (string * V)) :
  omap_get k (List.map (fun e => (fst e, f (snd e))) m) = f <$> omap_get k m.
Proof.
  induction m as [|[k0 v] m IH]; [done|]. cbn [List.map omap_get fst snd].
  by destruct (String.eqb k k0).
Qed.

(** X8: the close of a broker session unbinds its connection id from every
    viewer, and leaves all bindings to other connection ids as they were. *)
Theorem broker_close_unbinds_everywhere (s : Monitor) (h : handle) (c : MqttClient) :
  clients s !! h = Some c ->
  let id := conn_id (mc_connection c) in
  let s' := run (onMqttClose h) s in
  (forall v, ~ bound s' v id) /\
  (forall v k, k <> id -> bound s' v k <-> bound s v k).
Proof.
  intros Hc id s'. subst s'. unfold run. rewrite (onMqttClose_eq h c s Hc).
  cbn [snd]. fold id. unfold bound. cbn [wsClients setTrace setWsClients].
  pose proof (fun v => omap_get_map
    (fun i => withMqttConnections (oset_delete id (ci_mqttConnections i)) i)
    v (wsClients s)) as Hmap. cbn beta in Hmap.
  split.
  - intros v (info & Hget & Hin). rewrite Hmap in Hget.
    destruct (omap_get v (wsClients s)) as [i|]; [|done]. injection Hget as <-.
    cbn in Hin. apply oset_delete_spec in Hin. by destruct Hin.
  - intros v k Hk. rewrite Hmap. split.
    + intros (info & Hget & Hin). destruct (omap_get v (wsClients s)) as [i|]; [|done].
      injection Hget as <-. cbn in Hin. apply oset_delete_spec in Hin.
      exists i. by destruct Hin.
    + intros (info & Hget & Hin). rewrite Hget. eexists. split; [done|].
      cbn. apply oset_delete_spec. done.
Qed.

Lemma broker_close_unbinds_everywhere_witness :
  bound twoViewers "A" 1 /\ bound twoViewers "B" 1 /\
  (forall v, ~ bound (run (onMqttClose 3%nat) twoViewers) v 1).
Proof.
  split; [|split].
  - eexists. split; [reflexivity|]. apply list_elem_of_singleton. reflexivity.
  - eexists. split; [reflexivity|]. apply list_elem_of_singleton. reflexivity.
  - apply (broker_close_unbinds_everywhere twoViewers 3%nat
             (mkMqttClient conn1 (Some "B"%string) true JUndefined) eq_refl).
Defined.

Lemma omap_get_set_eq {V} k (x : V) (m : list (string * V)) :
  omap_get k (omap_set k x m) = Some x.
Proof.
  induction m as [|[k0 v] m IH]; cbn [omap_set omap_get].
  - by rewrite String.eqb_refl.
  - destruct (String.eqb k k0) eqn:Hk; cbn [omap_get]; [by rewrite String.eqb_refl|].
    by rewrite Hk.
Qed.

Lemma oset_has_spec x l : oset_has x l = true <-> x ∈ l.
Proof.
  unfold oset_has. rewrite existsb_exists, list_elem_of_In. split.
  - by intros (y & Hy & ->%Z.eqb_eq).
  - intros H. exists x. by rewrite Z.eqb_refl.
Qed.

Lemma oset_add_spec x l k : k ∈ oset_add x l <-> k ∈ l \/ k = x.
Proof.
  unfold oset_add. destruct (oset_has x l) eqn:Hx.
  - apply oset_has_spec in Hx. split; [by left|]. by intros [?| ->].
  - rewrite elem_of_app, list_elem_of_singleton. done.
Qed.

(** X10: the pause flag lives on the client object. While the transport is
    closed the session has no table entry, so a pause request is answered
    404 and changes nothing; after the reconnect the session is in the
    table again with the flag it had before the close. *)
Theorem pause_flag_survives_reconnect (s : Monitor) (h : handle) (c : MqttClient)
    (paused : jsval) :
  clients s !! h = Some c ->
  let id := conn_id (mc_connection c) in
  let closed := run (onMqttClose h) s in
  let back := run (onMqttConnect h) closed in
  pauseMonitoring (JNum id) paused closed =
    (Returns (mkResponse 404 (BodyError "Connection not found")), closed) /\
  mqttClients back !! id = Some h /\
  mc_pauseMonitoring <$> clients back !! h = Some (mc_pauseMonitoring c).
Proof.
  intros Hc id closed back.
  assert (Hcl : clients closed !! h = Some (withConnected false c)).
  { subst closed. unfold run. rewrite (onMqttClose_eq h c s Hc). cbn.
    apply lookup_insert_eq. }
  split; [|split].
  - unfold pauseMonitoring, bind, gets, sessionOf. subst closed. unfold run.
    rewrite (onMqttClose_eq h c s Hc). cbn [snd mqttClients setTrace setWsClients
      setMqttClients]. fold id. by rewrite lookup_delete_eq.
  - subst back. unfold run at 1. rewrite (onMqttConnect_eq h _ closed Hcl). cbn.
    apply lookup_insert_eq.
  - subst back. unfold run at 1. rewrite (onMqttConnect_eq h _ closed Hcl). cbn.
    by rewrite lookup_insert_eq.
Qed.

Lemma pause_flag_survives_reconnect_witness :
  clients pausedSession !! 1%nat =
    Some (mkMqttClient conn1 (Some "A"%string) true (JBool true)) /\
  mc_pauseMonitoring <$>
    clients (run (onMqttConnect 1%nat) (run (onMqttClose 1%nat) pausedSession)) !! 1%nat =
    Some (JBool true).
Proof.
  split; [reflexivity|].
  apply (pause_flag_survives_reconnect pausedSession 1%nat
           (mkMqttClient conn1 (Some "A"%string) true (JBool true)) (JBool false) eq_refl).
Defined.

Lemma forEach_emit {A} (f : A -> effect) l : forall s,
  forEach (fun x => emit (f x)) l s = (Returns tt, setTrace (trace s ++ List.map f l) s).
Proof.
  induction l as [|x l IH]; intros s.
  - cbn. by rewrite setTrace_nil.
  - cbn [forEach List.map]. unfold mbind, M_bind, bind, emit at 1, modify.
    rewrite IH. cbn. by rewrite <- app_assoc.
Qed.

(** X11: [subscribeToTopics] never throws. It subscribes nothing when the
    store rejects the lookup, when the connection has no session in the
    table, or when the client is not connected; otherwise it subscribes
    exactly the stored topics of that connection that are active, each once
    with its own quality level, in the order of the store; an inactive
    topic is never subscribed. *)
Theorem subscribeToTopics_active_only (s : Monitor) (connectionId : Z) :
  (db_failing (db s) = true -> subscribeToTopics connectionId s = (Returns tt, s)) /\
  (mqttClients s !! connectionId = None ->
   subscribeToTopics connectionId s = (Returns tt, s)) /\
  (forall h c,
     db_failing (db s) = false -> mqttClients s !! connectionId = Some h ->
     clients s !! h = Some c ->
     subscribeToTopics connectionId s =
       (Returns tt,
        if mc_connected c then
          setTrace (trace s ++
            List.map (fun t => MqttSubscribe h (topic_topic t) (topic_qos t))
              (List.filter topic_active
                 (List.filter (fun t => topic_connection_id t =? connectionId)
                    (db_topics (db s))))) s
        else s)).
Proof.
  unfold subscribeToTopics, tryCatch, db_getTopics. split; [|split].
  - intros Hf. unfold bind at 1. by rewrite Hf.
  - intros Hn. unfold bind at 1. destruct (db_failing (db s)); [done|].
    unfold bind, gets. by rewrite Hn.
  - intros h c Hf Hh Hc. unfold bind at 1. rewrite Hf. unfold bind at 1, gets.
    rewrite Hh. unfold bind, getClient. rewrite Hc.
    destruct (mc_connected c); cbn [when]; [|done]. by rewrite forEach_emit.
Qed.

Lemma disconnectMQTT_some c h s :
  mqttClients s !! c = Some h ->
  disconnectMQTT c s =
    (Returns tt,
     setMqttClients (delete c (mqttClients s)) (setTrace (trace s ++ [MqttEnd h]) s)).
Proof. intros H. unfold disconnectMQTT, bind at 1, gets. by rewrite H. Qed.

(** X12: a client replaced in the session table is left running. When
    [connectMQTT] is called twice for one connection, the library takes the
    descriptor both times and both clients report their connect, the table
    holds the second client; the first is still connected, [disconnectMQTT]
    ends the second only, and a pause request for the connection id does
    not touch the flag of the first. *)
Theorem replaced_client_keeps_running (connectThrows : library) (s : Monitor)
    (connection : Connection) (ws1 ws2 : option string) (now1 now2 : Z) :
  connectThrows (fst (connectOptions connection now1))
                (snd (connectOptions connection now1)) = false ->
  connectThrows (fst (connectOptions connection now2))
                (snd (connectOptions connection now2)) = false ->
  let id := conn_id connection in
  let h1 := nextHandle s in
  let h2 := S h1 in
  let s1 := run (onMqttConnect h1) (run (connectMQTT connectThrows connection ws1 now1) s) in
  let s2 := run (onMqttConnect h2) (run (connectMQTT connectThrows connection ws2 now2) s1) in
  mqttClients s2 !! id = Some h2 /\
  clients s2 !! h1 = Some (mkMqttClient connection ws1 true JUndefined) /\
  emitted (disconnectMQTT id) s2 = [MqttEnd h2] /\
  clients (run (pauseMonitoring (JNum id) (JBool true)) s2) !! h1 =
    Some (mkMqttClient connection ws1 true JUndefined).
Proof.
  intros Ht1 Ht2 id h1 h2 s1 s2.
  pose proof (fun s0 w => connectMQTT_eq connectThrows connection w now1 s0 Ht1) as Hopen1.
  pose proof (fun s0 w => connectMQTT_eq connectThrows connection w now2 s0 Ht2) as Hopen2.
  assert (Hs1 : nextHandle s1 = h2 /\
                clients s1 !! h1 = Some (mkMqttClient connection ws1 true JUndefined)).
  { subst s1. unfold run. rewrite Hopen1. cbn [snd].
    match goal with |- context [onMqttConnect h1 ?sx] => set (s0 := sx) end.
    assert (H0 : clients s0 !! h1 = Some (mkMqttClient connection ws1 false JUndefined)).
    { subst s0. cbn. apply lookup_insert_eq. }
    unfold run. rewrite (onMqttConnect_eq h1 _ s0 H0). subst s0. cbn. split; [done|].
    apply lookup_insert_eq. }
  destruct Hs1 as [Hn1 Hc1].
  assert (Hne : h1 <> h2) by (subst h2; lia).
  assert (Hs2 : mqttClients s2 !! id = Some h2 /\
                clients s2 !! h1 = Some (mkMqttClient connection ws1 true JUndefined) /\
                clients s2 !! h2 = Some (mkMqttClient connection ws2 true JUndefined)).
  { subst s2. unfold run at 2 4 6. rewrite Hopen2, Hn1. cbn [snd].
    match goal with |- context [run (onMqttConnect h2) ?sx] => set (s0 := sx) end.
    assert (H0 : clients s0 !! h2 = Some (mkMqttClient connection ws2 false JUndefined)).
    { subst s0. cbn. apply lookup_insert_eq. }
    unfold run. rewrite (onMqttConnect_eq h2 _ s0 H0). subst s0. cbn.
    rewrite !lookup_insert_eq. rewrite !lookup_insert_ne by done. done. }
  destruct Hs2 as (Ht & Hk1 & Hk2).
  split; [done|]. split; [done|]. split.
  - apply emitted_trace. unfold run. by rewrite (disconnectMQTT_some id h2 s2 Ht).
  - unfold run. rewrite (pauseMonitoring_known s2 (JNum id) (JBool true) h2 _ Ht Hk2).
    cbn. by rewrite lookup_insert_ne.
Qed.

Lemma replaced_client_keeps_running_witness :
  mqttClients twoViewers !! 1 = Some 3%nat /\
  clients twoViewers !! 2%nat = Some (mkMqttClient conn1 (Some "A"%string) true JUndefined) /\
  emitted (disconnectMQTT 1) twoViewers = [MqttEnd 3%nat].
Proof.
  destruct (replaced_client_keeps_running noThrow
              (run (onWsConnection "A" 0;; onWsConnection "B" 1) initialMonitor)
              conn1 (Some "A"%string) (Some "B"%string) 2 3 eq_refl eq_refl)
    as (H1 & H2 & H3 & _).
  vm_compute in H1, H2, H3. vm_compute. split; [exact H1|]. split; [exact H2|exact H3].
Defined.

(** *** More on the viewer registry *)

Lemma omap_get_None {V} k (m : list (string * V)) :
  omap_get k m = None <-> k ∉ fst <$> m.
Proof.
  induction m as [|[k0 v] m IH]; cbn [omap_get fmap list_fmap fst].
  - split; [intros _; apply not_elem_of_nil|done].
  - rewrite not_elem_of_cons. destruct (String.eqb_spec k k0) as [->|Hne].
    + split; [done|]. by intros [? _].
    + rewrite IH. split; [done|]. by intros [_ ?].
Qed.

Lemma omap_set_fresh {V} k (x : V) (m : list (string * V)) :
  omap_get k m = None -> omap_set k x m = m ++ [(k, x)].
Proof.
  induction m as [|[k0 v] m IH]; [done|]. cbn [omap_get omap_set app].
  destruct (String.eqb k k0); [done|]. intros H. by rewrite IH.
Qed.

Lemma omap_get_set_ne {V} k k' (x : V) (m : list (string * V)) :
  k <> k' -> omap_get k' (omap_set k x m) = omap_get k' m.
Proof.
  intros Hne. induction m as [|[k0 v] m IH]; cbn [omap_set omap_get].
  - by destruct (String.eqb_spec k' k).
  - destruct (String.eqb_spec k k0) as [->|Hk]; cbn [omap_get]; [|by rewrite IH].
    by destruct (String.eqb_spec k' k0).
Qed.

(** X9: a reconnect binds one viewer only. When the transport of a client
    closes and connects again, the session table holds the client again,
    and of all viewers only the one the client was created for, if it is
    still registered, is bound to the connection afterwards: every other
    viewer that was bound to it has lost that binding. Bindings to other
    connections are as they were. *)
Theorem reconnect_rebinds_creator_only (s : Monitor) (h : handle) (c : MqttClient) :
  clients s !! h = Some c ->
  let id := conn_id (mc_connection c) in
  let s' := run (onMqttConnect h) (run (onMqttClose h) s) in
  mqttClients s' = <[id := h]> (mqttClients s) /\
  (forall v, bound s' v id <->
     nonEmpty (mc_wsClientId c) = Some v /\ is_Some (omap_get v (wsClients s))) /\
  (forall v k, k <> id -> bound s' v k <-> bound s v k).
Proof.
  intros Hc id s'.
  set (unbind := fun i => withMqttConnections (oset_delete id (ci_mqttConnections i)) i).
  set (W := List.map (fun e => (fst e, unbind (snd e))) (wsClients s)).
  assert (Hmap : forall v, omap_get v W = unbind <$> omap_get v (wsClients s)).
  { intros v. apply (omap_get_map unbind). }
  assert (Hs' : wsClients s' = bindViewer (mc_wsClientId c) id W /\
                mqttClients s' = <[id := h]> (mqttClients s)).
  { subst s'. unfold run. rewrite (onMqttClose_eq h c s Hc). cbn [snd]. fold id.
    match goal with |- context [onMqttConnect h ?sx] => set (closed := sx) end.
    assert (Hcl : clients closed !! h = Some (withConnected false c)).
    { subst closed. cbn. apply lookup_insert_eq. }
    rewrite (onMqttConnect_eq h _ closed Hcl). subst closed.
    cbn [snd wsClients mqttClients setTrace setWsClients setMqttClients setClients
         withConnected mc_connection mc_wsClientId]. fold id.
    split; [done|]. apply insert_delete_eq. }
  destruct Hs' as [Hw Hm]. split; [done|]. unfold bound. rewrite Hw. unfold bindViewer.
  destruct (nonEmpty (mc_wsClientId c)) as [k|].
  - pose proof (Hmap k) as Hk.
    destruct (omap_get k (wsClients s)) as [i0|] eqn:Hk0; cbn in Hk; rewrite Hk.
    + split.
      * intros v. destruct (decide (k = v)) as [<-|Hne].
        -- rewrite omap_get_set_eq. split.
           ++ intros _. split; [done|]. by rewrite Hk0.
           ++ intros _. eexists. split; [done|]. cbn. apply oset_add_spec. by right.
        -- rewrite (omap_get_set_ne k v) by done. rewrite Hmap. split.
           ++ intros (info & Hget & Hin).
              destruct (omap_get v (wsClients s)) as [i|]; [|done].
              injection Hget as <-. cbn in Hin. apply oset_delete_spec in Hin.
              by destruct Hin.
           ++ intros [[= ->] _]. done.
      * intros v j Hj. destruct (decide (k = v)) as [<-|Hne].
        -- rewrite omap_get_set_eq, Hk0. split.
           ++ intros (info & [= <-] & Hin). exists i0. split; [done|].
              cbn in Hin. apply oset_add_spec in Hin as [Hin|Hin]; [|done].
              apply oset_delete_spec in Hin. by destruct Hin.
           ++ intros (info & [= <-] & Hin). eexists. split; [done|].
              cbn. apply oset_add_spec. left. by apply oset_delete_spec.
        -- rewrite (omap_get_set_ne k v) by done. rewrite Hmap. split.
           ++ intros (info & Hget & Hin).
              destruct (omap_get v (wsClients s)) as [i|]; [|done].
              injection Hget as <-. cbn in Hin. apply oset_delete_spec in Hin.
              exists i. by destruct Hin.
           ++ intros (info & Hget & Hin). rewrite Hget. eexists. split; [done|].
              cbn. by apply oset_delete_spec.
    + split.
      * intros v. rewrite Hmap. split.
        -- intros (info & Hget & Hin).
           destruct (omap_get v (wsClients s)) as [i|]; [|done].
           injection Hget as <-. cbn in Hin. apply oset_delete_spec in Hin.
           by destruct Hin.
        -- intros [[= ->] [i Hi]]. congruence.
      * intros v j Hj. rewrite Hmap. split.
        -- intros (info & Hget & Hin).
           destruct (omap_get v (wsClients s)) as [i|]; [|done].
           injection Hget as <-. cbn in Hin. apply oset_delete_spec in Hin.
           exists i. by destruct Hin.
        -- intros (info & Hget & Hin). rewrite Hget. eexists. split; [done|].
           cbn. by apply oset_delete_spec.
  - split.
    + intros v. rewrite Hmap. split.
      * intros (info & Hget & Hin).
        destruct (omap_get v (wsClients s)) as [i|]; [|done].
        injection Hget as <-. cbn in Hin. apply oset_delete_spec in Hin.
        by destruct Hin.
      * by intros [? _].
    + intros v j Hj. rewrite Hmap. split.
      * intros (info & Hget & Hin).
        destruct (omap_get v (wsClients s)) as [i|]; [|done].
        injection Hget as <-. cbn in Hin. apply oset_delete_spec in Hin.
        exists i. by destruct Hin.
      * intros (info & Hget & Hin). rewrite Hget. eexists. split; [done|].
        cbn. by apply oset_delete_spec.
Qed.

Lemma reconnect_rebinds_creator_only_witness :
  bound twoViewers "A" 1 /\ bound twoViewers "B" 1 /\
  let s' := run (onMqttConnect 3%nat) (run (onMqttClose 3%nat) twoViewers) in
  mqttClients s' !! 1 = Some 3%nat /\ bound s' "B" 1 /\ ~ bound s' "A" 1.
Proof.
  split; [eexists; split; [reflexivity|]; apply list_elem_of_singleton; reflexivity|].
  split; [eexists; split; [reflexivity|]; apply list_elem_of_singleton; reflexivity|].
  pose proof (reconnect_rebinds_creator_only twoViewers 3%nat
                (mkMqttClient conn1 (Some "B"%string) true JUndefined) eq_refl) as H.
  cbv zeta in H. destruct H as (Hm & Hb & _). cbv zeta.
  split; [by rewrite Hm|]. split.
  - apply Hb. split; [reflexivity|]. eexists. reflexivity.
  - intros HA. apply Hb in HA as [HA _]. discriminate HA.
Defined.

Lemma onWsConnection_eq wsClientId now s :
  let sock := nextHandle s in
  onWsConnection wsClientId now s =
    (Returns sock,
     setTrace (trace s ++ [WsSend sock (ConnectionEstablished wsClientId)])
       (setWsClients (omap_set wsClientId (mkClientInfo sock [] now now) (wsClients s))
          (setNextHandle (S sock)
             (setWssClients (wssClients s ++ [sock])
                (setSockets (<[sock := mkWebSocket OPEN false wsClientId]> (sockets s)) s))))).
Proof.
  intros sock. unfold onWsConnection, mbind, M_bind, bind at 1, gets.
  unfold bind at 1, modify. unfold bind at 1. unfold bind at 1, wsSend, bind at 1, getSocket.
  cbn [sockets setWsClients setNextHandle setWssClients setSockets nextHandle].
  fold sock. rewrite lookup_insert_eq. reflexivity.
Qed.

Lemma onWsClose_eq sock w s :
  sockets s !! sock = Some w ->
  onWsClose sock s =
    handleWebSocketDisconnect (ws_ownId w)
      (setWssClients (List.filter (fun c => negb (Nat.eqb c sock)) (wssClients s))
         (setSockets (<[sock := mkWebSocket CLOSED (ws_sendThrows w) (ws_ownId w)]>
                        (sockets s)) s)).
Proof.
  intros Hw. unfold onWsClose, mbind, M_bind, bind at 1, getSocket. rewrite Hw.
  reflexivity.
Qed.

Lemma filter_neq_fresh (sock : handle) (l : list handle) :
  sock ∉ l -> List.filter (fun c => negb (Nat.eqb c sock)) (l ++ [sock]) = l.
Proof.
  intros Hn. rewrite List.filter_app. cbn. rewrite Nat.eqb_refl. cbn.
  rewrite app_nil_r. induction l as [|x l IH]; [done|].
  apply not_elem_of_cons in Hn as [Hne Hn]. cbn.
  destruct (Nat.eqb_spec x sock); [congruence|]. cbn. by rewrite IH.
Qed.

(** X13: a viewer that opens a channel under an id not yet registered and
    closes it without having been bound to a connection leaves no trace in
    the tables: the registry, [wss.clients] and the session table are what
    they were, and the only message sent is the greeting that carries the
    id. *)
Theorem open_then_close_restores (s : Monitor) (wsClientId : string) (now : Z) :
  omap_get wsClientId (wsClients s) = None ->
  nextHandle s ∉ wssClients s ->
  let sock := nextHandle s in
  let s1 := run (onWsConnection wsClientId now) s in
  let s2 := run (onWsClose sock) s1 in
  omap_get wsClientId (wsClients s1) = Some (mkClientInfo sock [] now now) /\
  wsClients s2 = wsClients s /\ wssClients s2 = wssClients s /\
  mqttClients s2 = mqttClients s /\
  trace s2 = trace s ++ [WsSend sock (ConnectionEstablished wsClientId)].
Proof.
  intros Hfresh Hsock sock s1 s2.
  pose proof (onWsConnection_eq wsClientId now s) as H1. cbv zeta in H1. fold sock in H1.
  assert (Hs1 : s1 = snd (onWsConnection wsClientId now s)) by done.
  rewrite H1 in Hs1. cbn [snd] in Hs1.
  assert (Hw : sockets s1 !! sock = Some (mkWebSocket OPEN false wsClientId)).
  { rewrite Hs1. cbn. apply lookup_insert_eq. }
  split.
  { rewrite Hs1. cbn. apply omap_get_set_eq. }
  subst s2. unfold run. rewrite (onWsClose_eq sock _ s1 Hw). cbn [ws_ownId ws_sendThrows].
  match goal with |- context [handleWebSocketDisconnect _ ?sx] => set (s0 := sx) end.
  assert (Hget : omap_get wsClientId (wsClients s0) = Some (mkClientInfo sock [] now now)).
  { subst s0. rewrite Hs1. cbn. apply omap_get_set_eq. }
  rewrite (handleWebSocketDisconnect_eq wsClientId _ s0 Hget). subst s0. rewrite Hs1.
  cbn. rewrite (omap_set_fresh _ _ _ Hfresh). rewrite app_nil_r.
  split; [|split; [|done]].
  - apply omap_get_None in Hfresh. unfold omap_delete. rewrite List.filter_app. cbn.
    rewrite String.eqb_refl. cbn. rewrite app_nil_r.
    by apply (omap_delete_notin wsClientId (wsClients s)).
  - by apply filter_neq_fresh.
Qed.

Lemma open_then_close_restores_witness :
  omap_get "C" (wsClients twoViewers) = None /\
  wsClients (run (onWsClose (nextHandle twoViewers)) (run (onWsConnection "C" 9) twoViewers)) =
    wsClients twoViewers.
Proof.
  split; [reflexivity|].
  apply (open_then_close_restores twoViewers "C" 9 eq_refl).
  vm_compute. intros H.
  repeat (apply elem_of_cons in H as [H|H]; [discriminate H|]).
  by apply elem_of_nil in H.
Defined.

Lemma onWsMessage_register sock w prior info now s :
  sockets s !! sock = Some w ->
  nonEmpty (Some prior) = Some prior ->
  omap_get prior (wsClients s) = Some info ->
  onWsMessage sock (ReqRegister (Some prior)) now s =
    (Returns tt,
     setWsClients
       (omap_delete (ws_ownId w) (omap_set prior (withWs sock info) (wsClients s))) s).
Proof.
  intros Hw Hne Hp. unfold onWsMessage, bind at 1, getSocket. rewrite Hw, Hne.
  unfold bind at 1, gets. rewrite Hp. reflexivity.
Qed.

(** X14: a channel that registers with the id of a viewer that is still
    registered takes that identity over: the viewer keeps its bindings and
    its timestamps and gets the new socket, the id generated for the
    channel is dropped from the registry, every other viewer and the
    session table are left alone, and nothing is sent or disconnected. *)
Theorem register_reattaches (s : Monitor) (sock : handle) (w : WebSocket)
    (prior : string) (info : ClientInfo) (now : Z) :
  sockets s !! sock = Some w ->
  prior <> EmptyString ->
  prior <> ws_ownId w ->
  omap_get prior (wsClients s) = Some info ->
  let s' := run (onWsMessage sock (ReqRegister (Some prior)) now) s in
  omap_get prior (wsClients s') = Some (withWs sock info) /\
  omap_get (ws_ownId w) (wsClients s') = None /\
  (forall v, v <> prior -> v <> ws_ownId w ->
             omap_get v (wsClients s') = omap_get v (wsClients s)) /\
  mqttClients s' = mqttClients s /\ trace s' = trace s.
Proof.
  intros Hw Hne Hown Hp s'.
  assert (Hn : nonEmpty (Some prior) = Some prior).
  { cbn. destruct (String.eqb_spec prior EmptyString); [done|done]. }
  subst s'. unfold run. rewrite (onWsMessage_register sock w prior info now s Hw Hn Hp).
  cbn. repeat split.
  - rewrite omap_get_delete. destruct (String.eqb_spec (ws_ownId w) prior); [congruence|].
    apply omap_get_set_eq.
  - rewrite omap_get_delete. by rewrite String.eqb_refl.
  - intros v Hv1 Hv2. rewrite omap_get_delete.
    destruct (String.eqb_spec (ws_ownId w) v); [congruence|].
    by apply omap_get_set_ne.
Qed.

Lemma register_reattaches_witness :
  omap_get "A" (wsClients (run (onWsMessage 1%nat (ReqRegister (Some "A"%string)) 9)
                             twoViewers)) =
    Some (mkClientInfo 1%nat [1] 0 0) /\
  omap_get "B" (wsClients (run (onWsMessage 1%nat (ReqRegister (Some "A"%string)) 9)
                             twoViewers)) = None.
Proof.
  destruct (register_reattaches twoViewers 1%nat (mkWebSocket OPEN false "B") "A"
              (mkClientInfo 0%nat [1] 0 0) 9) as (H1 & H2 & _).
  - reflexivity.
  - discriminate.
  - discriminate.
  - reflexivity.
  - split; [exact H1|exact H2].
Defined.

(** X15: a registration without an id, with the empty id or with an id
    that names no registered viewer changes nothing: the channel stays
    registered under the id generated for it, with no bindings taken over. *)
Theorem register_unknown_is_ignored (s : Monitor) (sock : handle) (w : WebSocket)
    (token : option string) (now : Z) :
  sockets s !! sock = Some w ->
  match nonEmpty token with
  | Some prior => omap_get prior (wsClients s) = None
  | None => True
  end ->
  onWsMessage sock (ReqRegister token) now s = (Returns tt, s).
Proof.
  intros Hw Ht. unfold onWsMessage, bind at 1, getSocket. rewrite Hw.
  destruct (nonEmpty token) as [prior|]; [|done].
  unfold bind, gets. by rewrite Ht.
Qed.

Lemma register_unknown_is_ignored_witness :
  onWsMessage 1%nat (ReqRegister (Some "ws_gone"%string)) 9 twoViewers =
    (Returns tt, twoViewers).
Proof.
  apply (register_unknown_is_ignored twoViewers 1%nat (mkWebSocket OPEN false "B")
           (Some "ws_gone"%string) 9); reflexivity.
Defined.

(** X16: a channel that registers with its own current id removes itself
    from the registry: the entry is rewritten and then deleted. The session
    table is not touched, so the connections the viewer was bound to stay
    connected, and nothing is disconnected. *)
Theorem register_own_id_unregisters (s : Monitor) (sock : handle) (w : WebSocket)
    (info : ClientInfo) (now : Z) :
  sockets s !! sock = Some w ->
  ws_ownId w <> EmptyString ->
  omap_get (ws_ownId w) (wsClients s) = Some info ->
  let s' := run (onWsMessage sock (ReqRegister (Some (ws_ownId w))) now) s in
  omap_get (ws_ownId w) (wsClients s') = None /\
  mqttClients s' = mqttClients s /\ trace s' = trace s.
Proof.
  intros Hw Hne Hp s'.
  assert (Hn : nonEmpty (Some (ws_ownId w)) = Some (ws_ownId w)).
  { cbn. destruct (String.eqb_spec (ws_ownId w) EmptyString); [done|done]. }
  subst s'. unfold run.
  rewrite (onWsMessage_register sock w (ws_ownId w) info now s Hw Hn Hp).
  cbn. repeat split. rewrite omap_get_delete. by rewrite String.eqb_refl.
Qed.

Lemma register_own_id_unregisters_witness :
  omap_get "A" (wsClients (run (onWsMessage 0%nat (ReqRegister (Some "A"%string)) 9)
                             twoViewers)) = None /\
  mqttClients (run (onWsMessage 0%nat (ReqRegister (Some "A"%string)) 9) twoViewers) !! 1 =
    Some 3%nat.
Proof.
  destruct (register_own_id_unregisters twoViewers 0%nat (mkWebSocket OPEN false "A")
              (mkClientInfo 0%nat [1] 0 0) 9) as (H1 & H2 & _).
  - reflexivity.
  - discriminate.
  - reflexivity.
  - cbn [ws_ownId] in H1, H2. split; [exact H1|]. rewrite H2. reflexivity.
Defined.

(** X17: after a channel has taken over a registered identity, the close of
    that channel cleans up nothing: the close callback still names the id
    generated for the channel, which is no longer registered. The viewer
    stays registered with its bindings and no session is disconnected; its
    socket is closed, so the next heartbeat is what removes it. *)
Theorem reattached_viewer_survives_close (s : Monitor) (sock : handle) (w : WebSocket)
    (prior : string) (info : ClientInfo) (now : Z) :
  sockets s !! sock = Some w ->
  prior <> EmptyString ->
  prior <> ws_ownId w ->
  omap_get prior (wsClients s) = Some info ->
  let s1 := run (onWsMessage sock (ReqRegister (Some prior)) now) s in
  let s2 := run (onWsClose sock) s1 in
  omap_get prior (wsClients s2) = Some (withWs sock info) /\
  mqttClients s2 = mqttClients s /\
  emitted (onWsClose sock) s1 = [] /\
  keptByHeartbeat s2 (withWs sock info) = false.
Proof.
  intros Hw Hne Hown Hp s1 s2.
  assert (Hn : nonEmpty (Some prior) = Some prior).
  { cbn. destruct (String.eqb_spec prior EmptyString); [done|done]. }
  assert (Hs1 : s1 = setWsClients
            (omap_delete (ws_ownId w) (omap_set prior (withWs sock info) (wsClients s))) s).
  { subst s1. unfold run.
    by rewrite (onWsMessage_register sock w prior info now s Hw Hn Hp). }
  assert (Hw1 : sockets s1 !! sock = Some w) by (by rewrite Hs1).
  assert (Hclose : onWsClose sock s1 =
            (Returns tt,
             setWssClients (List.filter (fun c => negb (Nat.eqb c sock)) (wssClients s1))
               (setSockets (<[sock := mkWebSocket CLOSED (ws_sendThrows w) (ws_ownId w)]>
                              (sockets s1)) s1))).
  { rewrite (onWsClose_eq sock w s1 Hw1). apply handleWebSocketDisconnect_absent.
    cbn. rewrite Hs1. cbn. rewrite omap_get_delete. by rewrite String.eqb_refl. }
  split; [|split; [|split]].
  - subst s2. unfold run. rewrite Hclose. cbn. rewrite Hs1. cbn.
    rewrite omap_get_delete. destruct (String.eqb_spec (ws_ownId w) prior); [congruence|].
    apply omap_get_set_eq.
  - subst s2. unfold run. rewrite Hclose. cbn. by rewrite Hs1.
  - apply emitted_trace. unfold run. rewrite Hclose. cbn. by rewrite app_nil_r.
  - subst s2. unfold run. rewrite Hclose. unfold keptByHeartbeat. cbn.
    by rewrite lookup_insert_eq.
Qed.

Lemma reattached_viewer_survives_close_witness :
  omap_get "A"
    (wsClients (run (onWsClose 1%nat)
                  (run (onWsMessage 1%nat (ReqRegister (Some "A"%string)) 9) twoViewers))) =
    Some (mkClientInfo 1%nat [1] 0 0).
Proof.
  destruct (reattached_viewer_survives_close twoViewers 1%nat (mkWebSocket OPEN false "B")
              "A" (mkClientInfo 0%nat [1] 0 0) 9) as (H1 & _).
  - reflexivity.
  - discriminate.
  - discriminate.
  - reflexivity.
  - exact H1.
Defined.

(** *** Routes *)

Lemma findM_pure {A} (f : A -> bool) l s :
  findM (fun x => liftOutcome (Returns (f x))) l s = (Returns (List.find f l), s).
Proof.
  induction l as [|x l IH]; [done|]. cbn [findM List.find].
  unfold bind at 1, liftOutcome. by destruct (f x).
Qed.

(** X18: the connect route. When the store rejects the lookup it answers
    500; when no stored connection has the requested number it answers 404;
    when [mqtt.connect] throws for the stored connection it answers 500; in
    these cases nothing is opened and the monitor is unchanged. Otherwise it
    answers success at once, having asked the library for one new
    transport: the session table has no new entry at that time, the entry
    is only made when the transport reports its connect. *)
Theorem connect_route_answers (connectThrows : library) (s : Monitor) (z : Z)
    (wsClientId : jsval) (now : Z) :
  let route := connectRoute connectThrows (JNum z) wsClientId now in
  (db_failing (db s) = true -> route s = (Returns ServerError, s)) /\
  (db_failing (db s) = false ->
   match List.find (fun c => conn_id c =? z) (db_connections (db s)) with
   | None => route s = (Returns (Reply (mkResponse 404 (BodyError "Connection not found"))), s)
   | Some c =>
       if connectThrows (fst (connectOptions c now)) (snd (connectOptions c now))
       then route s = (Returns ServerError, s)
       else
         result route s =
           Returns (Reply (mkResponse 200 (BodySuccess "Connected to MQTT broker"))) /\
         emitted route s =
           [MqttConnect (nextHandle s) (fst (connectOptions c now))
              (snd (connectOptions c now))] /\
         mqttClients (run route s) = mqttClients s
   end).
Proof.
  intros route. split.
  - intros Hf. subst route. unfold connectRoute, tryCatch, db_getConnections, bind at 1.
    by rewrite Hf.
  - intros Hf.
    assert (Heq : route s =
              match List.find (fun c => conn_id c =? z) (db_connections (db s)) with
              | None =>
                  (Returns (Reply (mkResponse 404 (BodyError "Connection not found"))), s)
              | Some c =>
                  if connectThrows (fst (connectOptions c now)) (snd (connectOptions c now))
                  then (Returns ServerError, s)
                  else
                    (Returns (Reply (mkResponse 200
                                       (BodySuccess "Connected to MQTT broker"))),
                     snd (connectMQTT connectThrows c (asViewerId wsClientId) now s))
              end).
    { subst route. unfold connectRoute, tryCatch, db_getConnections, bind at 1.
      rewrite Hf. unfold bind at 1. cbn [looseEqId]. rewrite findM_pure.
      destruct (List.find _ _) as [c|]; [|done].
      unfold mbind, M_bind, bind at 1.
      destruct (connectThrows _ _) eqn:Ht.
      - by rewrite (connectMQTT_throws _ _ _ _ _ Ht).
      - by rewrite (connectMQTT_eq _ _ _ _ _ Ht). }
    destruct (List.find _ _) as [c|]; [|done].
    destruct (connectThrows _ _) eqn:Ht; [done|].
    unfold result, run. rewrite Heq.
    rewrite (connectMQTT_eq _ _ _ _ _ Ht) in Heq |- *. cbn [fst snd].
    split; [done|]. split; [|done].
    apply emitted_trace. unfold run. by rewrite Heq.
Qed.

(** X19: the delete route never disconnects the broker session of the
    connection it deletes. Its path parameter is a string and the session
    table is keyed by numbers, so the lookup of [disconnectMQTT] finds
    nothing: whatever ids the store takes as equal to the text, the table
    and the clients are unchanged, no [end] is called, and the stored topic
    rows of the connection stay. *)
Theorem delete_route_keeps_session (sameId : string -> Z -> bool) (id : string)
    (s : Monitor) :
  let s' := run (deleteConnectionRoute sameId id) s in
  mqttClients s' = mqttClients s /\ clients s' = clients s /\
  wsClients s' = wsClients s /\ trace s' = trace s /\
  db_topics (db s') = db_topics (db s) /\
  (db_failing (db s) = false ->
   result (deleteConnectionRoute sameId id) s =
     Returns (Reply (mkResponse 200 (BodySuccess "Connection deleted"))) /\
   forall c, c ∈ db_connections (db s') <->
             c ∈ db_connections (db s) /\ sameId id (conn_id c) = false).
Proof.
  intros s'. subst s'.
  assert (Heq : deleteConnectionRoute sameId id s =
            if db_failing (db s) then (Returns ServerError, s)
            else (Returns (Reply (mkResponse 200 (BodySuccess "Connection deleted"))),
                  setDb (mkDatabase
                           (List.filter (fun c => negb (sameId id (conn_id c)))
                              (db_connections (db s)))
                           (db_topics (db s)) (db_failing (db s))) s)).
  { unfold deleteConnectionRoute, tryCatch, mbind, M_bind, disconnectMQTTValue, bind, ret,
      db_deleteConnection. by destruct (db_failing (db s)). }
  unfold run, result. rewrite Heq. destruct (db_failing (db s)) eqn:Hf; cbn.
  - repeat (split; [done|]). done.
  - repeat (split; [done|]). intros c.
    rewrite !list_elem_of_In, List.filter_In, negb_true_iff. tauto.
Qed.

(** X20: the disconnects of the shutdown handler. For the keys of the
    session table, each listed once, in any order: afterwards the table is
    empty, every session has got exactly one [end], in the order of the
    keys, and the registry is untouched. *)
Theorem shutdown_ends_every_session (s : Monitor) (keys : list Z) :
  NoDup keys ->
  (forall k, k ∈ keys <-> is_Some (mqttClients s !! k)) ->
  let s' := run (shutdownSessions keys) s in
  result (shutdownSessions keys) s = Returns tt /\
  mqttClients s' = ∅ /\
  emitted (shutdownSessions keys) s =
    List.map MqttEnd (omap (fun k => mqttClients s !! k) keys) /\
  length (emitted (shutdownSessions keys) s) = length keys /\
  wsClients s' = wsClients s.
Proof.
  intros Hnd Hkeys s'. subst s'. unfold run, result, shutdownSessions.
  pose proof (disconnectAll_eq keys s) as Heq. rewrite Heq. cbn [fst snd].
  assert (Hem : emitted (forEach disconnectMQTT keys) s =
                List.map MqttEnd (omap (fun k => mqttClients s !! k) keys)).
  { apply emitted_trace. unfold run. rewrite Heq. cbn. f_equal. by apply endsOf_NoDup. }
  split; [done|]. split.
  { cbn. apply map_eq. intros k. rewrite lookup_deleteAll, lookup_empty.
    destruct (decide (k ∈ keys)) as [|Hn]; [done|].
    destruct (mqttClients s !! k) eqn:Hk; [|done].
    exfalso. apply Hn, Hkeys. by rewrite Hk. }
  split; [done|]. split; [|done].
  rewrite Hem, length_map. clear Hem Heq Hnd.
  assert (Hall : forall k, k ∈ keys -> is_Some (mqttClients s !! k)) by (intros; by apply Hkeys).
  clear Hkeys. induction keys as [|k keys IH]; [done|]. cbn [omap list_omap].
  destruct (Hall k) as [h Hk]; [by apply elem_of_cons; left|]. rewrite Hk. cbn. f_equal.
  apply IH. intros k' Hk'. apply Hall. by apply elem_of_cons; right.
Qed.

Lemma shutdown_ends_every_session_witness :
  mqttClients (run (shutdownSessions [1]) twoViewers) = ∅ /\
  emitted (shutdownSessions [1]) twoViewers = [MqttEnd 3%nat].
Proof.
  destruct (shutdown_ends_every_session twoViewers [1]) as (_ & H1 & H2 & _).
  - apply NoDup_singleton.
  - intros k. rewrite list_elem_of_singleton. split.
    + intros ->. eexists. reflexivity.
    + intros [h Hh]. destruct (decide (k = 1)) as [|Hne]; [done|].
      exfalso. revert Hh. change (mqttClients twoViewers) with (<[1 := 3%nat]> (∅ : gmap Z handle)).
      rewrite lookup_insert_ne by done. by rewrite lookup_empty.
  - split; [exact H1|]. rewrite H2. reflexivity.
Defined.

(** *** The store *)

Lemma find_map_active tid b (l : list TopicRow) k :
  List.find (fun t => topic_id t =? k)
    (List.map (fun t => if topic_id t =? tid then withActive b t else t) l) =
  (fun t => if topic_id t =? tid then withActive b t else t) <$>
    List.find (fun t => topic_id t =? k) l.
Proof.
  induction l as [|t l IH]; [done|]. cbn [List.map List.find].
  destruct (topic_id t =? tid) eqn:Ht; cbn [withActive topic_id]; destruct (topic_id t =? k);
    cbn; rewrite ?Ht; done.
Qed.

(** X21: [updateTopicStatus] followed by [getTopicById] reads back the row
    with its active flag set to the truth value of what was passed and all
    other fields as before; every other topic row and the connection rows
    are unchanged, and after a falsy value no stored row with that id is
    active. *)
Theorem topic_status_round_trip (s : Monitor) (tid : Z) (active : jsval) :
  db_failing (db s) = false ->
  let s' := run (db_updateTopicStatus tid active) s in
  result (db_getTopicById tid) s' =
    Returns (withActive (truthy active) <$>
               List.find (fun t => topic_id t =? tid) (db_topics (db s))) /\
  (forall k, k <> tid ->
     result (db_getTopicById k) s' = result (db_getTopicById k) s) /\
  db_connections (db s') = db_connections (db s) /\
  (truthy active = false ->
   forall t, t ∈ db_topics (db s') -> topic_id t = tid -> topic_active t = false).
Proof.
  intros Hf s'. subst s'.
  unfold run, result, db_updateTopicStatus, db_getTopicById. rewrite Hf. cbn.
  rewrite ?Hf. cbn. split; [|split; [|split; [done|]]].
  - f_equal. rewrite find_map_active.
    destruct (List.find _ _) as [t|] eqn:Hfind; [|done]. cbn.
    apply List.find_some in Hfind as [_ Ht]. by rewrite Ht.
  - intros k Hk. f_equal. rewrite find_map_active.
    destruct (List.find _ (db_topics (db s))) as [t|] eqn:Hfind; [|done]. cbn.
    apply List.find_some in Hfind as [_ Ht]. apply Z.eqb_eq in Ht.
    destruct (Z.eqb_spec (topic_id t) tid); [congruence|done].
  - intros Hfalse t Ht Hid. apply list_elem_of_In, in_map_iff in Ht as (t0 & <- & _).
    destruct (Z.eqb_spec (topic_id t0) tid) as [|Hne]; [by rewrite Hfalse|].
    by rewrite Hid in Hne.
Qed.

Lemma topic_status_round_trip_witness :
  db_failing (db monitored) = false /\
  result (db_getTopicById 1) (run (db_updateTopicStatus 1 (JBool false)) monitored) =
    Returns (Some (mkTopic 1 1 (str "sensors/#") 0 false)).
Proof.
  split; [reflexivity|].
  destruct (topic_status_round_trip monitored 1 (JBool false) eq_refl) as (H & _).
  rewrite H. reflexivity.
Defined.

(** *** The options of a transport *)

(** X22: the options [connectMQTT] passes to the library. Certificate
    verification is never switched on: [rejectUnauthorized] is absent or
    false, and it is false, with TLS 1.2 forced, exactly for a [wss://]
    host and for a plain host on port 8883 or 443; a [ws://] host gets no
    TLS option whatever its port. The keep-alive is never 0 (the stored
    value, or 60 when none or 0 is stored), the retry period is 5000 and
    the connect timeout 30000, and empty credentials are not passed. *)
Theorem connect_options_policy (connection : Connection) (now : Z) :
  let o := snd (connectOptions connection now) in
  let wss := String.prefix "wss://" (conn_host connection) in
  let ws := String.prefix "ws://" (conn_host connection) in
  let tlsPort := (conn_port connection =? 8883) || (conn_port connection =? 443) in
  let secure := wss || (negb ws && tlsPort) in
  opt_rejectUnauthorized o = (if secure then Some false else None) /\
  opt_secureProtocol o = (if secure then Some "TLSv1_2_method"%string else None) /\
  opt_rejectUnauthorized o <> Some true /\
  opt_keepalive o <> 0 /\
  opt_reconnectPeriod o = 5000 /\ opt_connectTimeout o = 30000 /\
  opt_username o <> Some EmptyString /\ opt_password o <> Some EmptyString /\
  opt_clientId o <> ClientIdOf EmptyString.
Proof.
  intros o wss ws tlsPort secure. subst o secure. unfold connectOptions. cbn [snd].
  fold wss. fold ws. fold tlsPort.
  assert (Hne : forall x, nonEmpty x <> Some EmptyString).
  { intros [x|]; [|done]. unfold nonEmpty.
    destruct (String.eqb_spec x EmptyString) as [->|Hx]; [done|]. by intros [= ->]. }
  repeat split.
  - by destruct wss, ws, tlsPort.
  - by destruct wss, ws, tlsPort.
  - by destruct wss, ws, tlsPort.
  - destruct (conn_keepalive connection) as [k|]; [|done].
    destruct (Z.eqb_spec k 0); [done|done].
  - apply Hne.
  - apply Hne.
  - pose proof (Hne (conn_client_id connection)) as Hc.
    destruct (nonEmpty (conn_client_id connection)) as [x|]; [|done].
    intros [= ->]. by apply Hc.
Qed.

(** *** More on the heartbeat *)

Lemma NoDup_fst_filter {V} (P : string * V -> bool) (l : list (string * V)) :
  NoDup (fst <$> l) -> NoDup (fst <$> List.filter P l).
Proof.
  induction l as [|x l IH]; [done|]. cbn [fmap list_fmap List.filter].
  intros [Hx Hl]%NoDup_cons. destruct (P x); [|by apply IH].
  cbn [fmap list_fmap]. apply NoDup_cons. split; [|by apply IH].
  intros Hin. apply Hx. apply list_elem_of_fmap in Hin as (y & -> & Hy).
  apply list_elem_of_fmap. exists y. split; [done|].
  apply list_elem_of_In, List.filter_In in Hy as [Hy _]. by apply list_elem_of_In.
Qed.

Lemma filter_filter_same {A} (P : A -> bool) (l : list A) :
  List.filter P (List.filter P l) = List.filter P l.
Proof.
  induction l as [|x l IH]; [done|]. cbn [List.filter].
  destruct (P x) eqn:Hx; [|done]. cbn [List.filter]. by rewrite Hx, IH.
Qed.

(** X23: a heartbeat tick leaves a registry in which every viewer has an
    open channel that takes a probe, so a second tick, while no socket
    changes, removes nobody: the registry after two ticks is the registry
    after one. *)
Theorem heartbeat_second_tick_removes_nobody (s : Monitor) (now now' : Z) :
  registryOk s ->
  let s1 := run (heartbeatTick now) s in
  registryOk s1 /\
  Forall (fun e => keptByHeartbeat s1 (snd e) = true) (wsClients s1) /\
  wsClients (run (heartbeatTick now') s1) = wsClients s1.
Proof.
  intros [Hnd Hex] s1.
  destruct (heartbeat_loop now s (wsClients s) [] s eq_refl eq_refl Hnd Hex)
    as (sa & Hrun & Hw & Hsk & _ & _).
  assert (Hs1 : s1 = sa).
  { subst s1. unfold run, heartbeatTick, bind, gets. by rewrite Hrun. }
  rewrite Hs1. cbn [app] in Hw.
  assert (Hkept : forall info, keptByHeartbeat sa info = keptByHeartbeat s info).
  { intros info. unfold keptByHeartbeat. by rewrite Hsk. }
  assert (Hok : registryOk sa).
  { split.
    - rewrite Hw. by apply NoDup_fst_filter.
    - rewrite Hw, Hsk. apply List.Forall_forall. intros e He.
      apply List.filter_In in He as [He _].
      by apply (proj1 (List.Forall_forall _ _) Hex). }
  assert (Hall : Forall (fun e => keptByHeartbeat sa (snd e) = true) (wsClients sa)).
  { rewrite Hw. apply List.Forall_forall. intros e He.
    apply List.filter_In in He as [_ He]. by rewrite Hkept. }
  split; [done|]. split; [done|].
  destruct Hok as [Hnd1 Hex1].
  destruct (heartbeat_loop now' sa (wsClients sa) [] sa eq_refl eq_refl Hnd1 Hex1)
    as (sb & Hrunb & Hwb & _).
  unfold run, heartbeatTick, bind, gets. rewrite Hrunb. cbn [snd app] in Hwb |- *.
  rewrite Hwb. clear -Hall. induction Hall as [|e l He _ IH]; [done|].
  cbn [List.filter]. by rewrite He, IH.
Qed.

Lemma heartbeat_second_tick_removes_nobody_witness :
  registryOk firstRefuses /\
  wsClients (run (heartbeatTick 60) (run (heartbeatTick 30) firstRefuses)) =
    wsClients (run (heartbeatTick 30) firstRefuses).
Proof.
  split; [exact registryOk_firstRefuses|].
  apply (heartbeat_second_tick_removes_nobody firstRefuses 30 60 registryOk_firstRefuses).
Defined.

(** *** What every reachable state satisfies *)

Ltac fields :=
  cbn [mqttClients wsClients wssClients sockets clients db trace nextHandle
       setMqttClients setWsClients setWssClients setSockets setClients setDb
       setTrace setNextHandle] in *.

Lemma consistent_setTrace s t : consistent s -> consistent (setTrace t s).
Proof. intros []. by constructor. Qed.

Lemma consistent_setDb s d : consistent s -> consistent (setDb d s).
Proof. intros []. by constructor. Qed.

Lemma consistent_table_shrinks s (m : gmap Z handle) :
  (forall c h, m !! c = Some h -> mqttClients s !! c = Some h) ->
  consistent s -> consistent (setMqttClients m s).
Proof. intros Hm []. constructor; try done. intros c h Hc. fields. auto. Qed.

Lemma consistent_deleteAll s l :
  consistent s -> consistent (setMqttClients (deleteAll l (mqttClients s)) s).
Proof.
  apply consistent_table_shrinks. intros c h. rewrite lookup_deleteAll.
  by destruct (decide _).
Qed.

Lemma Forall_filter_keep {A} (P : A -> Prop) (f : A -> bool) l :
  Forall P l -> Forall P (List.filter f l).
Proof.
  intros H. apply List.Forall_forall. intros x [Hx _]%List.filter_In.
  by apply (proj1 (List.Forall_forall _ _) H).
Qed.

Lemma consistent_omap_delete s k :
  consistent s -> consistent (setWsClients (omap_delete k (wsClients s)) s).
Proof.
  intros []. constructor; try done; fields; unfold omap_delete.
  - by apply NoDup_fst_filter.
  - by apply Forall_filter_keep.
  - by apply Forall_filter_keep.
Qed.

Lemma omap_set_keys {V} k (x : V) (m : list (string * V)) :
  fst <$> omap_set k x m =
  match omap_get k m with
  | Some _ => fst <$> m
  | None => (fst <$> m) ++ [k]
  end.
Proof.
  induction m as [|[k0 v] m IH]; [done|]. cbn [omap_set omap_get].
  destruct (String.eqb_spec k k0) as [->|Hne]; [done|].
  cbn [fmap list_fmap fst]. fold (fst <$> omap_set k x m). rewrite IH.
  by destruct (omap_get k m).
Qed.

Lemma Forall_omap_set {V} (P : string * V -> Prop) k (x : V) (m : list (string * V)) :
  P (k, x) -> Forall P m -> Forall P (omap_set k x m).
Proof.
  intros Hx. induction 1 as [|[k0 v] m Hv Hm IH]; cbn [omap_set]; [by repeat constructor|].
  destruct (String.eqb k k0); by constructor.
Qed.

Lemma consistent_omap_set s k i :
  is_Some (sockets s !! ci_ws i) -> NoDup (ci_mqttConnections i) ->
  consistent s -> consistent (setWsClients (omap_set k i (wsClients s)) s).
Proof.
  intros Hi Hb []. constructor; try done; fields.
  - rewrite omap_set_keys. destruct (omap_get k (wsClients s)) eqn:Hk; [done|].
    apply NoDup_app. split; [done|]. split; [|apply NoDup_singleton].
    intros x Hx ->%list_elem_of_singleton. by apply omap_get_None in Hk.
  - by apply (Forall_omap_set (fun e => is_Some (sockets s !! ci_ws (snd e)))).
  - by apply (Forall_omap_set (fun e => NoDup (ci_mqttConnections (snd e)))).
Qed.

Lemma consistent_update_client s h c c' :
  clients s !! h = Some c ->
  conn_id (mc_connection c') = conn_id (mc_connection c) ->
  consistent s -> consistent (setClients (<[h := c']> (clients s)) s).
Proof.
  intros Hc Hid []. constructor; try done; fields.
  - intros k h0 Hk. destruct (cons_table0 k h0 Hk) as (cl & Hcl & Hcid).
    destruct (decide (h0 = h)) as [->|Hne].
    + exists c'. rewrite lookup_insert_eq. split; [done|]. congruence.
    + exists cl. by rewrite lookup_insert_ne.
  - intros h0 [Hs|Hk]; apply cons_fresh0; [by left|].
    destruct (decide (h0 = h)) as [->|Hne]; [right; exists c; exact Hc|].
    right. by rewrite lookup_insert_ne in Hk.
Qed.

Lemma consistent_update_socket s k w w' :
  sockets s !! k = Some w ->
  consistent s -> consistent (setSockets (<[k := w']> (sockets s)) s).
Proof.
  intros Hw [].
  assert (Hkeep : forall j, is_Some (sockets s !! j) -> is_Some (<[k := w']> (sockets s) !! j)).
  { intros j Hj. destruct (decide (j = k)) as [->|Hne].
    - by rewrite lookup_insert_eq.
    - by rewrite lookup_insert_ne. }
  constructor; try done; fields.
  - eapply Forall_impl; [exact cons_viewer_sockets0|]. intros e He. by apply Hkeep.
  - eapply Forall_impl; [exact cons_server_sockets0|]. intros e He. by apply Hkeep.
  - intros h0 [Hs|Hk]; apply cons_fresh0; [|by right].
    destruct (decide (h0 = k)) as [->|Hne]; [left; exists w; exact Hw|].
    left. by rewrite lookup_insert_ne in Hs.
Qed.

Lemma consistent_table_insert s h c :
  clients s !! h = Some c ->
  consistent s ->
  consistent (setMqttClients (<[conn_id (mc_connection c) := h]> (mqttClients s)) s).
Proof.
  intros Hc []. constructor; try done; fields. intros k h0 Hk.
  destruct (decide (k = conn_id (mc_connection c))) as [->|Hne].
  - rewrite lookup_insert_eq in Hk. injection Hk as <-. by exists c.
  - rewrite lookup_insert_ne in Hk by done. by apply cons_table0.
Qed.

Lemma consistent_alloc_client s c :
  consistent s ->
  consistent (setNextHandle (S (nextHandle s))
                (setClients (<[nextHandle s := c]> (clients s)) s)).
Proof.
  intros []. constructor; try done; fields.
  - intros k h Hk. destruct (cons_table0 k h Hk) as (cl & Hcl & Hid).
    exists cl. split; [|done]. rewrite lookup_insert_ne; [done|].
    intros <-. assert (nextHandle s < nextHandle s)%nat; [|lia].
    apply cons_fresh0. right. exists cl. exact Hcl.
  - intros h [Hs|Hk].
    + assert (h < nextHandle s)%nat by (apply cons_fresh0; by left). lia.
    + destruct (decide (h = nextHandle s)) as [->|Hne]; [lia|].
      rewrite lookup_insert_ne in Hk by done.
      assert (h < nextHandle s)%nat by (apply cons_fresh0; by right). lia.
Qed.

Lemma consistent_alloc_socket s w :
  consistent s ->
  consistent (setNextHandle (S (nextHandle s))
                (setWssClients (wssClients s ++ [nextHandle s])
                   (setSockets (<[nextHandle s := w]> (sockets s)) s))).
Proof.
  intros [].
  assert (Hkeep : forall j, is_Some (sockets s !! j) ->
                            is_Some (<[nextHandle s := w]> (sockets s) !! j)).
  { intros j Hj. destruct (decide (j = nextHandle s)) as [->|Hne].
    - by rewrite lookup_insert_eq.
    - by rewrite lookup_insert_ne. }
  constructor; try done; fields.
  - eapply Forall_impl; [exact cons_viewer_sockets0|]. intros e He. by apply Hkeep.
  - apply Forall_app. split.
    + eapply Forall_impl; [exact cons_server_sockets0|]. intros e He. by apply Hkeep.
    + constructor; [|done]. by rewrite lookup_insert_eq.
  - apply NoDup_app. split; [done|]. split; [|apply NoDup_singleton].
    intros x Hx ->%list_elem_of_singleton.
    assert (nextHandle s < nextHandle s)%nat; [|lia]. apply cons_fresh0. left.
    by apply (proj1 (Forall_forall _ _) cons_server_sockets0).
  - intros h [Hs|Hk].
    + destruct (decide (h = nextHandle s)) as [->|Hne]; [lia|].
      rewrite lookup_insert_ne in Hs by done.
      assert (h < nextHandle s)%nat by (apply cons_fresh0; by left). lia.
    + assert (h < nextHandle s)%nat by (apply cons_fresh0; by right). lia.
Qed.

Lemma consistent_wss_filter s (f : handle -> bool) :
  consistent s -> consistent (setWssClients (List.filter f (wssClients s)) s).
Proof.
  intros []. constructor; try done; fields.
  - by apply Forall_filter_keep.
  - clear -cons_server_once0. induction (wssClients s) as [|x l IH]; [done|].
    apply NoDup_cons in cons_server_once0 as [Hx Hl]. cbn [List.filter].
    destruct (f x); [|by apply IH]. apply NoDup_cons. split; [|by apply IH].
    intros Hin. apply Hx. apply list_elem_of_In, List.filter_In in Hin as [Hin _].
    by apply list_elem_of_In.
Qed.

Lemma NoDup_oset_delete x l : NoDup l -> NoDup (oset_delete x l).
Proof.
  unfold oset_delete. induction l as [|y l IH]; [done|].
  intros [Hy Hl]%NoDup_cons. cbn [List.filter].
  destruct (negb (x =? y)); [|by apply IH]. apply NoDup_cons. split; [|by apply IH].
  intros Hin. apply Hy. apply list_elem_of_In, List.filter_In in Hin as [Hin _].
  by apply list_elem_of_In.
Qed.

Lemma NoDup_oset_add x l : NoDup l -> NoDup (oset_add x l).
Proof.
  intros Hl. unfold oset_add. destruct (oset_has x l) eqn:Hx; [done|].
  apply NoDup_app. split; [done|]. split; [|apply NoDup_singleton].
  intros y Hy ->%list_elem_of_singleton.
  apply oset_has_spec in Hy. congruence.
Qed.

Lemma consistent_unbind_all s id :
  consistent s ->
  consistent (setWsClients
    (List.map (fun e =>
       (fst e, withMqttConnections (oset_delete id (ci_mqttConnections (snd e))) (snd e)))
       (wsClients s)) s).
Proof.
  intros []. constructor; try done; fields.
  - assert (Hk : forall l : list (string * ClientInfo),
        fst <$> List.map (fun e =>
          (fst e, withMqttConnections (oset_delete id (ci_mqttConnections (snd e))) (snd e))) l
        = fst <$> l).
    { induction l as [|e l IH]; [done|]. cbn. by f_equal. }
    by rewrite Hk.
  - clear -cons_viewer_sockets0. induction cons_viewer_sockets0; by constructor.
  - clear -cons_bindings0. induction cons_bindings0 as [|e l He _ IH]; constructor; [|done].
    cbn. by apply NoDup_oset_delete.
Qed.

Lemma consistent_bindViewer s v id :
  consistent s -> consistent (setWsClients (bindViewer v id (wsClients s)) s).
Proof.
  intros Hs. unfold bindViewer.
  assert (Hsame : consistent (setWsClients (wsClients s) s)) by (by destruct s).
  destruct (nonEmpty v) as [k|]; [|done].
  destruct (omap_get k (wsClients s)) as [i|] eqn:Hk; [|done].
  assert (Hin : (k, i) ∈ wsClients s).
  { clear -Hk. induction (wsClients s) as [|[k0 v0] l IH]; [done|]. cbn in Hk.
    destruct (String.eqb_spec k k0) as [->|Hne].
    - injection Hk as ->. by apply elem_of_cons; left.
    - apply elem_of_cons; right. by apply IH. }
  apply consistent_omap_set; [| |done].
  - cbn. by apply (proj1 (Forall_forall _ _) (cons_viewer_sockets s Hs) _ Hin).
  - cbn. apply NoDup_oset_add.
    by apply (proj1 (Forall_forall _ _) (cons_bindings s Hs) _ Hin).
Qed.

Lemma consistent_initial : consistent initialMonitor.
Proof.
  constructor; unfold initialMonitor; fields.
  all: try apply NoDup_nil_2.
  all: try (by constructor).
  - intros c h Hc. by rewrite lookup_empty in Hc.
  - intros h [[x Hx]|[x Hx]]; by rewrite lookup_empty in Hx.
Qed.

Lemma omap_get_elem {V} k (i : V) (m : list (string * V)) :
  omap_get k m = Some i -> (k, i) ∈ m.
Proof.
  induction m as [|[k0 v0] l IH]; [done|]. cbn [omap_get].
  destruct (String.eqb_spec k k0) as [->|Hne].
  - intros [= ->]. by apply elem_of_cons; left.
  - intros Hk. apply elem_of_cons; right. by apply IH.
Qed.

Lemma keeps_ret {A} (a : A) : keeps (ret a).
Proof. by intros s Hs. Qed.

Lemma keeps_throw {A} : keeps (@throw A).
Proof. by intros s Hs. Qed.

Lemma keeps_gets {A} (f : Monitor -> A) : keeps (gets f).
Proof. by intros s Hs. Qed.

Lemma keeps_liftOutcome {A} (o : outcome A) : keeps (liftOutcome o).
Proof. by intros s Hs. Qed.

Lemma keeps_getSocket k : keeps (getSocket k).
Proof. intros s Hs. unfold run, getSocket. by destruct (sockets s !! k). Qed.

Lemma keeps_getClient h : keeps (getClient h).
Proof. intros s Hs. unfold run, getClient. by destruct (clients s !! h). Qed.

Lemma keeps_modify (f : Monitor -> Monitor) :
  (forall s, consistent s -> consistent (f s)) -> keeps (modify f).
Proof. intros Hf s Hs. by apply Hf. Qed.

Lemma keeps_emit e : keeps (emit e).
Proof. apply keeps_modify. intros s. apply consistent_setTrace. Qed.

Lemma keeps_bind {A B} (c : M A) (k : A -> M B) :
  keeps c -> (forall a, keeps (k a)) -> keeps (bind c k).
Proof.
  intros Hc Hk s Hs. specialize (Hc s Hs). unfold run, bind in *.
  destruct (c s) as [[a| |] s']; cbn [snd] in *; [by apply Hk|done|done].
Qed.

Lemma keeps_tryCatch {A} (c h : M A) : keeps c -> keeps h -> keeps (tryCatch c h).
Proof.
  intros Hc Hh s Hs. specialize (Hc s Hs). unfold run, tryCatch in *.
  destruct (c s) as [[a| |] s']; cbn [snd] in *; [done|by apply Hh|done].
Qed.

Lemma keeps_when b c : keeps c -> keeps (when b c).
Proof. intros Hc. destruct b; [done|apply keeps_ret]. Qed.

Lemma keeps_forEach {A} (f : A -> M unit) l : (forall x, keeps (f x)) -> keeps (forEach f l).
Proof.
  intros Hf. induction l as [|x l IH]; [apply keeps_ret|].
  cbn [forEach]. by apply keeps_bind.
Qed.

Lemma keeps_filterM {A} (f : A -> M bool) l : (forall x, keeps (f x)) -> keeps (filterM f l).
Proof.
  intros Hf. induction l as [|x l IH]; [apply keeps_ret|].
  cbn [filterM]. apply keeps_bind; [done|]. intros keep.
  apply keeps_bind; [done|]. intros rest. apply keeps_ret.
Qed.

Lemma keeps_findM {A} (f : A -> M bool) l : (forall x, keeps (f x)) -> keeps (findM f l).
Proof.
  intros Hf. induction l as [|x l IH]; [apply keeps_ret|].
  cbn [findM]. apply keeps_bind; [done|]. intros [|]; [apply keeps_ret|done].
Qed.

Ltac keep :=
  repeat match goal with
    | |- keeps (ret _) => apply keeps_ret
    | |- keeps throw => apply keeps_throw
    | |- keeps (gets _) => apply keeps_gets
    | |- keeps (liftOutcome _) => apply keeps_liftOutcome
    | |- keeps (emit _) => apply keeps_emit
    | |- keeps (getSocket _) => apply keeps_getSocket
    | |- keeps (getClient _) => apply keeps_getClient
    | |- keeps (bind _ _) => apply keeps_bind; [|intros ?]
    | |- keeps (mbind _ _) => unfold mbind, M_bind
    | |- keeps (tryCatch _ _) => apply keeps_tryCatch
    | |- keeps (forEach _ _) => apply keeps_forEach; intros ?
    | |- keeps (filterM _ _) => apply keeps_filterM; intros ?
    | |- keeps (findM _ _) => apply keeps_findM; intros ?
    | |- keeps (when _ _) => apply keeps_when
    | |- keeps (match ?x with _ => _ end) => destruct x
    | |- keeps (let (_, _) := ?x in _) => destruct x
    end.

Lemma keeps_updateClient h f :
  (forall c, conn_id (mc_connection (f c)) = conn_id (mc_connection c)) ->
  keeps (updateClient h f).
Proof.
  intros Hf s Hs. unfold run, updateClient, bind, getClient.
  destruct (clients s !! h) as [c|] eqn:Hc; [|done]. cbn.
  by apply (consistent_update_client s h c).
Qed.

Lemma keeps_wsSend sock data : keeps (wsSend sock data).
Proof. unfold wsSend. keep. Qed.

Lemma keeps_broadcast data : keeps (broadcast data).
Proof. unfold broadcast. keep. apply keeps_wsSend. Qed.

Lemma keeps_disconnectMQTT c : keeps (disconnectMQTT c).
Proof.
  unfold disconnectMQTT. keep. apply keeps_modify. intros s.
  apply consistent_table_shrinks. intros k h0 Hk.
  destruct (decide (k = c)) as [->|Hne].
  - by rewrite lookup_delete_eq in Hk.
  - by rewrite lookup_delete_ne in Hk.
Qed.

Lemma keeps_handleWebSocketDisconnect v : keeps (handleWebSocketDisconnect v).
Proof.
  unfold handleWebSocketDisconnect. keep.
  - apply keeps_disconnectMQTT.
  - apply keeps_modify. intros s. apply consistent_omap_delete.
Qed.

Lemma keeps_onWsConnection wsClientId now : keeps (onWsConnection wsClientId now).
Proof.
  intros s Hs. unfold run. rewrite onWsConnection_eq. cbn [snd].
  apply consistent_setTrace.
  apply (consistent_omap_set
           (setNextHandle _ (setWssClients _ (setSockets _ s)))).
  - fields. cbn [ci_ws]. by rewrite lookup_insert_eq.
  - cbn [ci_mqttConnections]. apply NoDup_nil_2.
  - by apply consistent_alloc_socket.
Qed.

Lemma keeps_onWsMessage sock req now : keeps (onWsMessage sock req now).
Proof.
  intros s Hs. unfold run, onWsMessage. unfold bind at 1. unfold getSocket.
  destruct (sockets s !! sock) as [w|] eqn:Hw; [|done].
  destruct req as [|prior|target].
  - unfold bind, gets, modify. cbn.
    destruct (omap_get (ws_ownId w) (wsClients s)) as [i|] eqn:Hi; cbn; [|done].
    apply omap_get_elem in Hi.
    apply consistent_omap_set; [| |done]; cbn.
    + by apply (proj1 (Forall_forall _ _) (cons_viewer_sockets s Hs) _ Hi).
    + by apply (proj1 (Forall_forall _ _) (cons_bindings s Hs) _ Hi).
  - destruct (nonEmpty prior) as [p|]; [|done]. unfold mbind, M_bind, bind, gets, modify. cbn.
    destruct (omap_get p (wsClients s)) as [i|] eqn:Hi; cbn; [|done].
    apply omap_get_elem in Hi.
    apply (consistent_omap_delete (setWsClients _ s)).
    apply consistent_omap_set; [| |done]; cbn.
    + by exists w.
    + by apply (proj1 (Forall_forall _ _) (cons_bindings s Hs) _ Hi).
  - by apply keeps_handleWebSocketDisconnect.
Qed.

Lemma keeps_onWsClose sock : keeps (onWsClose sock).
Proof.
  intros s Hs. unfold run.
  destruct (sockets s !! sock) as [w|] eqn:Hw.
  - rewrite (onWsClose_eq sock w s Hw). apply keeps_handleWebSocketDisconnect.
    apply (consistent_wss_filter (setSockets _ s)).
    by apply (consistent_update_socket s sock w).
  - unfold onWsClose, bind, getSocket. by rewrite Hw.
Qed.

Lemma keeps_socketChanges sock r throws : keeps (socketChanges sock r throws).
Proof.
  intros s Hs. unfold run, socketChanges, bind, getSocket.
  destruct (sockets s !! sock) as [w|] eqn:Hw; [|done]. cbn.
  by apply (consistent_update_socket s sock w).
Qed.

Lemma keeps_connectMQTT connectThrows connection w now :
  keeps (connectMQTT connectThrows connection w now).
Proof.
  intros s Hs. unfold run.
  destruct (connectThrows (fst (connectOptions connection now))
                          (snd (connectOptions connection now))) eqn:Ht.
  - by rewrite (connectMQTT_throws _ _ _ _ _ Ht).
  - rewrite (connectMQTT_eq _ _ _ _ _ Ht). cbn [snd].
    apply consistent_setTrace. by apply consistent_alloc_client.
Qed.

Lemma keeps_connectRoute connectThrows connectionId wsClientId now :
  keeps (connectRoute connectThrows connectionId wsClientId now).
Proof.
  unfold connectRoute. keep.
  - intros s Hs. unfold run, db_getConnections. by destruct (db_failing (db s)).
  - apply keeps_connectMQTT.
Qed.

Lemma keeps_onMqttConnect h : keeps (onMqttConnect h).
Proof.
  intros s Hs. unfold run.
  destruct (clients s !! h) as [c|] eqn:Hc.
  - rewrite (onMqttConnect_eq h c s Hc). cbn [snd]. apply consistent_setTrace.
    apply (consistent_bindViewer (setMqttClients _ (setClients _ s))).
    apply (consistent_table_insert (setClients _ s) h (withConnected true c)).
    + fields. by rewrite lookup_insert_eq.
    + by apply (consistent_update_client s h c).
  - unfold onMqttConnect, updateClient, mbind, M_bind, bind, getClient. by rewrite Hc.
Qed.

Lemma keeps_onMqttClose h : keeps (onMqttClose h).
Proof.
  intros s Hs. unfold run.
  destruct (clients s !! h) as [c|] eqn:Hc.
  - rewrite (onMqttClose_eq h c s Hc). cbn [snd]. apply consistent_setTrace.
    apply (consistent_unbind_all (setMqttClients _ (setClients _ s))).
    apply (consistent_table_shrinks (setClients _ s)).
    + intros k h0. fields. destruct (decide (k = conn_id (mc_connection c))) as [->|Hne].
      * by rewrite lookup_delete_eq.
      * by rewrite lookup_delete_ne.
    + by apply (consistent_update_client s h c).
  - unfold onMqttClose, updateClient, mbind, M_bind, bind, getClient. by rewrite Hc.
Qed.

Lemma keeps_db_getTopics c : keeps (db_getTopics c).
Proof. intros s Hs. unfold run, db_getTopics. by destruct (db_failing (db s)). Qed.

Lemma keeps_onMqttMessage rt h topic message qos retain now :
  keeps (onMqttMessage rt h topic message qos retain now).
Proof.
  unfold onMqttMessage. keep; try apply keeps_db_getTopics; apply keeps_broadcast.
Qed.

Lemma keeps_subscribeToTopics c : keeps (subscribeToTopics c).
Proof. unfold subscribeToTopics. keep. apply keeps_db_getTopics. Qed.

Lemma keeps_disconnectMQTTValue v : keeps (disconnectMQTTValue v).
Proof. destruct v; try apply keeps_ret. apply keeps_disconnectMQTT. Qed.

Lemma keeps_deleteConnectionRoute sameId id : keeps (deleteConnectionRoute sameId id).
Proof.
  unfold deleteConnectionRoute. keep.
  - apply keeps_disconnectMQTTValue.
  - intros s Hs. unfold run, db_deleteConnection. destruct (db_failing (db s)); [done|].
    by apply consistent_setDb.
Qed.

Lemma keeps_pauseMonitoring connectionId paused :
  keeps (pauseMonitoring connectionId paused).
Proof. unfold pauseMonitoring. keep. by apply keeps_updateClient. Qed.

Lemma keeps_heartbeatVisit now v : keeps (heartbeatVisit now v).
Proof.
  unfold heartbeatVisit. keep;
    first [apply keeps_wsSend | apply keeps_handleWebSocketDisconnect].
Qed.

Lemma keeps_heartbeatTick now : keeps (heartbeatTick now).
Proof. unfold heartbeatTick. keep. apply keeps_heartbeatVisit. Qed.

Lemma consistent_after a s : consistent s -> consistent (after a s).
Proof.
  destruct a; cbn [after].
  - apply keeps_onWsConnection.
  - apply keeps_onWsMessage.
  - apply keeps_onWsClose.
  - apply keeps_socketChanges.
  - apply keeps_connectMQTT.
  - apply keeps_connectRoute.
  - apply keeps_onMqttConnect.
  - apply keeps_onMqttClose.
  - apply keeps_onMqttMessage.
  - apply keeps_subscribeToTopics.
  - apply keeps_disconnectMQTTValue.
  - apply keeps_deleteConnectionRoute.
  - apply keeps_pauseMonitoring.
  - apply keeps_heartbeatTick.
  - apply keeps_forEach. apply keeps_disconnectMQTT.
  - apply keeps_modify. intros s'. apply consistent_setDb.
  - intros Hs. unfold run, db_addTopic. destruct (db_failing (db s)); [done|].
    by apply consistent_setDb.
  - intros Hs. unfold run, db_updateTopicStatus. destruct (db_failing (db s)); [done|].
    by apply consistent_setDb.
Qed.

Lemma consistent_afterAll l : forall s, consistent s -> consistent (afterAll l s).
Proof.
  induction l as [|a l IH]; intros s Hs; [done|].
  cbn [afterAll fold_left]. apply IH. by apply consistent_after.
Qed.

Lemma reachable_consistent_registry l : registryOk (afterAll l initialMonitor).
Proof.
  destruct (consistent_afterAll l initialMonitor consistent_initial). by split.
Qed.

(** X24: whatever events a server has gone through since it started
    (viewer sockets opening, sending requests and closing, broker clients
    being created, connecting, closing and delivering messages, the routes,
    heartbeat ticks, the shutdown loop, changes of the network and of the
    store), its tables are consistent: the registry names every viewer
    once, every socket the registry or the socket server refers to exists,
    no set of bindings holds a connection id twice, and every entry of the
    session table holds a client that was created for that connection id. *)
Theorem reachable_states_consistent (l : list action) :
  consistent (afterAll l initialMonitor).
Proof. apply consistent_afterAll, consistent_initial. Qed.

(** X25: in every state a server can reach, the heartbeat callback returns
    normally: a socket that refuses the probe never makes the timer
    callback throw. *)
Theorem heartbeat_never_throws (l : list action) (now : Z) :
  result (heartbeatTick now) (afterAll l initialMonitor) = Returns tt.
Proof.
  pose proof (reachable_consistent_registry l) as [Hnd Hex].
  set (s := afterAll l initialMonitor) in *.
  destruct (heartbeat_loop now s (wsClients s) [] s eq_refl eq_refl Hnd Hex)
    as (s1 & Hrun & _).
  unfold result, heartbeatTick, bind, gets. by rewrite Hrun.
Qed.

(** *** The probes of a heartbeat tick *)

Lemma endsOf_no_send l : forall m : gmap Z handle, List.filter isSend (endsOf l m) = [].
Proof.
  induction l as [|c l IH]; intros m; [done|]. cbn [endsOf].
  destruct (m !! c); [cbn; apply IH|apply IH].
Qed.

Lemma heartbeat_loop_pings now (s : Monitor) (l : list (string * ClientInfo)) :
  forall pre s0,
  sockets s0 = sockets s ->
  wsClients s0 = pre ++ l ->
  NoDup (fst <$> pre ++ l) ->
  Forall (fun e => is_Some (sockets s !! ci_ws (snd e))) l ->
  exists es,
    trace (snd (forEach (fun e => heartbeatVisit now (fst e)) l s0)) = trace s0 ++ es /\
    List.filter isSend es =
      List.map (fun e => WsSend (ci_ws (snd e)) (Ping now))
        (List.filter (fun e => keptByHeartbeat s (snd e)) l).
Proof.
  induction l as [|[k info] l IH]; intros pre s0 Hsk Hws Hnd Hex.
  - exists []. cbn. by rewrite app_nil_r.
  - apply Forall_cons in Hex as [[w Hw] Hex]. cbn [snd] in Hw.
    assert (Hk : k ∉ fst <$> pre).
    { rewrite fmap_app in Hnd. apply NoDup_app in Hnd as (_ & Hdisj & _).
      intros Hin. apply (Hdisj k Hin). cbn. by apply elem_of_cons; left. }
    assert (Hget : omap_get k (wsClients s0) = Some info).
    { rewrite Hws, (omap_get_app_notin k pre _ Hk). cbn. by rewrite String.eqb_refl. }
    assert (Hdead : keptByHeartbeat s info = false ->
              exists es,
                trace (snd (forEach (fun e => heartbeatVisit now (fst e)) l
                              (run (handleWebSocketDisconnect k) s0))) = trace s0 ++ es /\
                handleWebSocketDisconnect k s0 =
                  (Returns tt, run (handleWebSocketDisconnect k) s0) /\
                List.filter isSend es =
                  List.map (fun e => WsSend (ci_ws (snd e)) (Ping now))
                    (List.filter (fun e => keptByHeartbeat s (snd e)) ((k, info) :: l))).
    { intros Hkept. pose proof (handleWebSocketDisconnect_eq k info s0 Hget) as Heq.
      unfold run. rewrite Heq. cbn [snd].
      match goal with |- context [forEach _ l ?sx] => set (s0' := sx) end.
      destruct (IH pre s0') as (es & Htr & Hes).
      - done.
      - subst s0'. cbn. rewrite Hws. by apply omap_delete_middle.
      - rewrite fmap_app in Hnd |- *. cbn [fmap list_fmap] in Hnd.
        apply NoDup_app in Hnd as (Hpre & Hdisj & Hm).
        apply NoDup_cons in Hm as [_ Hm]. apply NoDup_app. repeat split; try done.
        intros x Hx Hx'. apply (Hdisj x Hx). by apply elem_of_cons; right.
      - done.
      - exists (endsOf (ci_mqttConnections info) (mqttClients s0) ++ es).
        split; [|split; [done|]].
        + rewrite Htr. subst s0'. cbn. by rewrite <- app_assoc.
        + rewrite List.filter_app, endsOf_no_send. cbn [app List.filter snd].
          by rewrite Hkept. }
    cbn [forEach]. unfold mbind, M_bind, bind at 1. cbn [fst].
    unfold heartbeatVisit at 1, bind at 1, gets. rewrite Hget.
    unfold bind at 1, getSocket. rewrite Hsk, Hw.
    assert (Hkept : keptByHeartbeat s info =
                    isOpen (ws_readyState w) && negb (ws_sendThrows w)).
    { unfold keptByHeartbeat. by rewrite Hw. }
    destruct (isOpen (ws_readyState w)) eqn:Hopen.
    + unfold tryCatch, wsSend, bind at 1, getSocket. rewrite Hsk, Hw.
      destruct (ws_sendThrows w) eqn:Hthrows.
      * cbn in Hkept. destruct (Hdead Hkept) as (es & Htr & Hh & Hes).
        unfold throw. rewrite Hh. exists es. by split.
      * cbn in Hkept. unfold emit, modify.
        match goal with |- context [forEach _ l ?sx] => set (s0' := sx) end.
        destruct (IH (pre ++ [(k, info)]) s0') as (es & Htr & Hes).
        -- done.
        -- subst s0'. cbn. rewrite Hws. by rewrite <- app_assoc.
        -- by rewrite <- app_assoc.
        -- done.
        -- exists (WsSend (ci_ws info) (Ping now) :: es). split.
           { rewrite Htr. subst s0'. cbn. by rewrite <- app_assoc. }
           cbn [List.filter snd isSend]. rewrite Hkept. cbn [List.map snd]. by rewrite Hes.
    + cbn in Hkept. destruct (Hdead Hkept) as (es & Htr & Hh & Hes).
      rewrite Hh. exists es. by split.
Qed.

(** X26: a heartbeat tick probes every viewer it keeps exactly once, in the
    order of the registry, on the viewer's own socket and with the time of
    the tick; a viewer it removes is sent nothing, and no other message
    goes to any socket. *)
Theorem heartbeat_probes_kept_viewers (s : Monitor) (now : Z) :
  registryOk s ->
  List.filter isSend (emitted (heartbeatTick now) s) =
    List.map (fun e => WsSend (ci_ws (snd e)) (Ping now))
      (List.filter (fun e => keptByHeartbeat s (snd e)) (wsClients s)).
Proof.
  intros [Hnd Hex].
  destruct (heartbeat_loop_pings now s (wsClients s) [] s eq_refl eq_refl Hnd Hex)
    as (es & Htr & Hes).
  rewrite <- Hes. f_equal. apply emitted_trace.
  unfold run, heartbeatTick, bind, gets. exact Htr.
Qed.

Lemma heartbeat_probes_kept_viewers_witness :
  registryOk firstRefuses /\
  List.filter isSend (emitted (heartbeatTick 30) firstRefuses) = [WsSend 1%nat (Ping 30)].
Proof.
  split; [exact registryOk_firstRefuses|].
  apply (heartbeat_probes_kept_viewers firstRefuses 30 registryOk_firstRefuses).
Defined.
End Server.
